(** * The xds_cluster_manager load-balancing policy

    A shallow embedding of
    [src/core/ext/filters/client_channel/lb_policy/xds/xds_cluster_manager.cc]:
    the policy object [XdsClusterManagerLb], its per-cluster [ClusterChild]
    records, the [ClusterPicker] it publishes, and the entry points that the
    work serializer runs one at a time ([UpdateLocked], [ShutdownLocked],
    [ExitIdleLocked], [ResetBackoffLocked], the child helper's callbacks and
    the delayed-removal timer callback).

    The C++ objects are reference counted and refer to each other by pointer;
    here the [ClusterChild] objects live in a store indexed by address, the
    policy's [children_] map holds addresses, and every call into a
    collaborator (the channel, a child policy, the timer system) is appended
    to a trace.  What the collaborators decide is a parameter: the helper
    calls that a child policy makes while one of its methods runs, what the
    channel hands back when asked for a subchannel, and the order in which
    the standard library destroys the elements of a map that is cleared.
    Reference counts, the trace flag and its log lines are not modelled. *)

From stdpp Require Import gmap strings list fin_maps sorting.
From Stdlib Require Import ZArith Ascii.

Local Open Scope string_scope.

(** ** Values exchanged with the collaborators *)

(** [grpc_connectivity_state], in the order of the C enum. *)
Inductive grpc_connectivity_state : Type :=
  | GRPC_CHANNEL_IDLE
  | GRPC_CHANNEL_CONNECTING
  | GRPC_CHANNEL_READY
  | GRPC_CHANNEL_TRANSIENT_FAILURE
  | GRPC_CHANNEL_SHUTDOWN.

Global Instance grpc_connectivity_state_eq_dec : EqDecision grpc_connectivity_state.
Proof. solve_decision. Defined.

(** The part of [absl::StatusCode] that this file and its callers produce. *)
Inductive StatusCode : Type :=
  | kOk | kCancelled | kUnknown | kInvalidArgument | kInternal | kUnavailable.

Global Instance StatusCode_eq_dec : EqDecision StatusCode.
Proof. solve_decision. Defined.

Record Status : Type := mkStatus { code : StatusCode; message : string }.

Global Instance Status_eq_dec : EqDecision Status.
Proof. solve_decision. Defined.

(** A default-constructed [absl::Status]. *)
Definition OkStatus : Status := mkStatus kOk EmptyString.
Definition InternalError (msg : string) : Status := mkStatus kInternal msg.

(** [grpc_error_handle] as the timer callback receives it. *)
Inductive grpc_error_handle : Type :=
  | GRPC_ERROR_NONE
  | GRPC_ERROR_CANCELLED
  | GRPC_ERROR_OTHER (description : string).

Definition GRPC_ERROR_IS_NONE (error : grpc_error_handle) : bool :=
  match error with GRPC_ERROR_NONE => true | _ => false end.

(** Opaque values that the policy only forwards. *)
Definition LbConfig : Type := string.
Definition ServerAddressList : Type := list string.
Definition ChannelArgs : Type := list (string * string).

(** Addresses of [ClusterChild] objects and identities of the child policy
    handlers they own. *)
Definition child_ptr : Type := nat.
Definition policy_id : Type := nat.

(** A picker handed over by a collaborator: either the [QueuePicker] of
    lb_policy.h or a picker that a child policy passed to its helper. *)
Inductive SubchannelPicker : Type :=
  | QueuePicker
  | ChildPolicyPicker (id : nat).

Global Instance SubchannelPicker_eq_dec : EqDecision SubchannelPicker.
Proof. solve_decision. Defined.

Inductive PickResult : Type :=
  | Complete (subchannel : nat)
  | Queue
  | Fail (status : Status)
  | Drop (status : Status).

(** [LbCallState] is an interface of which [Pick] calls one method: an
    object is given by what [GetCallAttribute] returns for each attribute
    type. *)
Record LbCallState : Type := mkLbCallState {
  GetCallAttribute : string → string
}.

(** [PickArgs]: the call's path and its [LbCallState]. *)
Record PickArgs : Type := mkPickArgs {
  path : string;
  call_state : LbCallState
}.

(** [GRPC_XDS_CLUSTER_MANAGER_CHILD_RETENTION_INTERVAL_MS] *)
Definition GRPC_XDS_CLUSTER_MANAGER_CHILD_RETENTION_INTERVAL_MS : Z := (15 * 60 * 1000)%Z.

(** ** The classes of the policy *)

Module ChildPickerWrapper.
Record t : Type := mk { name_ : string; picker_ : SubchannelPicker }.
End ChildPickerWrapper.

Global Instance ChildPickerWrapper_eq_dec : EqDecision ChildPickerWrapper.t.
Proof. solve_decision. Defined.

(** [ClusterPicker::ClusterMap]: cluster name to picker wrapper.  An entry is
    never null: [UpdateStateLocked] fills every entry it creates. *)
Abbreviation ClusterPickerMap := (gmap string ChildPickerWrapper.t).

Module ClusterChild.
Record t : Type := mk {
  name_ : string;
  child_policy_ : option policy_id;
  picker_wrapper_ : option ChildPickerWrapper.t;
  connectivity_state_ : grpc_connectivity_state;
  delayed_removal_timer_callback_pending_ : bool;
  shutdown_ : bool
}.

(** The constructor: the member initialisers of the class. *)
Definition new (name : string) : t :=
  mk name None None GRPC_CHANNEL_IDLE false false.

Definition set_child_policy_ (v : option policy_id) (c : t) : t :=
  mk (name_ c) v (picker_wrapper_ c) (connectivity_state_ c)
     (delayed_removal_timer_callback_pending_ c) (shutdown_ c).
Definition set_picker_wrapper_ (v : option ChildPickerWrapper.t) (c : t) : t :=
  mk (name_ c) (child_policy_ c) v (connectivity_state_ c)
     (delayed_removal_timer_callback_pending_ c) (shutdown_ c).
Definition set_connectivity_state_ (v : grpc_connectivity_state) (c : t) : t :=
  mk (name_ c) (child_policy_ c) (picker_wrapper_ c) v
     (delayed_removal_timer_callback_pending_ c) (shutdown_ c).
Definition set_delayed_removal_timer_callback_pending_ (v : bool) (c : t) : t :=
  mk (name_ c) (child_policy_ c) (picker_wrapper_ c) (connectivity_state_ c)
     v (shutdown_ c).
Definition set_shutdown_ (v : bool) (c : t) : t :=
  mk (name_ c) (child_policy_ c) (picker_wrapper_ c) (connectivity_state_ c)
     (delayed_removal_timer_callback_pending_ c) v.
End ClusterChild.

Module XdsClusterManagerLb.
(** [config_] is the [cluster_map()] of the current
    [XdsClusterManagerLbConfig], [None] while the pointer is null.
    [children_] maps a name to the address of its [ClusterChild]. *)
Record t : Type := mk {
  config_ : option (gmap string LbConfig);
  shutting_down_ : bool;
  update_in_progress_ : bool;
  children_ : gmap string child_ptr
}.

Definition new : t := mk None false false ∅.

Definition set_config_ (v : option (gmap string LbConfig)) (p : t) : t :=
  mk v (shutting_down_ p) (update_in_progress_ p) (children_ p).
Definition set_shutting_down_ (v : bool) (p : t) : t :=
  mk (config_ p) v (update_in_progress_ p) (children_ p).
Definition set_update_in_progress_ (v : bool) (p : t) : t :=
  mk (config_ p) (shutting_down_ p) v (children_ p).
Definition set_children_ (v : gmap string child_ptr) (p : t) : t :=
  mk (config_ p) (shutting_down_ p) (update_in_progress_ p) v.
End XdsClusterManagerLb.

(** ** Calls into the collaborators *)

(** The methods of a child policy that this file calls. *)
Inductive policy_call : Type :=
  | CallUpdate (policy : policy_id) (config : LbConfig)
               (addresses : Status + ServerAddressList) (args : ChannelArgs)
  | CallExitIdle (policy : policy_id)
  | CallResetBackoff (policy : policy_id).

Inductive effect : Type :=
  (** [channel_control_helper()->UpdateState(state, status, picker)] *)
  | ChannelUpdateState (state : grpc_connectivity_state) (status : Status)
                       (picker : ClusterPickerMap)
  | ChannelCreateSubchannel (address : string) (args : ChannelArgs)
  | ChannelRequestReresolution
  | ChannelAddTraceEvent (severity : nat) (msg : string)
  (** [MakeOrphanable<ChildPolicyHandler>] in [CreateChildPolicyLocked] *)
  | CreateChildPolicy (child : child_ptr) (policy : policy_id)
  | PollsetSetAdd (policy : policy_id)
  | PollsetSetDel (policy : policy_id)
  | ChildPolicyCall (call : policy_call)
  (** [child_policy_.reset()] *)
  | ChildPolicyReset (policy : policy_id)
  | TimerInit (child : child_ptr) (deadline : Z)
  | TimerCancel (child : child_ptr).

(** ** The state the serialized entry points run on *)

Record World : Type := mkWorld {
  lb : XdsClusterManagerLb.t;
  heap : gmap child_ptr ClusterChild.t;
  next_policy : policy_id;
  now : Z;
  trace : list effect
}.

Definition set_lb (v : XdsClusterManagerLb.t) (w : World) : World :=
  mkWorld v (heap w) (next_policy w) (now w) (trace w).
Definition set_heap (v : gmap child_ptr ClusterChild.t) (w : World) : World :=
  mkWorld (lb w) v (next_policy w) (now w) (trace w).
Definition set_next_policy (v : policy_id) (w : World) : World :=
  mkWorld (lb w) (heap w) v (now w) (trace w).
Definition set_trace (v : list effect) (w : World) : World :=
  mkWorld (lb w) (heap w) (next_policy w) (now w) v.

(** A freshly constructed policy at time [t]. *)
Definition initial_world (t : Z) : World :=
  mkWorld XdsClusterManagerLb.new ∅ 0 t [].

(** ** A state monad with faults *)

(** Ways in which a serialized call does not return normally: a null smart
    pointer is dereferenced; [GPR_UNREACHABLE_CODE] is reached (the macro is
    defined outside the sources; whatever it does, the call ends there, and
    so without publishing); or an address that the store does not hold is
    used (the entry points below never free an address, so this one needs an
    ill-formed [World]). *)
Inductive Fault : Type := NullDereference | UnreachableCode | DanglingChild.

Inductive Result (A : Type) : Type :=
  | Done (a : A) (w : World)
  | Abort (f : Fault).
Arguments Done {A} a w.
Arguments Abort {A} f.

Definition M (A : Type) : Type := World → Result A.

Definition ret {A} (a : A) : M A := λ w, Done a w.
Definition bind {A B} (m : M A) (k : A → M B) : M B :=
  λ w, match m w with Done a w' => k a w' | Abort f => Abort f end.
Definition abort {A} (f : Fault) : M A := λ _, Abort f.

Notation "x <~ m ;; k" := (bind m (λ x, k))
  (at level 100, m at next level, right associativity).
Notation "m ;;; k" := (bind m (λ _, k))
  (at level 100, right associativity).

Definition gets {A} (f : World → A) : M A := λ w, Done (f w) w.
Definition modify (f : World → World) : M unit := λ w, Done tt (f w).
Definition emit (e : effect) : M unit :=
  modify (λ w, set_trace (trace w ++ [e]) w).
Definition modify_lb (f : XdsClusterManagerLb.t → XdsClusterManagerLb.t) : M unit :=
  modify (λ w, set_lb (f (lb w)) w).

(** Dereference a smart pointer that may be null. *)
Definition deref {A} (p : option A) : M A :=
  match p with Some a => ret a | None => abort NullDereference end.

(** Read and write the [ClusterChild] at an address. *)
Definition load (p : child_ptr) : M ClusterChild.t :=
  λ w, match heap w !! p with Some c => Done c w | None => Abort DanglingChild end.
Definition store (p : child_ptr) (c : ClusterChild.t) : M unit :=
  modify (λ w, set_heap (<[p := c]> (heap w)) w).
Definition update_child (p : child_ptr) (f : ClusterChild.t → ClusterChild.t) : M unit :=
  c <~ load p ;; store p (f c).

Fixpoint for_each {A} (f : A → M unit) (l : list A) : M unit :=
  match l with
  | [] => ret tt
  | x :: l' => f x ;;; for_each f l'
  end.

Fixpoint foldM {A S} (f : S → A → M S) (s : S) (l : list A) : M S :=
  match l with
  | [] => ret s
  | x :: l' => s' <~ f s x ;; foldM f s' l'
  end.

(** ** Iterating a [std::map]

    A range-for over a [std::map<std::string, V>] visits the entries in
    increasing key order. *)
Definition entry_le {V} (a b : string * V) : Prop := String.leb a.1 b.1 = true.

Global Instance entry_le_dec {V} (a b : string * V) : Decision (entry_le a b).
Proof. unfold entry_le. apply _. Defined.

Definition entries {V} (m : gmap string V) : list (string * V) :=
  merge_sort entry_le (map_to_list m).

(** ** What child policies do

    While one of its methods runs, a child policy may call its helper any
    number of times.  The methods are not part of this file, so their
    behaviour is a parameter: given the state at the call and the call, the
    list of helper calls made before the method returns. *)

Inductive helper_call : Type :=
  | HelperUpdateState (state : grpc_connectivity_state) (status : Status)
                      (picker : SubchannelPicker)
  | HelperCreateSubchannel (address : string) (args : ChannelArgs)
  | HelperRequestReresolution
  | HelperAddTraceEvent (severity : nat) (msg : string).

(** [UpdateArgs] as the channel passes it to [UpdateLocked]. *)
Record UpdateArgs : Type := mkUpdateArgs {
  config : gmap string LbConfig;
  addresses : Status + ServerAddressList;
  args : ChannelArgs
}.

(** The four counters of [UpdateStateLocked].  They are [size_t] in the
    source; each is at most the number of entries of [children_], so no
    increment wraps. *)
Record StateCounts : Type := mkCounts {
  num_ready : nat;
  num_connecting : nat;
  num_idle : nat;
  num_transient_failures : nat
}.

(** ** What the channel and the standard library decide

    [channel_control_helper()] is the channel's [ChannelControlHelper], an
    interface declared in lb_policy.h.  Of its methods that this file calls,
    [CreateSubchannel] is the one whose result is used: it hands back a
    [RefCountedPtr<SubchannelInterface>], a subchannel (numbered as in
    [PickResult]) or a null pointer.  Which one is the channel's decision,
    taken on the state at the call, the address and the args. *)
Class ChannelControlHelper : Type := {
  channel_CreateSubchannel : World → string → ChannelArgs → option nat
}.

(** [std::map::clear()] destroys every element of the map, each once.  In
    which order it does so is not fixed by the language; it is the choice of
    the standard library that the program is built with, and may depend on
    how the map came to hold its elements.  So the order in which
    [children_.clear()] destroys the entries of [children_] is given for
    the state at the call. *)
Class MapClear : Type := {
  clear_order : World → list (string * child_ptr);
  clear_order_Permutation (w : World) :
    clear_order w ≡ₚ map_to_list (XdsClusterManagerLb.children_ (lb w))
}.

Section Policy.

Context {channel : ChannelControlHelper} {map_clear : MapClear}.

Variable child_policy : World → policy_call → list helper_call.

(** *** XdsClusterManagerLb::UpdateStateLocked *)

(** One iteration of the counting loop. *)
Definition count_child (n : StateCounts) (p : string * child_ptr) : M StateCounts :=
  cfg <~ (c <~ gets (λ w, XdsClusterManagerLb.config_ (lb w)) ;; deref c) ;;
  match cfg !! p.1 with
  | None => ret n
  | Some _ =>
      child <~ load p.2 ;;
      match ClusterChild.connectivity_state_ child with
      | GRPC_CHANNEL_READY =>
          ret (mkCounts (S (num_ready n)) (num_connecting n) (num_idle n)
                        (num_transient_failures n))
      | GRPC_CHANNEL_CONNECTING =>
          ret (mkCounts (num_ready n) (S (num_connecting n)) (num_idle n)
                        (num_transient_failures n))
      | GRPC_CHANNEL_IDLE =>
          ret (mkCounts (num_ready n) (num_connecting n) (S (num_idle n))
                        (num_transient_failures n))
      | GRPC_CHANNEL_TRANSIENT_FAILURE =>
          ret (mkCounts (num_ready n) (num_connecting n) (num_idle n)
                        (S (num_transient_failures n)))
      | GRPC_CHANNEL_SHUTDOWN => abort UnreachableCode
      end
  end.

Definition aggregated_state (n : StateCounts) : grpc_connectivity_state :=
  if decide (0 < num_ready n) then GRPC_CHANNEL_READY
  else if decide (0 < num_connecting n) then GRPC_CHANNEL_CONNECTING
  else if decide (0 < num_idle n) then GRPC_CHANNEL_IDLE
  else GRPC_CHANNEL_TRANSIENT_FAILURE.

(** One iteration of the loop that fills the picker map.  The lookup
    [children_[cluster_name]] default-inserts a null pointer for a missing
    name, which the next member access dereferences. *)
Definition add_cluster_picker (cluster_map : ClusterPickerMap)
    (p : string * LbConfig) : M ClusterPickerMap :=
  let cluster_name := p.1 in
  ch <~ gets (λ w, XdsClusterManagerLb.children_ (lb w)) ;;
  ptr <~ deref (ch !! cluster_name) ;;
  child <~ load ptr ;;
  let child_picker :=
    match ClusterChild.picker_wrapper_ child with
    | Some pw => pw
    | None => ChildPickerWrapper.mk cluster_name QueuePicker
    end in
  ret (<[cluster_name := child_picker]> cluster_map).

Definition aggregated_status (s : grpc_connectivity_state) : Status :=
  match s with
  | GRPC_CHANNEL_TRANSIENT_FAILURE =>
      mkStatus kUnavailable "TRANSIENT_FAILURE from XdsClusterManagerLb"
  | _ => OkStatus
  end.

Definition UpdateStateLocked : M unit :=
  in_progress <~ gets (λ w, XdsClusterManagerLb.update_in_progress_ (lb w)) ;;
  if (in_progress : bool) then ret tt else
  ch <~ gets (λ w, XdsClusterManagerLb.children_ (lb w)) ;;
  n <~ foldM count_child (mkCounts 0 0 0 0) (entries ch) ;;
  let connectivity_state := aggregated_state n in
  cfg <~ (c <~ gets (λ w, XdsClusterManagerLb.config_ (lb w)) ;; deref c) ;;
  cluster_map <~ foldM add_cluster_picker ∅ (entries cfg) ;;
  let status := aggregated_status connectivity_state in
  emit (ChannelUpdateState connectivity_state status cluster_map).

(** *** XdsClusterManagerLb::ClusterChild::Helper *)

(** The two assignments of [Helper::UpdateState] to its [ClusterChild]:
    the picker is wrapped and cached, and the state is overwritten unless
    the recorded state is TRANSIENT_FAILURE and the new one is not READY. *)
Definition cache_picker (picker : SubchannelPicker) (c : ClusterChild.t) : ClusterChild.t :=
  ClusterChild.set_picker_wrapper_
    (Some (ChildPickerWrapper.mk (ClusterChild.name_ c) picker)) c.

Definition latch_state (state : grpc_connectivity_state) (c : ClusterChild.t) : ClusterChild.t :=
  if bool_decide (ClusterChild.connectivity_state_ c ≠ GRPC_CHANNEL_TRANSIENT_FAILURE)
     || bool_decide (state = GRPC_CHANNEL_READY)
  then ClusterChild.set_connectivity_state_ state c
  else c.

Definition Helper_UpdateState (child : child_ptr)
    (state : grpc_connectivity_state) (status : Status)
    (picker : SubchannelPicker) : M unit :=
  sd <~ gets (λ w, XdsClusterManagerLb.shutting_down_ (lb w)) ;;
  if (sd : bool) then ret tt else
  update_child child (cache_picker picker) ;;;
  update_child child (latch_state state) ;;;
  UpdateStateLocked.

(** Returns what the channel's [CreateSubchannel] returns, [None] being the
    null pointer. *)
Definition Helper_CreateSubchannel (child : child_ptr) (address : string)
    (a : ChannelArgs) : M (option nat) :=
  sd <~ gets (λ w, XdsClusterManagerLb.shutting_down_ (lb w)) ;;
  if (sd : bool) then ret None else
  subchannel <~ gets (λ w, channel_CreateSubchannel w address a) ;;
  emit (ChannelCreateSubchannel address a) ;;;
  ret subchannel.

Definition Helper_RequestReresolution (child : child_ptr) : M unit :=
  sd <~ gets (λ w, XdsClusterManagerLb.shutting_down_ (lb w)) ;;
  if (sd : bool) then ret tt else emit ChannelRequestReresolution.

Definition Helper_AddTraceEvent (child : child_ptr) (severity : nat)
    (msg : string) : M unit :=
  sd <~ gets (λ w, XdsClusterManagerLb.shutting_down_ (lb w)) ;;
  if (sd : bool) then ret tt else emit (ChannelAddTraceEvent severity msg).

(** A child policy calling the helper that was wired to [child].
    [GetAuthority] only reads from the channel and is left out. *)
Definition Helper_call (child : child_ptr) (h : helper_call) : M unit :=
  match h with
  | HelperUpdateState state status picker =>
      Helper_UpdateState child state status picker
  | HelperCreateSubchannel address a =>
      Helper_CreateSubchannel child address a ;;; ret tt
  | HelperRequestReresolution => Helper_RequestReresolution child
  | HelperAddTraceEvent severity msg => Helper_AddTraceEvent child severity msg
  end.

(** Run a child policy method: the call is recorded, then the helper calls
    it makes are run. *)
Definition call_child_policy (child : child_ptr) (c : policy_call) : M unit :=
  emit (ChildPolicyCall c) ;;;
  reaction <~ gets (λ w, child_policy w c) ;;
  for_each (Helper_call child) reaction.

(** *** XdsClusterManagerLb::ClusterChild *)

Definition CreateChildPolicyLocked (child : child_ptr) (a : ChannelArgs)
    : M policy_id :=
  pid <~ gets next_policy ;;
  modify (set_next_policy (S pid)) ;;;
  emit (CreateChildPolicy child pid) ;;;
  emit (PollsetSetAdd pid) ;;;
  ret pid.

Definition ClusterChild_UpdateLocked (child : child_ptr) (cfg : LbConfig)
    (addrs : Status + ServerAddressList) (a : ChannelArgs) : M unit :=
  sd <~ gets (λ w, XdsClusterManagerLb.shutting_down_ (lb w)) ;;
  if (sd : bool) then ret tt else
  c <~ load child ;;
  (if ClusterChild.delayed_removal_timer_callback_pending_ c
   then store child (ClusterChild.set_delayed_removal_timer_callback_pending_ false c) ;;;
        emit (TimerCancel child)
   else ret tt) ;;;
  c <~ load child ;;
  pid <~ match ClusterChild.child_policy_ c with
         | Some pid => ret pid
         | None =>
             pid <~ CreateChildPolicyLocked child a ;;
             store child (ClusterChild.set_child_policy_ (Some pid) c) ;;;
             ret pid
         end ;;
  call_child_policy child (CallUpdate pid cfg addrs a).

Definition ClusterChild_ExitIdleLocked (child : child_ptr) : M unit :=
  c <~ load child ;;
  pid <~ deref (ClusterChild.child_policy_ c) ;;
  call_child_policy child (CallExitIdle pid).

Definition ClusterChild_ResetBackoffLocked (child : child_ptr) : M unit :=
  c <~ load child ;;
  pid <~ deref (ClusterChild.child_policy_ c) ;;
  call_child_policy child (CallResetBackoff pid).

Definition ClusterChild_DeactivateLocked (child : child_ptr) : M unit :=
  c <~ load child ;;
  if ClusterChild.delayed_removal_timer_callback_pending_ c then ret tt else
  t <~ gets now ;;
  emit (TimerInit child (t + GRPC_XDS_CLUSTER_MANAGER_CHILD_RETENTION_INTERVAL_MS)%Z) ;;;
  store child (ClusterChild.set_delayed_removal_timer_callback_pending_ true c).

(** [Orphan]: run by the [OrphanablePtr] of a [children_] entry when the
    entry is destroyed.  The child policy that [child_policy_.reset()] shuts
    down is taken not to call its helper while doing so. *)
Definition ClusterChild_Orphan (child : child_ptr) : M unit :=
  c <~ load child ;;
  pid <~ deref (ClusterChild.child_policy_ c) ;;
  emit (PollsetSetDel pid) ;;;
  emit (ChildPolicyReset pid) ;;;
  (if ClusterChild.delayed_removal_timer_callback_pending_ c
   then emit (TimerCancel child) else ret tt) ;;;
  store child
    (ClusterChild.set_shutdown_ true
       (ClusterChild.set_picker_wrapper_ None
          (ClusterChild.set_child_policy_ None c))).

(** [children_.erase(name)]: the entry is unlinked and its pointer
    destroyed. *)
Definition children_erase (name : string) : M unit :=
  ch <~ gets (λ w, XdsClusterManagerLb.children_ (lb w)) ;;
  match ch !! name with
  | None => ret tt
  | Some p =>
      modify_lb (XdsClusterManagerLb.set_children_ (delete name ch)) ;;;
      ClusterChild_Orphan p
  end.

Definition ClusterChild_OnDelayedRemovalTimerLocked (child : child_ptr)
    (error : grpc_error_handle) : M unit :=
  update_child child
    (ClusterChild.set_delayed_removal_timer_callback_pending_ false) ;;;
  c <~ load child ;;
  if GRPC_ERROR_IS_NONE error && negb (ClusterChild.shutdown_ c)
  then children_erase (ClusterChild.name_ c)
  else ret tt.

(** *** XdsClusterManagerLb *)

(** [children_.clear()] destroys every entry, in the order that the
    standard library chooses. *)
Definition ShutdownLocked : M unit :=
  modify_lb (XdsClusterManagerLb.set_shutting_down_ true) ;;;
  order <~ gets clear_order ;;
  for_each (λ p : string * child_ptr, ClusterChild_Orphan p.2) order ;;;
  modify_lb (XdsClusterManagerLb.set_children_ ∅).

Definition ExitIdleLocked : M unit :=
  ch <~ gets (λ w, XdsClusterManagerLb.children_ (lb w)) ;;
  for_each (λ p : string * child_ptr, ClusterChild_ExitIdleLocked p.2) (entries ch).

Definition ResetBackoffLocked : M unit :=
  ch <~ gets (λ w, XdsClusterManagerLb.children_ (lb w)) ;;
  for_each (λ p : string * child_ptr, ClusterChild_ResetBackoffLocked p.2) (entries ch).

(** [MakeOrphanable<ClusterChild>(..., name)] at an address not in use. *)
Definition new_ClusterChild (name : string) : M child_ptr :=
  p <~ gets (λ w, fresh (dom (heap w))) ;;
  store p (ClusterChild.new name) ;;;
  ret p.

Definition deactivate_if_absent (p : string * child_ptr) : M unit :=
  cfg <~ (c <~ gets (λ w, XdsClusterManagerLb.config_ (lb w)) ;; deref c) ;;
  match cfg !! p.1 with
  | None => ClusterChild_DeactivateLocked p.2
  | Some _ => ret tt
  end.

Definition add_or_update (addrs : Status + ServerAddressList) (a : ChannelArgs)
    (p : string * LbConfig) : M unit :=
  ch <~ gets (λ w, XdsClusterManagerLb.children_ (lb w)) ;;
  child <~ match ch !! p.1 with
           | Some ptr => ret ptr
           | None =>
               ptr <~ new_ClusterChild p.1 ;;
               modify_lb (λ l, XdsClusterManagerLb.set_children_
                                 (<[p.1 := ptr]> (XdsClusterManagerLb.children_ l)) l) ;;;
               ret ptr
           end ;;
  ClusterChild_UpdateLocked child p.2 addrs a.

Definition UpdateLocked (u : UpdateArgs) : M unit :=
  sd <~ gets (λ w, XdsClusterManagerLb.shutting_down_ (lb w)) ;;
  if (sd : bool) then ret tt else
  modify_lb (XdsClusterManagerLb.set_update_in_progress_ true) ;;;
  modify_lb (XdsClusterManagerLb.set_config_ (Some (config u))) ;;;
  ch <~ gets (λ w, XdsClusterManagerLb.children_ (lb w)) ;;
  for_each deactivate_if_absent (entries ch) ;;;
  cfg <~ (c <~ gets (λ w, XdsClusterManagerLb.config_ (lb w)) ;; deref c) ;;
  for_each (add_or_update (addresses u) (args u)) (entries cfg) ;;;
  modify_lb (XdsClusterManagerLb.set_update_in_progress_ false) ;;;
  UpdateStateLocked.

End Policy.

(** ** Picking *)

Section Picking.

(** What the pickers handed over by child policies return.  A pick runs on
    the data plane; whatever it may touch is threaded as the [World]. *)
Variable child_picker : nat → PickArgs → World → PickResult * World.

(** The attribute type under which the resolver files the cluster name; it
    is declared in xds_resolver.h, which is not among the sources. *)
Variable XdsClusterAttributeTypeName : string.

(** Modelled from the spec: [QueuePicker::Pick] is declared in lb_policy.h,
    which is not among the sources.  The spec describes it as the picker that
    defers the call until a real picker is published: the pick returns the
    queue result. *)
Definition QueuePicker_Pick (a : PickArgs) (w : World) : PickResult * World :=
  (Queue, w).

Definition SubchannelPicker_Pick (p : SubchannelPicker) (a : PickArgs)
    (w : World) : PickResult * World :=
  match p with
  | QueuePicker => QueuePicker_Pick a w
  | ChildPolicyPicker id => child_picker id a w
  end.

(** [ChildPickerWrapper::Pick] *)
Definition ChildPickerWrapper_Pick (pw : ChildPickerWrapper.t) (a : PickArgs)
    (w : World) : PickResult * World :=
  SubchannelPicker_Pick (ChildPickerWrapper.picker_ pw) a w.

Definition double_quote : string := String "034"%char EmptyString.

(** The argument of [absl::StrCat] in [ClusterPicker::Pick]. *)
Definition unknown_cluster_message (cluster_name : string) : string :=
  "xds cluster manager picker: unknown cluster " ++ double_quote
    ++ cluster_name ++ double_quote.

(** [ClusterPicker::Pick] *)
Definition ClusterPicker_Pick (cluster_map_ : ClusterPickerMap) (a : PickArgs)
    (w : World) : PickResult * World :=
  let cluster_name := GetCallAttribute (call_state a) XdsClusterAttributeTypeName in
  match cluster_map_ !! cluster_name with
  | Some it => ChildPickerWrapper_Pick it a w
  | None => (Fail (InternalError (unknown_cluster_message cluster_name)), w)
  end.

End Picking.

(** ** The factory *)

(** [Json::Type] *)
Inductive Json_Type : Type :=
  | JSON_NULL | JSON_TRUE | JSON_FALSE | NUMBER | STRING | OBJECT | ARRAY.

Global Instance Json_Type_eq_dec : EqDecision Json_Type.
Proof. solve_decision. Defined.

(** [Json] is declared in json.h, which is not among the sources.  The
    factory calls two of its methods, [type()] and [object_value()]; a JSON
    value is anything that has them.  [Json::Object] is a [std::map], so
    iterating an object visits its members in key order. *)
Class JsonOps (Json : Type) : Type := {
  Json_type : Json → Json_Type;
  object_value : Json → gmap string Json
}.

Definition InvalidArgumentError (msg : string) : Status := mkStatus kInvalidArgument msg.

(** [absl::StrJoin] *)
Fixpoint StrJoin (l : list string) (sep : string) : string :=
  match l with
  | [] => EmptyString
  | s :: l' =>
      match l' with
      | [] => s
      | _ :: _ => s ++ sep ++ StrJoin l' sep
      end
  end.

(** The locals of [ParseLoadBalancingConfig].  [clusters_to_be_used] is
    filled but never read. *)
Module ParseState.
Record t : Type := mk {
  errors : list string;
  cluster_map : gmap string LbConfig;
  clusters_to_be_used : gset string
}.

Definition emplace_back (e : string) (s : t) : t :=
  mk (errors s ++ [e]) (cluster_map s) (clusters_to_be_used s).
End ParseState.

Section Factory.

Context {Json : Type} `{JsonOps Json}.

(** [CoreConfiguration::Get().lb_policy_registry().ParseLoadBalancingConfig]:
    an [absl::StatusOr], either a status that is not OK or a config. *)
Variable registry_ParseLoadBalancingConfig : Json → Status + LbConfig.

(** A default-constructed [RefCountedPtr<LoadBalancingPolicy::Config>]. *)
Variable null_config : LbConfig.

Definition ParseChildConfig (json : Json) : Status + LbConfig :=
  if bool_decide (Json_type json ≠ OBJECT)
  then inl (InvalidArgumentError "value should be of type object") else
  let '(child_config, errors) :=
    match object_value json !! "childPolicy" with
    | None => (null_config, ["did not find childPolicy"])
    | Some it =>
        match registry_ParseLoadBalancingConfig it with
        | inl status =>
            (null_config, ["field:childPolicy error:" ++ message status])
        | inr config => (config, [])
        end
    end in
  if bool_decide (errors ≠ [])
  then inl (InvalidArgumentError (StrJoin errors "; "))
  else inr child_config.

(** One iteration of the loop over the members of [children]. *)
Definition parse_child (s : ParseState.t) (p : string * Json) : ParseState.t :=
  let child_name := p.1 in
  if bool_decide (child_name = EmptyString)
  then ParseState.emplace_back "field:children error: name cannot be empty" s
  else
    match ParseChildConfig p.2 with
    | inl status =>
        ParseState.emplace_back
          ("field:children name:" ++ child_name ++ " error:" ++ message status) s
    | inr config =>
        ParseState.mk (ParseState.errors s)
          (<[child_name := config]> (ParseState.cluster_map s))
          ({[ child_name ]} ∪ ParseState.clusters_to_be_used s)
    end.

(** The value is the [cluster_map()] of the [XdsClusterManagerLbConfig]
    returned. *)
Definition ParseLoadBalancingConfig (json : Json) : Status + gmap string LbConfig :=
  if bool_decide (Json_type json = JSON_NULL)
  then inl (InvalidArgumentError
              ("field:loadBalancingPolicy error:xds_cluster_manager policy requires "
               ++ "configuration.  Please use loadBalancingConfig field of service "
               ++ "config instead."))
  else
  let s0 := ParseState.mk [] ∅ ∅ in
  let s1 :=
    match object_value json !! "children" with
    | None =>
        ParseState.emplace_back "field:children error:required field not present" s0
    | Some it =>
        if bool_decide (Json_type it ≠ OBJECT)
        then ParseState.emplace_back "field:children error:type should be object" s0
        else foldl parse_child s0 (entries (object_value it))
    end in
  let s2 :=
    if bool_decide (ParseState.cluster_map s1 = ∅)
    then ParseState.emplace_back "no valid children configured" s1
    else s1 in
  if bool_decide (ParseState.errors s2 ≠ [])
  then inl (InvalidArgumentError
              ("errors parsing xds_cluster_manager_experimental LB policy config: ["
               ++ StrJoin (ParseState.errors s2) "; " ++ "]"))
  else inr (ParseState.cluster_map s2).

End Factory.

(** ** Notions used by the statements *)

(** *** Projections of the trace *)

(** The states and pickers published to the channel, oldest first. *)
Definition publications (t : list effect)
    : list (grpc_connectivity_state * Status * ClusterPickerMap) :=
  omap (λ e, match e with
             | ChannelUpdateState st status pk => Some (st, status, pk)
             | _ => None
             end) t.
Global Arguments publications : simpl never.

(** The child policies instantiated along a trace, with the record that
    instantiated each. *)
Definition creations (t : list effect) : list (child_ptr * policy_id) :=
  omap (λ e, match e with
             | CreateChildPolicy child pid => Some (child, pid)
             | _ => None
             end) t.
Global Arguments creations : simpl never.

(** The calls made to the timer system along a trace, oldest first. *)
Definition timer_calls (t : list effect) : list effect :=
  omap (λ e, match e with
             | TimerInit _ _ | TimerCancel _ => Some e
             | _ => None
             end) t.

(** The status that goes with a published state. *)
Definition status_matches_state (e : effect) : Prop :=
  match e with
  | ChannelUpdateState st status _ =>
      (code status = kUnavailable ↔ st = GRPC_CHANNEL_TRANSIENT_FAILURE) ∧
      (st ≠ GRPC_CHANNEL_TRANSIENT_FAILURE → status = OkStatus)
  | _ => True
  end.

(** An effect that is not the instantiation of a child policy. *)
Definition not_creation (e : effect) : Prop :=
  match e with CreateChildPolicy _ _ => False | _ => True end.

(** What all calls but [UpdateLocked] put in the trace. *)
Definition calm (e : effect) : Prop := status_matches_state e ∧ not_creation e.

(** [m] frees no record and only appends to the trace, and what it appends
    satisfies [P]. *)
Definition appends (P : effect → Prop) {A} (m : M A) : Prop :=
  ∀ w a w', m w = Done a w' →
    dom (heap w) ⊆ dom (heap w') ∧
    ∃ new, trace w' = (trace w ++ new)%list ∧ Forall P new.

(** [s] occurs in [t]. *)
Definition contains (t s : string) : Prop := ∃ pre post, t = pre ++ s ++ post.

(** *** Configured children *)

(** [c] is the record that [children_] holds for the configured cluster
    [name]. *)
Definition configured_child (w : World) (name : string) (c : ClusterChild.t) : Prop :=
  ∃ cfg ptr,
    XdsClusterManagerLb.config_ (lb w) = Some cfg ∧ is_Some (cfg !! name) ∧
    XdsClusterManagerLb.children_ (lb w) !! name = Some ptr ∧
    heap w !! ptr = Some c.

Definition any_configured_child (w : World) (s : grpc_connectivity_state) : Prop :=
  ∃ name c, configured_child w name c ∧ ClusterChild.connectivity_state_ c = s.

(** [st] is the highest of READY, CONNECTING, IDLE that a record of a
    configured name is in, and TRANSIENT_FAILURE when there is none. *)
Definition chosen_by_priority (w : World) (st : grpc_connectivity_state) : Prop :=
  (any_configured_child w GRPC_CHANNEL_READY → st = GRPC_CHANNEL_READY) ∧
  (¬ any_configured_child w GRPC_CHANNEL_READY →
   any_configured_child w GRPC_CHANNEL_CONNECTING → st = GRPC_CHANNEL_CONNECTING) ∧
  (¬ any_configured_child w GRPC_CHANNEL_READY →
   ¬ any_configured_child w GRPC_CHANNEL_CONNECTING →
   any_configured_child w GRPC_CHANNEL_IDLE → st = GRPC_CHANNEL_IDLE) ∧
  (¬ any_configured_child w GRPC_CHANNEL_READY →
   ¬ any_configured_child w GRPC_CHANNEL_CONNECTING →
   ¬ any_configured_child w GRPC_CHANNEL_IDLE →
   st = GRPC_CHANNEL_TRANSIENT_FAILURE).

(** Every name of the current configuration has an entry in [children_]. *)
Definition configured_present (w : World) : Prop :=
  ∀ cfg name,
    XdsClusterManagerLb.config_ (lb w) = Some cfg → is_Some (cfg !! name) →
    is_Some (XdsClusterManagerLb.children_ (lb w) !! name).

(** The states in which [UpdateStateLocked] gets to publish: no update is
    being propagated, there is a configuration, and each configured name has
    a record whose state is one of the four that the switch handles. *)
Definition recomputable (w : World) : Prop :=
  XdsClusterManagerLb.update_in_progress_ (lb w) = false ∧
  ∃ cfg, XdsClusterManagerLb.config_ (lb w) = Some cfg ∧
    ∀ name, is_Some (cfg !! name) →
      ∃ c, configured_child w name c ∧
           ClusterChild.connectivity_state_ c ≠ GRPC_CHANNEL_SHUTDOWN.

(** [recomputable] as a test. *)
Definition recomputable_check (w : World) : bool :=
  negb (XdsClusterManagerLb.update_in_progress_ (lb w)) &&
  match XdsClusterManagerLb.config_ (lb w) with
  | None => false
  | Some cfg =>
      forallb (λ p : string * LbConfig,
        match XdsClusterManagerLb.children_ (lb w) !! p.1 with
        | None => false
        | Some ptr =>
            match heap w !! ptr with
            | None => false
            | Some c =>
                bool_decide (ClusterChild.connectivity_state_ c ≠ GRPC_CHANNEL_SHUTDOWN)
            end
        end) (entries cfg)
  end.

(** The counter that [count_child] increments for a state. *)
Definition tally (s : grpc_connectivity_state) (n : StateCounts) : nat :=
  match s with
  | GRPC_CHANNEL_READY => num_ready n
  | GRPC_CHANNEL_CONNECTING => num_connecting n
  | GRPC_CHANNEL_IDLE => num_idle n
  | GRPC_CHANNEL_TRANSIENT_FAILURE => num_transient_failures n
  | GRPC_CHANNEL_SHUTDOWN => 0
  end.

(** The entry that [add_cluster_picker] writes for a name, when it gets to
    write one. *)
Definition picker_entry (w : World) (name : string) : option ChildPickerWrapper.t :=
  match XdsClusterManagerLb.children_ (lb w) !! name with
  | None => None
  | Some ptr =>
      match heap w !! ptr with
      | None => None
      | Some c =>
          Some (default (ChildPickerWrapper.mk name QueuePicker)
                        (ClusterChild.picker_wrapper_ c))
      end
  end.

(** *** The representation invariant *)

(** Between serialized calls every entry of [children_] points to a live
    record filed under its own name, whose child policy exists, and whose
    state is not SHUTDOWN (the case that [UpdateStateLocked] marks
    unreachable). *)
Definition child_ok (w : World) (name : string) (ptr : child_ptr) : Prop :=
  ∃ c, heap w !! ptr = Some c ∧
       ClusterChild.name_ c = name ∧
       is_Some (ClusterChild.child_policy_ c) ∧
       ClusterChild.shutdown_ c = false ∧
       ClusterChild.connectivity_state_ c ≠ GRPC_CHANNEL_SHUTDOWN.

Definition wf (w : World) : Prop :=
  ∀ name ptr, XdsClusterManagerLb.children_ (lb w) !! name = Some ptr →
              child_ok w name ptr.

Global Instance child_ok_dec w name ptr : Decision (child_ok w name ptr).
Proof.
  unfold child_ok. destruct (heap w !! ptr) as [c|].
  - destruct (decide (ClusterChild.name_ c = name ∧
                      is_Some (ClusterChild.child_policy_ c) ∧
                      ClusterChild.shutdown_ c = false ∧
                      ClusterChild.connectivity_state_ c ≠ GRPC_CHANNEL_SHUTDOWN))
      as [H|H].
    + left. exists c. split; [reflexivity|exact H].
    + right. intros (c' & Hc' & H'). injection Hc' as <-. exact (H H').
  - right. intros (c & Hc & _). discriminate Hc.
Defined.

Global Instance wf_dec w : Decision (wf w).
Proof.
  unfold wf.
  exact (map_Forall_dec (λ name ptr, child_ok w name ptr)
           (XdsClusterManagerLb.children_ (lb w))).
Defined.

(** The policy after [ShutdownLocked]. *)
Definition shut (w : World) : Prop :=
  XdsClusterManagerLb.shutting_down_ (lb w) = true ∧
  XdsClusterManagerLb.children_ (lb w) = ∅.

(** A child policy that never reports SHUTDOWN to its helper. *)
Definition never_reports_shutdown
    (child_policy : World → policy_call → list helper_call) : Prop :=
  ∀ w c st status pk,
    HelperUpdateState st status pk ∈ child_policy w c → st ≠ GRPC_CHANNEL_SHUTDOWN.

(** *** What the calls leave behind *)

(** What a helper call made while an update is being propagated leaves in
    the trace: state updates are absorbed, the rest is forwarded to the
    channel. *)
Definition forwarded (h : helper_call) : option effect :=
  match h with
  | HelperUpdateState _ _ _ => None
  | HelperCreateSubchannel address a => Some (ChannelCreateSubchannel address a)
  | HelperRequestReresolution => Some ChannelRequestReresolution
  | HelperAddTraceEvent severity msg => Some (ChannelAddTraceEvent severity msg)
  end.

(** What a helper call leaves in the record of its child. *)
Definition absorb (c : ClusterChild.t) (h : helper_call) : ClusterChild.t :=
  match h with
  | HelperUpdateState st _ pk => latch_state st (cache_picker pk c)
  | _ => c
  end.

(** The calls that [ClusterChild::UpdateLocked] makes before it hands the
    update to the child policy. *)
Definition reactivation_effects (child : child_ptr) (c : ClusterChild.t)
    (np : policy_id) : list effect :=
  (if ClusterChild.delayed_removal_timer_callback_pending_ c
   then [TimerCancel child] else []) ++
  (match ClusterChild.child_policy_ c with
   | Some _ => []
   | None => [CreateChildPolicy child np; PollsetSetAdd np]
   end).

(** What [Orphan] leaves in a record. *)
Definition orphaned (c : ClusterChild.t) : ClusterChild.t :=
  ClusterChild.set_shutdown_ true
    (ClusterChild.set_picker_wrapper_ None
       (ClusterChild.set_child_policy_ None c)).

(** The calls that [Orphan] makes for a record whose child policy is
    [pid]. *)
Definition orphan_effects (child : child_ptr) (c : ClusterChild.t)
    (pid : policy_id) : list effect :=
  [PollsetSetDel pid; ChildPolicyReset pid] ++
  (if ClusterChild.delayed_removal_timer_callback_pending_ c
   then [TimerCancel child] else []).

(** How a state has grown out of [w0] while an update is propagated:
    records were only added, nothing was published, and every child policy
    instantiated since belongs to a record allocated since, one for each. *)
Definition grown (w0 w : World) : Prop :=
  dom (heap w0) ⊆ dom (heap w) ∧
  ∃ new, trace w = (trace w0 ++ new)%list ∧
         publications new = [] ∧
         NoDup (creations new).*1 ∧
         ∀ q, q ∈ (creations new).*1 → (q ∉ dom (heap w0)) ∧ (q ∈ dom (heap w)).

(** What holds throughout the two loops of an [UpdateLocked] that started
    in [w0]. *)
Definition propagating (cfg : gmap string LbConfig) (w0 w : World) : Prop :=
  XdsClusterManagerLb.shutting_down_ (lb w) = false ∧
  XdsClusterManagerLb.update_in_progress_ (lb w) = true ∧
  XdsClusterManagerLb.config_ (lb w) = Some cfg ∧
  wf w ∧
  grown w0 w.

(** *** The two loops of [UpdateLocked], step by step *)

(** The timer that the first loop of an [UpdateLocked] that started in [w]
    arms for the entry [p] of [children_]: one for a record whose name is not
    in the new configuration [cfg] and that is not pending removal yet. *)
Definition timer_started (w : World) (cfg : gmap string LbConfig)
    (p : string * child_ptr) : option effect :=
  match cfg !! p.1, heap w !! p.2 with
  | None, Some c =>
      if ClusterChild.delayed_removal_timer_callback_pending_ c then None
      else Some (TimerInit p.2
                   (now w + GRPC_XDS_CLUSTER_MANAGER_CHILD_RETENTION_INTERVAL_MS)%Z)
  | _, _ => None
  end.

(** The first loop after the entries [seen], started in [wa]: the records of
    the entries seen whose name is not configured are pending removal, the
    other records are as they were, and the timers armed are in the trace. *)
Definition deactivating (cfg : gmap string LbConfig) (wa : World)
    (seen : list (string * child_ptr)) (w : World) : Prop :=
  lb w = lb wa ∧ now w = now wa ∧ dom (heap w) = dom (heap wa) ∧
  (∀ ptr, (∀ name, (name, ptr) ∈ seen → is_Some (cfg !! name)) →
          heap w !! ptr = heap wa !! ptr) ∧
  (∀ name ptr, (name, ptr) ∈ seen → cfg !! name = None →
     heap w !! ptr =
       ClusterChild.set_delayed_removal_timer_callback_pending_ true <$> heap wa !! ptr) ∧
  trace w = (trace wa ++ omap (timer_started wa cfg) seen)%list.

(** The record that [ClusterChild::UpdateLocked] leaves for a record [c],
    [hs] being the helper calls that the child policy made while it was
    updated and [np] the identity of the next child policy to be created. *)
Definition updated_child (c : ClusterChild.t) (np : policy_id)
    (hs : list helper_call) : ClusterChild.t :=
  foldl absorb
    (ClusterChild.set_child_policy_
       (Some (default np (ClusterChild.child_policy_ c)))
       (ClusterChild.set_delayed_removal_timer_callback_pending_ false c))
    hs.

(** The second loop after the entries [seen] of the configuration, started
    in [w1] for the update [cfg], [addrs], [a]: only records for names seen
    were added, at new addresses; the records of the names not seen yet,
    and the records that are not filed, are as they were; each name seen
    has a record that is not pending removal and whose child policy has
    been updated with the name's config; no other call was made on a child
    policy; a child policy was instantiated for the new records only; and no
    timer was armed and nothing published. *)
Definition updating (cfg : gmap string LbConfig)
    (addrs : Status + ServerAddressList) (a : ChannelArgs) (w1 : World)
    (seen : list (string * LbConfig)) (w : World) : Prop :=
  let ch0 := XdsClusterManagerLb.children_ (lb w1) in
  let ch := XdsClusterManagerLb.children_ (lb w) in
  propagating cfg w1 w ∧
  now w = now w1 ∧
  ch0 ⊆ ch ∧
  (∀ name, is_Some (ch !! name) → is_Some (ch0 !! name) ∨ name ∈ seen.*1) ∧
  (∀ name ptr, ch !! name = Some ptr → ch0 !! name = None → ptr ∉ dom (heap w1)) ∧
  (∀ name ptr, ch !! name = Some ptr → name ∉ seen.*1 →
               heap w !! ptr = heap w1 !! ptr) ∧
  (∀ ptr, (∀ name, ch !! name ≠ Some ptr) → heap w !! ptr = heap w1 !! ptr) ∧
  ∃ new,
    trace w = (trace w1 ++ new)%list ∧
    (∀ q d, TimerInit q d ∉ new) ∧
    (∀ call, ChildPolicyCall call ∈ new →
       ∃ pid name cfgv ptr c',
         (name, cfgv) ∈ seen ∧ ch !! name = Some ptr ∧ heap w !! ptr = Some c' ∧
         ClusterChild.child_policy_ c' = Some pid ∧
         call = CallUpdate pid cfgv addrs a) ∧
    (∀ q pid, CreateChildPolicy q pid ∈ new →
       ∃ name c', ch0 !! name = None ∧ ch !! name = Some q ∧
                  heap w !! q = Some c' ∧ ClusterChild.child_policy_ c' = Some pid) ∧
    (∀ name cfgv, (name, cfgv) ∈ seen →
       ∃ ptr c' pid,
         ch !! name = Some ptr ∧ heap w !! ptr = Some c' ∧
         ClusterChild.delayed_removal_timer_callback_pending_ c' = false ∧
         ClusterChild.child_policy_ c' = Some pid ∧
         ChildPolicyCall (CallUpdate pid cfgv addrs a) ∈ new ∧
         (ch0 !! name = None → CreateChildPolicy ptr pid ∈ new)).

(** ** Sequences of serialized calls *)

(** What the work serializer can run on the policy: the methods the channel
    calls, a helper call from a child policy, the removal timer's callback
    for a record, and the passing of time. *)
Inductive event : Type :=
  | EvUpdate (u : UpdateArgs)
  | EvShutdown
  | EvExitIdle
  | EvResetBackoff
  | EvHelper (child : child_ptr) (h : helper_call)
  | EvTimer (child : child_ptr) (error : grpc_error_handle)
  | EvClock (t : Z).

Definition exec {channel : ChannelControlHelper} {map_clear : MapClear}
    (child_policy : World → policy_call → list helper_call)
    (e : event) : M unit :=
  match e with
  | EvUpdate u => UpdateLocked child_policy u
  | EvShutdown => ShutdownLocked
  | EvExitIdle => ExitIdleLocked child_policy
  | EvResetBackoff => ResetBackoffLocked child_policy
  | EvHelper child h => Helper_call child h
  | EvTimer child error => ClusterChild_OnDelayedRemovalTimerLocked child error
  | EvClock t => modify (λ w, mkWorld (lb w) (heap w) (next_policy w) t (trace w))
  end.

(** Child policies do not report SHUTDOWN through their helper. *)
Definition well_behaved (e : event) : Prop :=
  match e with
  | EvHelper _ (HelperUpdateState st _ _) => st ≠ GRPC_CHANNEL_SHUTDOWN
  | _ => True
  end.

(** The states of a policy constructed at some time and driven by calls
    that all returned. *)
Inductive reachable {channel : ChannelControlHelper} {map_clear : MapClear}
    (child_policy : World → policy_call → list helper_call)
    : World → Prop :=
  | reachable_initial t : reachable child_policy (initial_world t)
  | reachable_step w e w' :
      reachable child_policy w → well_behaved e →
      exec child_policy e w = Done tt w' →
      reachable child_policy w'.

(** Running one more call on the outcome of earlier ones. *)
Definition and_then (r : Result unit) (m : M unit) : Result unit :=
  match r with Done _ w => m w | Abort f => Abort f end.

(** *** What holds between serialized calls *)

(** [w'] has the records of [w], each with the name, the child policy and
    the flags it had, and the same policy object. *)
Definition same_records (w w' : World) : Prop :=
  lb w' = lb w ∧ dom (heap w') = dom (heap w) ∧
  ∀ ptr c c', heap w !! ptr = Some c → heap w' !! ptr = Some c' →
    ClusterChild.name_ c' = ClusterChild.name_ c ∧
    ClusterChild.child_policy_ c' = ClusterChild.child_policy_ c ∧
    ClusterChild.delayed_removal_timer_callback_pending_ c' =
      ClusterChild.delayed_removal_timer_callback_pending_ c ∧
    ClusterChild.shutdown_ c' = ClusterChild.shutdown_ c.

(** Every record that has not been orphaned is the one filed under its
    name. *)
Definition live_filed (w : World) : Prop :=
  ∀ ptr c, heap w !! ptr = Some c → ClusterChild.shutdown_ c = false →
    XdsClusterManagerLb.children_ (lb w) !! ClusterChild.name_ c = Some ptr.

(** No record exists while there is no configuration. *)
Definition configured_first (w : World) : Prop :=
  XdsClusterManagerLb.config_ (lb w) = None → heap w = ∅.

(** The records pending removal are records of names that are not
    configured. *)
Definition pending_unconfigured (w : World) : Prop :=
  ∀ cfg name ptr c,
    XdsClusterManagerLb.config_ (lb w) = Some cfg →
    XdsClusterManagerLb.children_ (lb w) !! name = Some ptr →
    heap w !! ptr = Some c →
    ClusterChild.delayed_removal_timer_callback_pending_ c = true →
    cfg !! name = None.

(** The removal timer's callback is run in time: with no error only for a
    record that is still pending removal, not for one whose timer was
    cancelled between the expiry and the run of the callback. *)
Definition timely (w : World) (e : event) : Prop :=
  match e with
  | EvTimer child error =>
      GRPC_ERROR_IS_NONE error = true →
      ∀ c, heap w !! child = Some c →
           ClusterChild.delayed_removal_timer_callback_pending_ c = true
  | _ => True
  end.

(** The states reached by calls that all returned, the timer callbacks
    being run in time. *)
Inductive raceless {channel : ChannelControlHelper} {map_clear : MapClear}
    (child_policy : World → policy_call → list helper_call)
    : World → Prop :=
  | raceless_initial t : raceless child_policy (initial_world t)
  | raceless_step w e w' :
      raceless child_policy w → well_behaved e → timely w e →
      exec child_policy e w = Done tt w' →
      raceless child_policy w'.

(** A call into the channel. *)
Definition to_channel (e : effect) : Prop :=
  match e with
  | ChannelUpdateState _ _ _ | ChannelCreateSubchannel _ _
  | ChannelRequestReresolution | ChannelAddTraceEvent _ _ => True
  | _ => False
  end.

(** The calls that [ShutdownLocked], started in [w], makes for the entry
    [p] of [children_]: those of [Orphan] on the entry's record. *)
Definition teardown (w : World) (p : string * child_ptr) : list effect :=
  match heap w !! p.2 with
  | Some c =>
      match ClusterChild.child_policy_ c with
      | Some pid => orphan_effects p.2 c pid
      | None => []
      end
  | None => []
  end.

(** *** Ownership of the child policies *)

(** Every child policy that a record owns was instantiated before, its
    identity being below the next one to be given out, and no other record
    owns it. *)
Definition owned_apart (w : World) : Prop :=
  ∀ p c pid, heap w !! p = Some c → ClusterChild.child_policy_ c = Some pid →
    (pid < next_policy w)%nat ∧
    ∀ q d, heap w !! q = Some d → ClusterChild.child_policy_ d = Some pid → q = p.

(** The child policy on which a call is made. *)
Definition called_policy (c : policy_call) : policy_id :=
  match c with
  | CallUpdate pid _ _ _ | CallExitIdle pid | CallResetBackoff pid => pid
  end.

(** [m] gives out no identity, and leaves every record the child policy it
    had, or none. *)
Definition keeps_policies {A} (m : M A) : Prop :=
  ∀ w a w', m w = Done a w' →
    next_policy w' = next_policy w ∧
    ∀ p c' pid, heap w' !! p = Some c' → ClusterChild.child_policy_ c' = Some pid →
      ∃ c, heap w !! p = Some c ∧ ClusterChild.child_policy_ c = Some pid.

(** *** What the factory makes of a member of [children] *)

(** How the message of a rejected config starts. *)
Definition parse_prefix : string :=
  "errors parsing xds_cluster_manager_experimental LB policy config: [".

Section FactoryNotions.
Context {Json : Type} `{JsonOps Json}.
Variable registry_ParseLoadBalancingConfig : Json → Status + LbConfig.
Variable null_config : LbConfig.

(** The config that the member [name : v] of [children] contributes, if
    any. *)
Definition child_value (name : string) (v : Json) : option LbConfig :=
  if decide (name = EmptyString) then None
  else match ParseChildConfig registry_ParseLoadBalancingConfig null_config v with
       | inr config => Some config
       | inl _ => None
       end.

(** The error that the member [p] of [children] is reported with, if any. *)
Definition child_error (p : string * Json) : option string :=
  if decide (p.1 = EmptyString)
  then Some "field:children error: name cannot be empty"
  else match ParseChildConfig registry_ParseLoadBalancingConfig null_config p.2 with
       | inr _ => None
       | inl status =>
           Some ("field:children name:" ++ p.1 ++ " error:" ++ message status)
       end.
End FactoryNotions.

(** ** Example inputs *)

(** A child policy that reports nothing while its methods run, and one that
    reports READY with a picker as soon as it is updated. *)
Definition quiet_policy : World → policy_call → list helper_call := λ _ _, [].

Definition eager_policy : World → policy_call → list helper_call :=
  λ _ c, match c with
         | CallUpdate pid _ _ _ =>
             [HelperAddTraceEvent 0 "connected";
              HelperUpdateState GRPC_CHANNEL_READY OkStatus (ChildPolicyPicker pid)]
         | _ => []
         end.

(** A channel that hands back a null pointer for the empty address and, for
    any other, a subchannel numbered by the calls made before. *)
Definition example_channel : ChannelControlHelper :=
  {| channel_CreateSubchannel w address _ :=
       if decide (address = EmptyString) then None else Some (length (trace w)) |}.

(** The order of libstdc++, whose [clear()] destroys the elements of a map
    from the last key to the first. *)
Definition libstdcxx_clear : MapClear.
Proof.
  refine {| clear_order w :=
              reverse (entries (XdsClusterManagerLb.children_ (lb w))) |}.
  intros w. unfold entries.
  by rewrite reverse_Permutation, merge_sort_Permutation.
Defined.

(** An implementation that clears a map from the first key to the last. *)
Definition key_order_clear : MapClear.
Proof.
  refine {| clear_order w := entries (XdsClusterManagerLb.children_ (lb w)) |}.
  intros w. unfold entries. by rewrite merge_sort_Permutation.
Defined.

(** A data plane whose picks complete on the subchannel numbered like the
    picker. *)
Definition plain_picker : nat → PickArgs → World → PickResult * World :=
  λ id _ w, (Complete id, w).

Definition config_AB : gmap string LbConfig := {[ "A" := "polX"; "B" := "polY" ]}.
Definition config_A : gmap string LbConfig := {[ "A" := "polX" ]}.

Definition update_with (cfg : gmap string LbConfig) : UpdateArgs :=
  mkUpdateArgs cfg (inr []) [].

(** A call whose cluster attribute, filed under the type [cluster_type], is
    [cluster]. *)
Definition cluster_type : string := "xds_cluster_name".

Definition call_for (cluster : string) : PickArgs :=
  mkPickArgs "/service/method"
    (mkLbCallState (λ type, if decide (type = cluster_type) then cluster
                            else EmptyString)).

(** The policy after a first update with [config_AB], the children not having
    reported yet. *)
Definition world_AB : World :=
  mkWorld
    (XdsClusterManagerLb.mk (Some config_AB) false false {[ "A" := 0; "B" := 1 ]})
    {[ 0 := ClusterChild.mk "A" (Some 0) None GRPC_CHANNEL_IDLE false false;
       1 := ClusterChild.mk "B" (Some 1) None GRPC_CHANNEL_IDLE false false ]}
    2 0%Z
    [CreateChildPolicy 0 0; PollsetSetAdd 0;
     ChildPolicyCall (CallUpdate 0 "polX" (inr []) []);
     CreateChildPolicy 1 1; PollsetSetAdd 1;
     ChildPolicyCall (CallUpdate 1 "polY" (inr []) []);
     ChannelUpdateState GRPC_CHANNEL_IDLE OkStatus
       {[ "A" := ChildPickerWrapper.mk "A" QueuePicker;
          "B" := ChildPickerWrapper.mk "B" QueuePicker ]}].

(** [world_AB] after [ShutdownLocked], [children_] being cleared from the
    last key to the first. *)
Definition world_AB_shut : World :=
  mkWorld
    (XdsClusterManagerLb.mk (Some config_AB) true false ∅)
    {[ 0 := ClusterChild.mk "A" None None GRPC_CHANNEL_IDLE false true;
       1 := ClusterChild.mk "B" None None GRPC_CHANNEL_IDLE false true ]}
    2 0%Z
    (trace world_AB ++
     [PollsetSetDel 1; ChildPolicyReset 1; PollsetSetDel 0; ChildPolicyReset 0]).

(** A is CONNECTING and configured; B is READY but no longer configured and
    waits for its removal timer.  The state, with the trace left out, after
    the calls [calls_B_deactivated]. *)
Definition world_B_deactivated : World :=
  mkWorld
    (XdsClusterManagerLb.mk (Some config_A) false false {[ "A" := 0; "B" := 1 ]})
    {[ 0 := ClusterChild.mk "A" (Some 0)
                  (Some (ChildPickerWrapper.mk "A" (ChildPolicyPicker 10)))
                  GRPC_CHANNEL_CONNECTING false false;
       1 := ClusterChild.mk "B" (Some 1)
                  (Some (ChildPickerWrapper.mk "B" (ChildPolicyPicker 11)))
                  GRPC_CHANNEL_READY true false ]}
    2 0%Z [].

Definition calls_B_deactivated : list event :=
  [EvUpdate (update_with config_AB);
   EvHelper 0 (HelperUpdateState GRPC_CHANNEL_CONNECTING OkStatus (ChildPolicyPicker 10));
   EvHelper 1 (HelperUpdateState GRPC_CHANNEL_READY OkStatus (ChildPolicyPicker 11));
   EvUpdate (update_with config_A)].

(** [world_B_deactivated] while the update that brings B back is being
    propagated. *)
Definition world_B_returning : World :=
  set_lb (XdsClusterManagerLb.mk (Some config_AB) false true {[ "A" := 0; "B" := 1 ]})
         world_B_deactivated.

(** The only configured child failed.  The state, with the trace left out,
    after the calls [calls_A_failed]. *)
Definition world_A_failed : World :=
  mkWorld
    (XdsClusterManagerLb.mk (Some config_A) false false {[ "A" := 0 ]})
    {[ 0 := ClusterChild.mk "A" (Some 0)
                  (Some (ChildPickerWrapper.mk "A" (ChildPolicyPicker 10)))
                  GRPC_CHANNEL_TRANSIENT_FAILURE false false ]}
    1 0%Z [].

Definition calls_A_failed : list event :=
  [EvUpdate (update_with config_A);
   EvHelper 0 (HelperUpdateState GRPC_CHANNEL_TRANSIENT_FAILURE
                 (mkStatus kUnavailable "connection refused") (ChildPolicyPicker 10))].

(** The serialized calls of the reactivation race: B is removed from the
    configuration and brought back, and the firing of B's removal timer,
    which [OnDelayedRemovalTimer] had queued on the work serializer with
    [GRPC_ERROR_NONE] before the last update ran, runs after it. *)
Definition reactivation_race_calls : list event :=
  [EvUpdate (update_with config_AB);
   EvUpdate (update_with config_A);
   EvUpdate (update_with config_AB);
   EvTimer 1 GRPC_ERROR_NONE].

Definition reactivation_race : Result unit :=
  for_each (exec (channel := example_channel) (map_clear := libstdcxx_clear)
              quiet_policy)
    reactivation_race_calls (initial_world 0%Z).

(** B leaves the configuration and its removal timer is armed; at time 1000
    B comes back, which cancels the timer, and leaves again, which arms the
    timer anew. *)
Definition twice_deactivated_calls : list event :=
  [EvUpdate (update_with config_AB);
   EvUpdate (update_with config_A);
   EvClock 1000;
   EvUpdate (update_with config_AB);
   EvUpdate (update_with config_A)].

(** The serialized calls of a stale cancellation: only after B has left
    again does the callback of the cancelled timer run. *)
Definition stale_cancellation_calls : list event :=
  twice_deactivated_calls ++ [EvTimer 1 GRPC_ERROR_CANCELLED].

(** The calls of a run with the example channel and the order of
    libstdc++. *)
Definition run (child_policy : World → policy_call → list helper_call)
    (calls : list event) : M unit :=
  for_each (exec (channel := example_channel) (map_clear := libstdcxx_clear)
              child_policy) calls.

(** *** JSON values *)

Local Set Warnings "-register-all".
(** JSON values for the examples.  [object_value] of a value that is not an
    object is taken to be empty. *)
Inductive JsonValue : Type :=
  | JNull
  | JBool (b : bool)
  | JNumber (n : string)
  | JString (s : string)
  | JObject (o : gmap string JsonValue)
  | JArray (a : list JsonValue).

Global Instance JsonValue_ops : JsonOps JsonValue := {|
  Json_type j :=
    match j with
    | JNull => JSON_NULL
    | JBool true => JSON_TRUE
    | JBool false => JSON_FALSE
    | JNumber _ => NUMBER
    | JString _ => STRING
    | JObject _ => OBJECT
    | JArray _ => ARRAY
    end;
  object_value j := match j with JObject o => o | _ => ∅ end
|}.

(** A registry that knows the policy [round_robin] only: the child policy
    must be the array with the single member [{"round_robin": {}}]. *)
Definition example_registry (j : JsonValue) : Status + LbConfig :=
  match j with
  | JArray [JObject o] =>
      match o !! "round_robin" with
      | Some _ => inr "round_robin"
      | None => inl (InvalidArgumentError "No known policies in list")
      end
  | _ => inl (InvalidArgumentError "type should be array")
  end.

Definition round_robin_child : JsonValue :=
  JObject {[ "childPolicy" := JArray [JObject {[ "round_robin" := JObject ∅ ]}] ]}.

Definition json_AB : JsonValue :=
  JObject {[ "children" :=
    JObject {[ "A" := round_robin_child; "B" := round_robin_child ]} ]}.

(** Three members of which one is valid: an empty name, and a child whose
    policy the registry does not know. *)
Definition json_bad : JsonValue :=
  JObject {[ "children" :=
    JObject {[ EmptyString := round_robin_child;
               "A" := round_robin_child;
               "B" := JObject {[ "childPolicy" :=
                         JArray [JObject {[ "pick_last" := JObject ∅ ]}] ]} ]} ]}.

(** * Proofs *)

Local Open Scope list_scope.

Ltac unfold_monad :=
  unfold update_child, emit, modify_lb, deref, modify, gets, load, store,
    abort, ret, bind in *.

(** * Iteration order *)

Lemma elem_of_entries {V} (m : gmap string V) (k : string) (v : V) :
  (k, v) ∈ entries m ↔ m !! k = Some v.
Proof.
  unfold entries. rewrite merge_sort_Permutation. apply elem_of_map_to_list.
Qed.

Lemma elem_of_entries_fst {V} (m : gmap string V) (k : string) :
  k ∈ (entries m).*1 ↔ is_Some (m !! k).
Proof.
  rewrite list_elem_of_fmap. split.
  - intros [[k' v] [-> Hin]]. apply elem_of_entries in Hin. eauto.
  - intros [v Hv]. exists (k, v). split; [done|]. by apply elem_of_entries.
Qed.

(** The order in which [children_] is cleared lists the entries of
    [children_], each once. *)
Lemma elem_of_clear_order {map_clear : MapClear} (w : World)
    (k : string) (v : child_ptr) :
  (k, v) ∈ clear_order w ↔ XdsClusterManagerLb.children_ (lb w) !! k = Some v.
Proof. rewrite clear_order_Permutation. apply elem_of_map_to_list. Qed.

Lemma elem_of_clear_order_fst {map_clear : MapClear} (w : World) (k : string) :
  k ∈ (clear_order w).*1 ↔ is_Some (XdsClusterManagerLb.children_ (lb w) !! k).
Proof.
  rewrite list_elem_of_fmap. split.
  - intros [[k' v] [-> Hin]]. apply elem_of_clear_order in Hin. eauto.
  - intros [v Hv]. exists (k, v). split; [done|]. by apply elem_of_clear_order.
Qed.

Lemma NoDup_clear_order {map_clear : MapClear} (w : World) :
  NoDup (clear_order w).*1.
Proof. rewrite clear_order_Permutation. apply NoDup_fst_map_to_list. Qed.

Lemma clear_order_empty {map_clear : MapClear} (w : World) :
  XdsClusterManagerLb.children_ (lb w) = ∅ → clear_order w = [].
Proof.
  intros Hch. apply Permutation_nil_r.
  by rewrite clear_order_Permutation, Hch, map_to_list_empty.
Qed.

Lemma clear_order_entries {map_clear : MapClear} (w : World) :
  clear_order w ≡ₚ entries (XdsClusterManagerLb.children_ (lb w)).
Proof. unfold entries. by rewrite clear_order_Permutation, merge_sort_Permutation. Qed.

(** * UpdateStateLocked: the counting loop *)

Lemma count_child_Done n p w n' w' :
  count_child n p w = Done n' w' →
  w' = w ∧
  ∃ cfg, XdsClusterManagerLb.config_ (lb w) = Some cfg ∧
    (cfg !! p.1 = None ∧ n' = n ∨
     is_Some (cfg !! p.1) ∧
     ∃ c, heap w !! p.2 = Some c ∧
          ClusterChild.connectivity_state_ c ≠ GRPC_CHANNEL_SHUTDOWN ∧
          ∀ s, tally s n' =
               (tally s n + if decide (s = ClusterChild.connectivity_state_ c)
                            then 1 else 0)).
Proof.
  unfold count_child. unfold_monad.
  destruct (XdsClusterManagerLb.config_ (lb w)) as [cfg|] eqn:Hc; [|done].
  simpl. destruct (cfg !! p.1) as [v|] eqn:Hn.
  - destruct (heap w !! p.2) as [c|] eqn:Hh; [|done].
    intros H. assert (w' = w) as ->.
    { destruct (ClusterChild.connectivity_state_ c); by inversion H. }
    split; [done|]. exists cfg. split; [done|]. right. split; [eauto|].
    exists c. split; [done|].
    destruct (ClusterChild.connectivity_state_ c) eqn:Hs; inversion H; subst;
      (split; [done|]); intros []; simpl; lia.
  - intros [= <- <-]. split; [done|]. exists cfg. split; [done|]. by left.
Qed.

Lemma count_fold_Done l : ∀ n w n' w',
  foldM count_child n l w = Done n' w' →
  w' = w ∧
  (∀ p, p ∈ l → ∃ cfg, XdsClusterManagerLb.config_ (lb w) = Some cfg ∧
     (is_Some (cfg !! p.1) →
      ∃ c, heap w !! p.2 = Some c ∧
           ClusterChild.connectivity_state_ c ≠ GRPC_CHANNEL_SHUTDOWN)) ∧
  ∀ s, (0 < tally s n') ↔
       (0 < tally s n) ∨
       ∃ p c cfg, p ∈ l ∧ XdsClusterManagerLb.config_ (lb w) = Some cfg ∧
                  is_Some (cfg !! p.1) ∧ heap w !! p.2 = Some c ∧
                  ClusterChild.connectivity_state_ c = s.
Proof.
  induction l as [|p l IH]; intros n w n' w'; simpl.
  - unfold ret. intros [= <- <-]. split; [done|]. split.
    + intros p Hp. by apply elem_of_nil in Hp.
    + intros s. split; [auto|]. intros [?|(p & ? & ? & Hp & _)]; [done|].
      by apply elem_of_nil in Hp.
  - unfold bind at 1. destruct (count_child n p w) as [n1 w1|] eqn:Hstep; [|done].
    apply count_child_Done in Hstep as (-> & cfg & Hcfg & Hcase).
    intros Hrest. apply IH in Hrest as (-> & Hall & Htally).
    split; [done|]. split.
    + intros q Hq. apply elem_of_cons in Hq as [->|Hq]; [|by apply Hall].
      exists cfg. split; [done|]. intros Hsome.
      destruct Hcase as [[Hnone _]|(_ & c & Hc & Hns & _)].
      * rewrite Hnone in Hsome. by destruct Hsome.
      * eauto.
    + intros s. rewrite Htally. split.
      * intros [Hpos|(q & c & cfg' & Hq & ?)].
        -- destruct Hcase as [[_ ->]|(Hin & c & Hc & _ & Hinc)]; [by left|].
           rewrite Hinc in Hpos. case_decide as Hs.
           ++ right. exists p, c, cfg. rewrite elem_of_cons. subst s. eauto 10.
           ++ left. lia.
        -- right. exists q, c, cfg'. rewrite elem_of_cons. tauto.
      * intros [Hpos|(q & c & cfg' & Hq & Hcfg' & Hin & Hc & Hs)].
        -- left. destruct Hcase as [[_ ->]|(_ & c & _ & _ & Hinc)]; [done|].
           rewrite Hinc. lia.
        -- apply elem_of_cons in Hq as [->|Hq].
           ++ left. destruct Hcase as [[Hnone _]|(_ & c0 & Hc0 & _ & Hinc)].
              ** rewrite Hcfg' in Hcfg. injection Hcfg as ->.
                 rewrite Hnone in Hin. by destruct Hin.
              ** rewrite Hinc. rewrite Hc0 in Hc. injection Hc as ->.
                 rewrite decide_True by done. lia.
           ++ right. exists q, c, cfg'. eauto 10.
Qed.

Lemma count_fold_total l : ∀ n w cfg,
  XdsClusterManagerLb.config_ (lb w) = Some cfg →
  (∀ p, p ∈ l → is_Some (cfg !! p.1) →
     ∃ c, heap w !! p.2 = Some c ∧
          ClusterChild.connectivity_state_ c ≠ GRPC_CHANNEL_SHUTDOWN) →
  ∃ n', foldM count_child n l w = Done n' w.
Proof.
  induction l as [|p l IH]; intros n w cfg Hcfg Hall; simpl.
  - by exists n.
  - assert (∃ n1, count_child n p w = Done n1 w) as [n1 Hn1].
    { unfold count_child. unfold_monad. rewrite Hcfg. simpl.
      destruct (cfg !! p.1) as [v|] eqn:Hn; [|eauto].
      destruct (Hall p) as (c & -> & Hns); [apply elem_of_cons; by left|eauto|].
      destruct (ClusterChild.connectivity_state_ c); eauto. done. }
    unfold bind at 1. rewrite Hn1. apply (IH n1 w cfg Hcfg).
    intros q Hq. apply Hall. apply elem_of_cons. by right.
Qed.

(** * UpdateStateLocked: the picker map loop *)

Lemma add_cluster_picker_Some cm p w e :
  picker_entry w p.1 = Some e →
  add_cluster_picker cm p w = Done (<[p.1 := e]> cm) w.
Proof.
  unfold picker_entry, add_cluster_picker. unfold_monad.
  destruct (XdsClusterManagerLb.children_ (lb w) !! p.1) as [ptr|]; [|done].
  simpl. destruct (heap w !! ptr) as [c|]; [|done].
  intros [= <-]. by destruct (ClusterChild.picker_wrapper_ c).
Qed.

Lemma add_cluster_picker_None cm p w :
  picker_entry w p.1 = None → ∃ f, add_cluster_picker cm p w = Abort f.
Proof.
  unfold picker_entry, add_cluster_picker. unfold_monad.
  destruct (XdsClusterManagerLb.children_ (lb w) !! p.1) as [ptr|]; [|eauto].
  simpl. destruct (heap w !! ptr) as [c|]; [done|eauto].
Qed.

Lemma picker_fold_Done l : ∀ cm w cm' w',
  foldM add_cluster_picker cm l w = Done cm' w' →
  w' = w ∧
  (∀ p, p ∈ l → is_Some (picker_entry w p.1)) ∧
  ∀ name, cm' !! name =
          if decide (name ∈ l.*1) then picker_entry w name else cm !! name.
Proof.
  induction l as [|p l IH]; intros cm w cm' w'; cbn [foldM].
  - unfold ret. intros [= <- <-]. split; [done|]. split.
    + intros p Hp. by apply elem_of_nil in Hp.
    + intros name. case_decide as H; [by apply elem_of_nil in H|done].
  - unfold bind at 1. destruct (picker_entry w p.1) as [e|] eqn:He.
    + rewrite (add_cluster_picker_Some _ _ _ _ He).
      intros Hrest. apply IH in Hrest as (-> & Hall & Hmap).
      split; [done|]. split.
      * intros q Hq. apply elem_of_cons in Hq as [->|Hq]; [eauto|by apply Hall].
      * intros name. rewrite Hmap, fmap_cons.
        destruct (decide (name = p.1)) as [->|Hne].
        -- rewrite (decide_True (P := p.1 ∈ p.1 :: l.*1)); [|apply elem_of_cons; by left].
           case_decide; [done|]. by rewrite lookup_insert_eq.
        -- rewrite lookup_insert_ne by done.
           repeat case_decide; try done; rewrite elem_of_cons in *; tauto.
    + destruct (add_cluster_picker_None cm p w He) as [f ->]. done.
Qed.

Lemma picker_fold_total l : ∀ cm w,
  (∀ p, p ∈ l → is_Some (picker_entry w p.1)) →
  ∃ cm', foldM add_cluster_picker cm l w = Done cm' w.
Proof.
  induction l as [|p l IH]; intros cm w Hall; simpl.
  - by exists cm.
  - destruct (Hall p) as [e He]; [apply elem_of_cons; by left|].
    unfold bind at 1. rewrite (add_cluster_picker_Some _ _ _ _ He).
    apply IH. intros q Hq. apply Hall. apply elem_of_cons. by right.
Qed.

(** * UpdateStateLocked *)

Lemma UpdateStateLocked_suppressed w :
  XdsClusterManagerLb.update_in_progress_ (lb w) = true →
  UpdateStateLocked w = Done tt w.
Proof. intros H. unfold UpdateStateLocked. unfold_monad. by rewrite H. Qed.

Lemma configured_child_entry w name c :
  configured_child w name c →
  picker_entry w name =
    Some (default (ChildPickerWrapper.mk name QueuePicker)
                  (ClusterChild.picker_wrapper_ c)).
Proof.
  intros (cfg & ptr & _ & _ & Hch & Hh). unfold picker_entry.
  by rewrite Hch, Hh.
Qed.

Lemma tally_any_configured w n :
  (∀ s, (0 < tally s n) ↔
        (0 < tally s (mkCounts 0 0 0 0)) ∨
        ∃ p c cfg, p ∈ entries (XdsClusterManagerLb.children_ (lb w)) ∧
                   XdsClusterManagerLb.config_ (lb w) = Some cfg ∧
                   is_Some (cfg !! p.1) ∧ heap w !! p.2 = Some c ∧
                   ClusterChild.connectivity_state_ c = s) →
  ∀ s, (0 < tally s n) ↔ any_configured_child w s.
Proof.
  intros H s. rewrite H. split.
  - intros [Hpos|([name ptr] & c & cfg & Hp & Hcfg & Hin & Hc & Hs)].
    + destruct s; simpl in Hpos; lia.
    + apply elem_of_entries in Hp. exists name, c. split; [|done].
      exists cfg, ptr. eauto.
  - intros (name & c & (cfg & ptr & Hcfg & Hin & Hch & Hh) & Hs).
    right. exists (name, ptr), c, cfg. rewrite elem_of_entries. eauto 10.
Qed.

(** What a recomputation publishes, whenever it returns with no update in
    progress. *)
Lemma UpdateStateLocked_Done w w' :
  XdsClusterManagerLb.update_in_progress_ (lb w) = false →
  UpdateStateLocked w = Done tt w' →
  ∃ cfg n cm,
    XdsClusterManagerLb.config_ (lb w) = Some cfg ∧
    w' = set_trace (trace w ++ [ChannelUpdateState (aggregated_state n)
                                  (aggregated_status (aggregated_state n)) cm]) w ∧
    (∀ s, (0 < tally s n) ↔ any_configured_child w s) ∧
    (∀ name c, configured_child w name c →
               ClusterChild.connectivity_state_ c ≠ GRPC_CHANNEL_SHUTDOWN) ∧
    (∀ name, is_Some (cfg !! name) → is_Some (picker_entry w name)) ∧
    (∀ name, cm !! name =
             if decide (is_Some (cfg !! name)) then picker_entry w name else None).
Proof.
  intros Hflag. unfold UpdateStateLocked. unfold bind at 1. unfold gets at 1.
  rewrite Hflag. unfold bind at 1. unfold gets at 1.
  unfold bind at 1.
  destruct (foldM count_child _ _ w) as [n w1|] eqn:Hcount; [|done].
  apply count_fold_Done in Hcount as (-> & Hall & Htally).
  unfold bind at 1. unfold bind at 1. unfold gets at 1.
  destruct (XdsClusterManagerLb.config_ (lb w)) as [cfg|] eqn:Hcfg; [|done].
  simpl. unfold bind at 1.
  destruct (foldM add_cluster_picker _ _ w) as [cm w1|] eqn:Hmap; [|done].
  apply picker_fold_Done in Hmap as (-> & Hent & Hcm).
  unfold emit, modify. intros [= <-].
  exists cfg, n, cm. split; [done|]. split; [done|]. split.
  { apply tally_any_configured. intros s. rewrite Htally.
    by setoid_rewrite Hcfg. }
  split.
  { intros name c (cfg' & ptr & Hcfg' & Hin & Hch & Hh).
    destruct (Hall (name, ptr)) as (cfg'' & Hcfg'' & Hok).
    { by apply elem_of_entries. }
    injection Hcfg'' as <-. rewrite Hcfg in Hcfg'. injection Hcfg' as <-.
    destruct (Hok Hin) as (c' & Hc' & Hns). simpl in Hc'.
    rewrite Hh in Hc'. by injection Hc' as <-. }
  split.
  { intros name [v Hv]. apply (Hent (name, v)). by apply elem_of_entries. }
  intros name. rewrite Hcm, lookup_empty.
  destruct (decide (name ∈ (entries cfg).*1)) as [Hin|Hout];
    rewrite elem_of_entries_fst in *.
  - by rewrite decide_True.
  - by rewrite decide_False.
Qed.

Lemma recomputable_entry w name cfg :
  recomputable w → XdsClusterManagerLb.config_ (lb w) = Some cfg →
  is_Some (cfg !! name) → is_Some (picker_entry w name).
Proof.
  intros (_ & cfg' & Hcfg' & Hall) Hcfg Hin.
  rewrite Hcfg in Hcfg'. injection Hcfg' as <-.
  destruct (Hall name Hin) as (c & Hc & _).
  rewrite (configured_child_entry _ _ _ Hc). eauto.
Qed.

Lemma UpdateStateLocked_total w :
  recomputable w → ∃ w', UpdateStateLocked w = Done tt w'.
Proof.
  intros Hr. pose proof Hr as (Hflag & cfg & Hcfg & Hall).
  unfold UpdateStateLocked. unfold bind at 1. unfold gets at 1.
  rewrite Hflag. unfold bind at 1. unfold gets at 1.
  destruct (count_fold_total (entries (XdsClusterManagerLb.children_ (lb w)))
              (mkCounts 0 0 0 0) w cfg Hcfg) as [n Hn].
  { intros [name ptr] Hp Hin. apply elem_of_entries in Hp. simpl in *.
    destruct (Hall name Hin) as (c & (cfg' & ptr' & _ & _ & Hch & Hh) & Hns).
    rewrite Hp in Hch. injection Hch as <-. eauto. }
  unfold bind at 1. rewrite Hn.
  unfold bind at 1. unfold bind at 1. unfold gets at 1. rewrite Hcfg. simpl.
  destruct (picker_fold_total (entries cfg) ∅ w) as [cm Hcm].
  { intros [name v] Hp. apply elem_of_entries in Hp. simpl.
    eapply recomputable_entry; eauto. }
  unfold bind at 1. rewrite Hcm. unfold emit, modify. eauto.
Qed.

(** * Helper calls *)

Lemma absorb_lifecycle c hs :
  ClusterChild.name_ (foldl absorb c hs) = ClusterChild.name_ c ∧
  ClusterChild.child_policy_ (foldl absorb c hs) = ClusterChild.child_policy_ c ∧
  ClusterChild.delayed_removal_timer_callback_pending_ (foldl absorb c hs)
    = ClusterChild.delayed_removal_timer_callback_pending_ c ∧
  ClusterChild.shutdown_ (foldl absorb c hs) = ClusterChild.shutdown_ c.
Proof.
  revert c. induction hs as [|h hs IH]; intros c; simpl; [done|].
  destruct (IH (absorb c h)) as (-> & -> & -> & ->).
  destruct h; simpl; try done.
  unfold latch_state, cache_picker. by case_match.
Qed.

Lemma absorb_state (P : grpc_connectivity_state → Prop) c hs :
  P (ClusterChild.connectivity_state_ c) →
  (∀ st status pk, HelperUpdateState st status pk ∈ hs → P st) →
  P (ClusterChild.connectivity_state_ (foldl absorb c hs)).
Proof.
  revert c. induction hs as [|h hs IH]; intros c Hc Hall; simpl; [done|].
  apply IH.
  - destruct h; simpl; try done.
    unfold latch_state, cache_picker. case_match; simpl; [|done].
    eapply Hall. apply elem_of_cons. by left.
  - intros st status pk Hin. eapply Hall. apply elem_of_cons. by right.
Qed.

Lemma Helper_call_shut {channel : ChannelControlHelper} child h w :
  XdsClusterManagerLb.shutting_down_ (lb w) = true →
  Helper_call child h w = Done tt w.
Proof.
  intros Hsd. destruct h; simpl;
    unfold Helper_UpdateState, Helper_CreateSubchannel,
      Helper_RequestReresolution, Helper_AddTraceEvent;
    unfold_monad; by rewrite Hsd.
Qed.

Lemma Helper_call_propagating {channel : ChannelControlHelper} child h w c :
  XdsClusterManagerLb.shutting_down_ (lb w) = false →
  XdsClusterManagerLb.update_in_progress_ (lb w) = true →
  heap w !! child = Some c →
  Helper_call child h w =
    Done tt (mkWorld (lb w) (<[child := absorb c h]> (heap w)) (next_policy w)
               (now w) (trace w ++ option_list (forwarded h))).
Proof.
  intros Hsd Hflag Hc. destruct w as [l hp np t tr]. simpl in *.
  destruct h; simpl;
    unfold Helper_UpdateState, Helper_CreateSubchannel,
      Helper_RequestReresolution, Helper_AddTraceEvent, UpdateStateLocked;
    unfold_monad; simpl; rewrite Hsd; simpl.
  - rewrite Hc. simpl. rewrite lookup_insert_eq. simpl. rewrite Hflag.
    unfold set_heap. simpl. by rewrite insert_insert_eq, app_nil_r.
  - unfold set_trace. simpl. by rewrite insert_id.
  - unfold set_trace. simpl. by rewrite insert_id.
  - unfold set_trace. simpl. by rewrite insert_id.
Qed.

Lemma Helper_calls_propagating {channel : ChannelControlHelper} child hs : ∀ w c,
  XdsClusterManagerLb.shutting_down_ (lb w) = false →
  XdsClusterManagerLb.update_in_progress_ (lb w) = true →
  heap w !! child = Some c →
  for_each (Helper_call child) hs w =
    Done tt (mkWorld (lb w) (<[child := foldl absorb c hs]> (heap w))
               (next_policy w) (now w) (trace w ++ omap forwarded hs)).
Proof.
  induction hs as [|h hs IH]; intros w c Hsd Hflag Hc; simpl.
  - unfold ret. destruct w; simpl in *. by rewrite insert_id, app_nil_r.
  - unfold bind. rewrite (Helper_call_propagating _ _ _ _ Hsd Hflag Hc).
    rewrite (IH _ (absorb c h)); simpl; [|done|done|by rewrite lookup_insert_eq].
    rewrite insert_insert_eq. do 2 f_equal. rewrite <- app_assoc. f_equal.
    by destruct (forwarded h).
Qed.

Lemma publications_app t1 t2 :
  publications (t1 ++ t2) = (publications t1 ++ publications t2)%list.
Proof. unfold publications. apply omap_app. Qed.

Lemma publications_forwarded hs : publications (omap forwarded hs) = [].
Proof.
  induction hs as [|h hs IH]; [done|]. destruct h; simpl; done.
Qed.

(** * ClusterChild::UpdateLocked while an update is propagated *)

Lemma ClusterChild_UpdateLocked_propagating {channel : ChannelControlHelper}
    child_policy child cfgv addrs a w c :
  XdsClusterManagerLb.shutting_down_ (lb w) = false →
  XdsClusterManagerLb.update_in_progress_ (lb w) = true →
  heap w !! child = Some c →
  ∃ hs w1,
    hs = child_policy w1 (CallUpdate (default (next_policy w) (ClusterChild.child_policy_ c))
                            cfgv addrs a) ∧
    ClusterChild_UpdateLocked child_policy child cfgv addrs a w =
      Done tt
        (mkWorld (lb w)
           (<[child := foldl absorb
                (ClusterChild.set_child_policy_
                   (Some (default (next_policy w) (ClusterChild.child_policy_ c)))
                   (ClusterChild.set_delayed_removal_timer_callback_pending_ false c))
                hs]> (heap w))
           (match ClusterChild.child_policy_ c with
            | Some _ => next_policy w | None => S (next_policy w) end)
           (now w)
           (trace w ++ reactivation_effects child c (next_policy w)
              ++ [ChildPolicyCall
                    (CallUpdate (default (next_policy w) (ClusterChild.child_policy_ c))
                       cfgv addrs a)]
              ++ omap forwarded hs)).
Proof.
  intros Hsd Hflag Hc. destruct w as [l hp np t tr]. simpl in *.
  destruct c as [nm pol pw st pend sh]. simpl.
  unfold ClusterChild_UpdateLocked, call_child_policy, CreateChildPolicyLocked,
    reactivation_effects.
  unfold bind at 1. unfold gets at 1. simpl. rewrite Hsd.
  unfold bind at 1. unfold load at 1. simpl. rewrite Hc.
  destruct pend, pol as [pid|]; simpl; unfold_monad; simpl;
    rewrite ?lookup_insert_eq, ?Hc; simpl;
    (match goal with
     | |- context [for_each _ (child_policy ?w1 ?call) ?w2] =>
         exists (child_policy w1 call), w1; split; [reflexivity|];
         erewrite (Helper_calls_propagating _ _ w2); simpl;
           [|done|done|by rewrite ?lookup_insert_eq]
     end);
    rewrite ?insert_insert_eq; do 2 f_equal;
    rewrite <- ?app_assoc; simpl; done.
Qed.

Lemma bind_Done {A B} (m : M A) (k : A → M B) w a w1 :
  m w = Done a w1 → bind m k w = k a w1.
Proof. unfold bind. by intros ->. Qed.

(** * Loops with an invariant *)

Lemma for_each_invariant {A} (I : list A → World → Prop) (f : A → M unit) (l : list A) :
  (∀ seen x w, x ∈ l → I seen w → ∃ w', f x w = Done tt w' ∧ I (seen ++ [x]) w') →
  ∀ seen w, I seen w → ∃ w', for_each f l w = Done tt w' ∧ I (seen ++ l) w'.
Proof.
  induction l as [|x l IH]; intros Hstep seen w HI; simpl.
  - exists w. by rewrite app_nil_r.
  - destruct (Hstep seen x w) as (w1 & Hx & HI1); [apply elem_of_cons; by left|done|].
    rewrite (bind_Done _ _ _ _ _ Hx).
    destruct (IH (λ seen' y w0 Hy, Hstep seen' y w0 (proj2 (elem_of_cons _ _ _) (or_intror Hy)))
                (seen ++ [x]) w1 HI1) as (w' & Hw' & HI').
    exists w'. split; [done|]. by rewrite <- app_assoc in HI'.
Qed.

(** * The representation invariant *)

Lemma wf_store w w' ptr c c' :
  wf w → heap w !! ptr = Some c →
  XdsClusterManagerLb.children_ (lb w') = XdsClusterManagerLb.children_ (lb w) →
  heap w' = <[ptr := c']> (heap w) →
  ClusterChild.name_ c' = ClusterChild.name_ c →
  (is_Some (ClusterChild.child_policy_ c) → is_Some (ClusterChild.child_policy_ c')) →
  ClusterChild.shutdown_ c' = ClusterChild.shutdown_ c →
  (ClusterChild.connectivity_state_ c ≠ GRPC_CHANNEL_SHUTDOWN →
   ClusterChild.connectivity_state_ c' ≠ GRPC_CHANNEL_SHUTDOWN) →
  wf w'.
Proof.
  intros Hwf Hc Hch Hheap Hname Hpol Hsh Hst name q Hq.
  rewrite Hch in Hq. destruct (Hwf name q Hq) as (d & Hd & Hdn & Hdp & Hds & Hdst).
  unfold child_ok. rewrite Hheap.
  destruct (decide (q = ptr)) as [->|Hne].
  - rewrite lookup_insert_eq. rewrite Hc in Hd. injection Hd as <-.
    exists c'. rewrite Hname, Hsh. eauto 10.
  - rewrite lookup_insert_ne by done. exists d. eauto 10.
Qed.

Lemma wf_same_store w w' :
  wf w → XdsClusterManagerLb.children_ (lb w') = XdsClusterManagerLb.children_ (lb w) →
  heap w' = heap w → wf w'.
Proof.
  intros Hwf Hch Hheap name q Hq. rewrite Hch in Hq.
  unfold child_ok. rewrite Hheap. by apply Hwf.
Qed.

Lemma wf_initial t : wf (initial_world t).
Proof. intros name ptr H. simpl in H. by rewrite lookup_empty in H. Qed.

(** * ClusterChild::DeactivateLocked *)

Lemma ClusterChild_DeactivateLocked_eq child w c :
  heap w !! child = Some c →
  ClusterChild_DeactivateLocked child w =
    Done tt
      (if ClusterChild.delayed_removal_timer_callback_pending_ c then w
       else mkWorld (lb w)
              (<[child := ClusterChild.set_delayed_removal_timer_callback_pending_ true c]>
                 (heap w))
              (next_policy w) (now w)
              (trace w ++ [TimerInit child
                             (now w + GRPC_XDS_CLUSTER_MANAGER_CHILD_RETENTION_INTERVAL_MS)%Z])).
Proof.
  intros Hc. unfold ClusterChild_DeactivateLocked. unfold_monad. rewrite Hc.
  by destruct (ClusterChild.delayed_removal_timer_callback_pending_ c).
Qed.

Lemma creations_app t1 t2 : creations (t1 ++ t2) = creations t1 ++ creations t2.
Proof. unfold creations. apply omap_app. Qed.

Lemma creations_forwarded hs : creations (omap forwarded hs) = [].
Proof. induction hs as [|h hs IH]; [done|]. destruct h; simpl; done. Qed.

Lemma creations_reactivation child c np :
  creations (reactivation_effects child c np) =
    match ClusterChild.child_policy_ c with
    | Some _ => []
    | None => [(child, np)]
    end.
Proof.
  unfold reactivation_effects.
  by destruct (ClusterChild.delayed_removal_timer_callback_pending_ c),
    (ClusterChild.child_policy_ c).
Qed.

Lemma grown_refl w : grown w w.
Proof.
  split; [done|]. exists []. rewrite app_nil_r. split; [done|]. split; [done|].
  split; [constructor|]. intros q Hq. by apply elem_of_nil in Hq.
Qed.

(** One more step of the propagation: it instantiates no child policy, or
    one for a record that it has just allocated. *)
Lemma grown_extend w0 w w' new' :
  grown w0 w →
  dom (heap w) ⊆ dom (heap w') →
  trace w' = trace w ++ new' →
  publications new' = [] →
  creations new' = [] ∨
    (∃ q np, creations new' = [(q, np)] ∧ (q ∉ dom (heap w)) ∧ (q ∈ dom (heap w'))) →
  grown w0 w'.
Proof.
  intros (Hdom & new & Ht & Hp & Hnd & Hq) Hdom' Ht' Hp' Hc'.
  split; [set_solver|]. exists (new ++ new').
  split; [by rewrite Ht', Ht, app_assoc|].
  split; [by rewrite publications_app, Hp, Hp'|].
  rewrite creations_app, fmap_app.
  destruct Hc' as [->|(q & np & -> & Hfresh & Hin)]; simpl.
  - rewrite app_nil_r. split; [done|]. intros q Hin.
    destruct (Hq q Hin). set_solver.
  - split.
    + apply NoDup_app. split; [done|]. split; [|apply NoDup_singleton].
      intros q' Hq' Hq''. apply list_elem_of_singleton in Hq'' as ->.
      destruct (Hq q Hq'). set_solver.
    + intros q' Hq'. apply elem_of_app in Hq' as [Hq'|Hq'].
      * destruct (Hq q' Hq'). set_solver.
      * apply list_elem_of_singleton in Hq' as ->. set_solver.
Qed.

Lemma publications_reactivation child c np :
  publications (reactivation_effects child c np) = [].
Proof.
  unfold reactivation_effects.
  by destruct (ClusterChild.delayed_removal_timer_callback_pending_ c),
    (ClusterChild.child_policy_ c).
Qed.

(** * XdsClusterManagerLb::UpdateLocked *)

Section UpdateLocked.

Context {channel : ChannelControlHelper} {map_clear : MapClear}.

Variable child_policy : World → policy_call → list helper_call.
Hypothesis sane : never_reports_shutdown child_policy.

Lemma deactivate_if_absent_step cfg w0 ch0 p w :
  p ∈ entries ch0 →
  propagating cfg w0 w ∧ XdsClusterManagerLb.children_ (lb w) = ch0 →
  ∃ w', deactivate_if_absent p w = Done tt w' ∧
        propagating cfg w0 w' ∧ XdsClusterManagerLb.children_ (lb w') = ch0.
Proof.
  intros Hp [Hprop Hch]. pose proof Hprop as (Hsd & Hflag & Hcfg & Hwf & Hgrown).
  destruct p as [name ptr]. apply elem_of_entries in Hp.
  unfold deactivate_if_absent. unfold bind at 1. unfold bind at 1.
  unfold gets at 1. rewrite Hcfg. simpl.
  destruct (cfg !! name); [by exists w|].
  rewrite <- Hch in Hp. destruct (Hwf name ptr Hp) as (c & Hc & ?).
  rewrite (ClusterChild_DeactivateLocked_eq _ _ _ Hc).
  destruct (ClusterChild.delayed_removal_timer_callback_pending_ c) eqn:Hpend;
    [by exists w|].
  eexists. split; [reflexivity|]. split; [|done].
  unfold propagating. cbn [lb heap trace].
  split; [done|]. split; [done|]. split; [done|]. split.
  - eapply (wf_store w _ ptr c); eauto.
  - eapply (grown_extend w0 w); [done| |reflexivity|done|by left].
    cbn [heap]. rewrite dom_insert_L. set_solver.
Qed.

Lemma ClusterChild_UpdateLocked_step child cfgv addrs a w c :
  XdsClusterManagerLb.shutting_down_ (lb w) = false →
  XdsClusterManagerLb.update_in_progress_ (lb w) = true →
  heap w !! child = Some c →
  ClusterChild.shutdown_ c = false →
  ClusterChild.connectivity_state_ c ≠ GRPC_CHANNEL_SHUTDOWN →
  ∃ w' c' new,
    ClusterChild_UpdateLocked child_policy child cfgv addrs a w = Done tt w' ∧
    lb w' = lb w ∧ heap w' = <[child := c']> (heap w) ∧
    trace w' = trace w ++ new ∧
    publications new = [] ∧
    creations new = match ClusterChild.child_policy_ c with
                    | Some _ => []
                    | None => [(child, next_policy w)]
                    end ∧
    ClusterChild.name_ c' = ClusterChild.name_ c ∧
    is_Some (ClusterChild.child_policy_ c') ∧
    ClusterChild.shutdown_ c' = false ∧
    ClusterChild.connectivity_state_ c' ≠ GRPC_CHANNEL_SHUTDOWN.
Proof.
  intros Hsd Hflag Hc Hsh Hst.
  destruct (ClusterChild_UpdateLocked_propagating child_policy child cfgv addrs a
              w c Hsd Hflag Hc) as (hs & w1 & Hhs & ->).
  eexists _, _, _. split; [reflexivity|]. cbn [lb heap trace].
  split; [done|]. split; [done|]. split; [done|]. split.
  { rewrite !publications_app, publications_reactivation, publications_forwarded.
    by rewrite !app_nil_r. }
  split.
  { rewrite !creations_app, creations_reactivation, creations_forwarded.
    by rewrite !app_nil_r. }
  destruct (absorb_lifecycle
              (ClusterChild.set_child_policy_
                 (Some (default (next_policy w) (ClusterChild.child_policy_ c)))
                 (ClusterChild.set_delayed_removal_timer_callback_pending_ false c)) hs)
    as (-> & -> & _ & ->).
  simpl. repeat split; eauto.
  apply absorb_state; [done|]. intros st status pk Hin. subst hs. by eapply sane.
Qed.

Lemma add_or_update_step cfg w0 ch0 addrs a seen p w :
  propagating cfg w0 w ∧
  ch0 ⊆ XdsClusterManagerLb.children_ (lb w) ∧
  (∀ q, q ∈ seen → is_Some (XdsClusterManagerLb.children_ (lb w) !! q.1)) →
  ∃ w', add_or_update child_policy addrs a p w = Done tt w' ∧
        propagating cfg w0 w' ∧
        ch0 ⊆ XdsClusterManagerLb.children_ (lb w') ∧
        (∀ q, q ∈ seen ++ [p] → is_Some (XdsClusterManagerLb.children_ (lb w') !! q.1)).
Proof.
  intros (Hprop & Hsub & Hseen).
  pose proof Hprop as (Hsd & Hflag & Hcfg & Hwf & Hgrown).
  destruct p as [name cfgv]. unfold add_or_update. simpl.
  unfold bind at 1. unfold gets at 1.
  destruct (XdsClusterManagerLb.children_ (lb w) !! name) as [ptr|] eqn:Hname.
  - unfold bind at 1. unfold ret at 1.
    destruct (Hwf name ptr Hname) as (c & Hc & Hcn & [pid Hpid] & Hcs & Hcst).
    destruct (ClusterChild_UpdateLocked_step ptr cfgv addrs a w c
                Hsd Hflag Hc Hcs Hcst)
      as (w' & c' & new & -> & Hlb & Hheap & Htrace & Hpubs & Hcre &
          Hn' & Hp' & Hs' & Hst').
    rewrite Hpid in Hcre.
    exists w'. split; [done|]. rewrite Hlb. split; [|split; [done|]].
    + unfold propagating. rewrite Hlb.
      split; [done|]. split; [done|]. split; [done|]. split.
      * eapply (wf_store w w' ptr c c'); eauto; by rewrite ?Hlb, ?Hs'.
      * eapply (grown_extend w0 w); [done| |exact Htrace|done|by left].
        rewrite Hheap, dom_insert_L. set_solver.
    + intros q Hq. apply elem_of_app in Hq as [Hq|Hq]; [by apply Hseen|].
      apply list_elem_of_singleton in Hq as ->. simpl. by rewrite Hname.
  - set (ptr := fresh (dom (heap w))).
    assert (ptr ∉ dom (heap w)) as Hfresh by apply is_fresh.
    set (w1 := mkWorld
                 (XdsClusterManagerLb.set_children_
                    (<[name := ptr]> (XdsClusterManagerLb.children_ (lb w))) (lb w))
                 (<[ptr := ClusterChild.new name]> (heap w))
                 (next_policy w) (now w) (trace w)).
    destruct (ClusterChild_UpdateLocked_step ptr cfgv addrs a w1
                (ClusterChild.new name))
      as (w' & c' & new & Hrun & Hlb & Hheap & Htrace & Hpubs & Hcre &
          Hn' & Hp' & Hs' & Hst');
      [done|done|by apply lookup_insert_eq|done|done|].
    unfold bind at 1. unfold new_ClusterChild. unfold_monad. fold ptr.
    simpl. unfold set_lb, set_heap. simpl.
    change (mkWorld _ _ _ _ _) with w1 at 1.
    rewrite Hrun. exists w'. split; [reflexivity|].
    cbn [heap w1] in Hheap. rewrite insert_insert_eq in Hheap.
    cbn [trace w1 ClusterChild.child_policy_ ClusterChild.new ClusterChild.name_]
      in Htrace, Hcre, Hn'.
    split; [|split].
    + unfold propagating. rewrite Hlb. cbn [lb w1].
      split; [done|]. split; [done|]. split; [done|]. split.
      * intros name' q Hq. rewrite Hlb in Hq. cbn in Hq. unfold child_ok.
        rewrite Hheap.
        destruct (decide (name' = name)) as [->|Hne].
        -- rewrite lookup_insert_eq in Hq. injection Hq as <-.
           rewrite lookup_insert_eq. exists c'. eauto.
        -- rewrite lookup_insert_ne in Hq by done.
           destruct (Hwf name' q Hq) as (d & Hd & ?).
           rewrite lookup_insert_ne; [by exists d|]. intros <-.
           apply Hfresh. apply elem_of_dom. eauto.
      * eapply (grown_extend w0 w); [done| |exact Htrace|done|].
        -- rewrite Hheap, dom_insert_L. set_solver.
        -- right. exists ptr, (next_policy w). split; [done|]. split; [done|].
           rewrite Hheap, dom_insert_L. set_solver.
    + rewrite Hlb. cbn. etrans; [exact Hsub|]. by apply insert_subseteq.
    + rewrite Hlb. cbn. intros q Hq. apply elem_of_app in Hq as [Hq|Hq].
      * destruct (decide (q.1 = name)) as [->|Hne].
        -- rewrite lookup_insert_eq. eauto.
        -- rewrite lookup_insert_ne by done. by apply Hseen.
      * apply list_elem_of_singleton in Hq as ->. simpl.
        rewrite lookup_insert_eq. eauto.
Qed.

(** An update pass on a policy that is not shut down: it returns; the
    representation invariant holds again; the flag is cleared; every
    configured name has a record; records are only added; and the trace
    grows by calls that publish nothing and instantiate a child policy only
    for newly allocated records, followed by exactly one publication. *)
Lemma UpdateLocked_spec u w :
  XdsClusterManagerLb.shutting_down_ (lb w) = false → wf w →
  ∃ w' pub,
    UpdateLocked child_policy u w = Done tt w' ∧
    wf w' ∧
    XdsClusterManagerLb.shutting_down_ (lb w') = false ∧
    XdsClusterManagerLb.update_in_progress_ (lb w') = false ∧
    XdsClusterManagerLb.config_ (lb w') = Some (config u) ∧
    configured_present w' ∧
    XdsClusterManagerLb.children_ (lb w) ⊆ XdsClusterManagerLb.children_ (lb w') ∧
    publications (trace w') = publications (trace w) ++ [pub] ∧
    dom (heap w) ⊆ dom (heap w') ∧
    ∃ new, creations (trace w') = creations (trace w) ++ new ∧
           NoDup new.*1 ∧
           ∀ q, q ∈ new.*1 → (q ∉ dom (heap w)) ∧ (q ∈ dom (heap w')).
Proof.
  intros Hsd Hwf. unfold UpdateLocked.
  unfold bind at 1. unfold gets at 1. rewrite Hsd.
  unfold bind at 1. unfold modify_lb at 1. unfold modify at 1.
  unfold bind at 1. unfold modify_lb at 1. unfold modify at 1.
  unfold bind at 1. unfold gets at 1.
  set (cfg := config u).
  set (w0 := set_lb _ (set_lb _ w)).
  set (ch0 := XdsClusterManagerLb.children_ (lb w0)).
  assert (propagating cfg w0 w0) as Hprop0.
  { unfold propagating. split; [done|]. split; [done|]. split; [done|].
    split; [by apply (wf_same_store w)|apply grown_refl]. }
  (* first loop *)
  destruct (for_each_invariant
              (λ _ w1, propagating cfg w0 w1 ∧
                       XdsClusterManagerLb.children_ (lb w1) = ch0)
              deactivate_if_absent (entries ch0)) with (seen := @nil (string * child_ptr)) (w := w0)
    as (w1 & Hloop1 & Hprop1 & Hch1).
  { intros _ p w1 Hp HI. by apply deactivate_if_absent_step. }
  { done. }
  rewrite (bind_Done _ _ _ _ _ Hloop1).
  pose proof Hprop1 as (Hsd1 & Hflag1 & Hcfg1 & Hwf1 & Hgrown1).
  unfold bind at 1. unfold bind at 1. unfold gets at 1. rewrite Hcfg1.
  cbn [deref ret].
  (* second loop *)
  destruct (for_each_invariant
              (λ seen w2, propagating cfg w0 w2 ∧
                 ch0 ⊆ XdsClusterManagerLb.children_ (lb w2) ∧
                 ∀ q, q ∈ seen → is_Some (XdsClusterManagerLb.children_ (lb w2) !! q.1))
              (add_or_update child_policy (addresses u) (args u)) (entries cfg))
    with (seen := @nil (string * LbConfig)) (w := w1)
    as (w2 & Hloop2 & Hprop2 & Hsub2 & Hseen2).
  { intros seen p w2 Hp HI. by apply add_or_update_step. }
  { split; [done|]. split; [by rewrite Hch1|]. intros q Hq. by apply elem_of_nil in Hq. }
  rewrite (bind_Done _ _ _ _ _ Hloop2).
  pose proof Hprop2 as (Hsd2 & Hflag2 & Hcfg2 & Hwf2 & Hdom2 & new & Htrace2 & Hpubs2 & Hnd2 & Hnew2).
  unfold bind at 1. unfold modify_lb at 1. unfold modify at 1.
  set (w3 := set_lb _ w2).
  assert (wf w3) as Hwf3 by (by apply (wf_same_store w2)).
  assert (configured_present w3) as Hpresent.
  { intros cfg' name Hcfg' [v Hv]. simpl in *. rewrite Hcfg2 in Hcfg'.
    injection Hcfg' as <-. apply (Hseen2 (name, v)). simpl.
    by apply elem_of_entries. }
  assert (recomputable w3) as Hrec.
  { split; [done|]. exists cfg. split; [done|]. intros name Hin.
    destruct (Hpresent cfg name) as [ptr Hptr]; [done|done|].
    destruct (Hwf3 name ptr Hptr) as (c & Hc & _ & _ & _ & Hst).
    exists c. split; [|done]. exists cfg, ptr. done. }
  destruct (UpdateStateLocked_total w3 Hrec) as [w' Hw'].
  destruct (UpdateStateLocked_Done w3 w') as (cfg' & n & cm & _ & -> & _); [done|done|].
  eexists _, _. split; [exact Hw'|].
  split; [by apply (wf_same_store w3)|].
  cbn [lb heap trace set_trace set_lb w3].
  split; [done|]. split; [done|]. split; [done|]. split; [done|]. split; [done|].
  cbn [trace w0 set_lb] in Htrace2. cbn [heap w0 set_lb] in Hdom2, Hnew2.
  rewrite Htrace2. split.
  { rewrite !publications_app, Hpubs2, app_nil_r. reflexivity. }
  split; [done|].
  exists (creations new). split; [|done].
  rewrite !creations_app. by rewrite app_nil_r.
Qed.

Lemma UpdateLocked_shut u w :
  XdsClusterManagerLb.shutting_down_ (lb w) = true →
  UpdateLocked child_policy u w = Done tt w.
Proof. intros H. unfold UpdateLocked. unfold_monad. by rewrite H. Qed.

End UpdateLocked.

Lemma NoDup_entries {V} (m : gmap string V) : NoDup (entries m).*1.
Proof.
  unfold entries. rewrite merge_sort_Permutation. apply NoDup_fst_map_to_list.
Qed.

Lemma entries_empty {V} : entries (∅ : gmap string V) = [].
Proof.
  apply Permutation_nil_r. unfold entries.
  by rewrite merge_sort_Permutation, map_to_list_empty.
Qed.

(** A loop rule that also tells where in the list the current element
    sits. *)
Lemma for_each_positional {A} (I : list A → World → Prop) (f : A → M unit) (l : list A) :
  (∀ seen x rest w, l = seen ++ x :: rest → I seen w →
     ∃ w', f x w = Done tt w' ∧ I (seen ++ [x]) w') →
  ∀ w, I [] w → ∃ w', for_each f l w = Done tt w' ∧ I l w'.
Proof.
  intros Hstep.
  assert (∀ rest seen w, l = seen ++ rest → I seen w →
            ∃ w', for_each f rest w = Done tt w' ∧ I l w') as Hgen.
  { induction rest as [|x rest IH]; intros seen w Hl HI; simpl.
    - exists w. rewrite app_nil_r in Hl. by subst.
    - destruct (Hstep seen x rest w Hl HI) as (w1 & Hx & HI1).
      rewrite (bind_Done _ _ _ _ _ Hx).
      apply (IH (seen ++ [x])); [|done]. by rewrite <- app_assoc. }
  intros w HI. by apply (Hgen l []).
Qed.

(** * ClusterChild::Orphan *)

Lemma ClusterChild_Orphan_eq child w c pid :
  heap w !! child = Some c → ClusterChild.child_policy_ c = Some pid →
  ClusterChild_Orphan child w =
    Done tt (mkWorld (lb w) (<[child := orphaned c]> (heap w)) (next_policy w)
               (now w) (trace w ++ orphan_effects child c pid)).
Proof.
  intros Hc Hp. unfold ClusterChild_Orphan, orphan_effects. unfold_monad.
  rewrite Hc, Hp. simpl.
  destruct (ClusterChild.delayed_removal_timer_callback_pending_ c); simpl;
    unfold set_heap, set_trace; simpl; by rewrite <- ?app_assoc.
Qed.

Lemma publications_orphan child c pid : publications (orphan_effects child c pid) = [].
Proof.
  unfold orphan_effects.
  by destruct (ClusterChild.delayed_removal_timer_callback_pending_ c).
Qed.

(** * XdsClusterManagerLb::ShutdownLocked *)

Lemma wf_injective w name1 name2 ptr :
  wf w →
  XdsClusterManagerLb.children_ (lb w) !! name1 = Some ptr →
  XdsClusterManagerLb.children_ (lb w) !! name2 = Some ptr →
  name1 = name2.
Proof.
  intros Hwf H1 H2.
  destruct (Hwf _ _ H1) as (c1 & Hc1 & <- & _).
  destruct (Hwf _ _ H2) as (c2 & Hc2 & <- & _). congruence.
Qed.

Lemma ShutdownLocked_spec {map_clear : MapClear} w :
  wf w →
  ∃ w', ShutdownLocked w = Done tt w' ∧
    lb w' = XdsClusterManagerLb.mk (XdsClusterManagerLb.config_ (lb w)) true
              (XdsClusterManagerLb.update_in_progress_ (lb w)) ∅ ∧
    publications (trace w') = publications (trace w) ∧
    (∀ name ptr, XdsClusterManagerLb.children_ (lb w) !! name = Some ptr →
       ∃ c pid, heap w !! ptr = Some c ∧ ClusterChild.child_policy_ c = Some pid ∧
                heap w' !! ptr = Some (orphaned c) ∧
                ChildPolicyReset pid ∈ trace w' ∧
                (ClusterChild.delayed_removal_timer_callback_pending_ c = true →
                 TimerCancel ptr ∈ trace w')).
Proof.
  intros Hwf. unfold ShutdownLocked.
  unfold bind at 1. unfold modify_lb at 1. unfold modify at 1.
  unfold bind at 1. unfold gets at 1.
  set (w0 := set_lb _ w).
  set (ch0 := XdsClusterManagerLb.children_ (lb w0)).
  assert (ch0 = XdsClusterManagerLb.children_ (lb w)) as Hch0 by done.
  destruct (for_each_positional
    (λ seen w1,
       lb w1 = lb w0 ∧ publications (trace w1) = publications (trace w) ∧
       (∀ e, e ∈ trace w → e ∈ trace w1) ∧
       ∀ name ptr, ch0 !! name = Some ptr →
         ∃ c pid, heap w !! ptr = Some c ∧ ClusterChild.child_policy_ c = Some pid ∧
           if decide (name ∈ seen.*1)
           then heap w1 !! ptr = Some (orphaned c) ∧
                ChildPolicyReset pid ∈ trace w1 ∧
                (ClusterChild.delayed_removal_timer_callback_pending_ c = true →
                 TimerCancel ptr ∈ trace w1)
           else heap w1 !! ptr = Some c)
    (λ p : string * child_ptr, ClusterChild_Orphan p.2) (clear_order w0))
    with (w := w0) as (w1 & Hloop & Hlb & Hpubs & _ & Hall).
  - intros seen [name ptr] rest w1 Hl (Hlb & Hpubs & Hmono & Hall). simpl.
    assert (ch0 !! name = Some ptr) as Hname.
    { apply elem_of_clear_order. rewrite Hl. apply elem_of_app. right.
      apply elem_of_cons. by left. }
    assert (name ∉ seen.*1) as Hnew.
    { pose proof (NoDup_clear_order w0) as Hnd. rewrite Hl, fmap_app in Hnd.
      apply NoDup_app in Hnd as (_ & Hdisj & _). intros Hin.
      apply (Hdisj name Hin). simpl. apply elem_of_cons. by left. }
    destruct (Hall name ptr Hname) as (c & pid & Hc & Hpid & Hcur).
    rewrite decide_False in Hcur by done.
    rewrite (ClusterChild_Orphan_eq _ _ _ _ Hcur Hpid).
    eexists. split; [reflexivity|]. cbn [lb heap trace].
    split; [done|]. split.
    { by rewrite publications_app, publications_orphan, app_nil_r. }
    split.
    { intros e He. apply elem_of_app. left. by apply Hmono. }
    intros name' ptr' Hname'.
    destruct (Hall name' ptr' Hname') as (c' & pid' & Hc' & Hpid' & Hcur').
    exists c', pid'. split; [done|]. split; [done|].
    rewrite fmap_app. simpl.
    destruct (decide (name' = name)) as [->|Hne].
    + rewrite decide_True; [|apply elem_of_app; right; apply elem_of_cons; by left].
      rewrite Hname in Hname'. injection Hname' as <-.
      rewrite Hc in Hc'. injection Hc' as <-.
      rewrite Hpid in Hpid'. injection Hpid' as <-.
      rewrite lookup_insert_eq. split; [done|]. unfold orphan_effects. split.
      * apply elem_of_app. right. apply elem_of_app. left. set_solver.
      * intros ->. apply elem_of_app. right. apply elem_of_app. right. set_solver.
    + assert (ptr' ≠ ptr) as Hptr.
      { intros ->. apply Hne. rewrite Hch0 in *. by eapply wf_injective. }
      rewrite lookup_insert_ne by done.
      destruct (decide (name' ∈ seen.*1)) as [Hin|Hout].
      * rewrite decide_True; [|apply elem_of_app; by left].
        destruct Hcur' as (? & ? & Hcancel). split; [done|]. split.
        -- apply elem_of_app. by left.
        -- intros Hp. apply elem_of_app. left. by apply Hcancel.
      * rewrite decide_False; [done|].
        rewrite elem_of_app, list_elem_of_singleton. tauto.
  - split; [done|]. split; [done|]. split; [done|].
    intros name ptr Hname. rewrite Hch0 in Hname.
    destruct (Hwf name ptr Hname) as (c & Hc & _ & [pid Hpid] & _).
    exists c, pid. split; [done|]. split; [done|].
    rewrite decide_False; [done|]. simpl. apply not_elem_of_nil.
  - rewrite (bind_Done _ _ _ _ _ Hloop). unfold modify_lb, modify.
    eexists. split; [reflexivity|]. cbn [lb heap trace set_lb].
    split; [by rewrite Hlb|]. split; [done|].
    intros name ptr Hname. rewrite <- Hch0 in Hname.
    destruct (Hall name ptr Hname) as (c & pid & Hc & Hpid & Hcur).
    rewrite decide_True in Hcur.
    + exists c, pid. tauto.
    + apply elem_of_clear_order_fst. eauto.
Qed.

Lemma ShutdownLocked_shut {map_clear : MapClear} w : shut w → ShutdownLocked w = Done tt w.
Proof.
  intros [Hsd Hch]. unfold ShutdownLocked. unfold_monad. simpl.
  rewrite clear_order_empty by done. simpl.
  destruct w as [[cfg sd flag ch] hp np t tr]. simpl in *. by subst.
Qed.

Lemma ExitIdleLocked_shut {channel : ChannelControlHelper} child_policy w :
  shut w → ExitIdleLocked child_policy w = Done tt w.
Proof.
  intros [_ Hch]. unfold ExitIdleLocked. unfold_monad.
  by rewrite Hch, entries_empty.
Qed.

Lemma ResetBackoffLocked_shut {channel : ChannelControlHelper} child_policy w :
  shut w → ResetBackoffLocked child_policy w = Done tt w.
Proof.
  intros [_ Hch]. unfold ResetBackoffLocked. unfold_monad.
  by rewrite Hch, entries_empty.
Qed.

(** * ClusterChild::OnDelayedRemovalTimerLocked *)

Lemma OnDelayedRemovalTimerLocked_noop child error w c :
  heap w !! child = Some c →
  GRPC_ERROR_IS_NONE error = false ∨ ClusterChild.shutdown_ c = true →
  ClusterChild_OnDelayedRemovalTimerLocked child error w =
    Done tt (mkWorld (lb w)
               (<[child := ClusterChild.set_delayed_removal_timer_callback_pending_ false c]>
                  (heap w))
               (next_policy w) (now w) (trace w)).
Proof.
  intros Hc Hcase. unfold ClusterChild_OnDelayedRemovalTimerLocked. unfold_monad.
  rewrite Hc. simpl. rewrite lookup_insert_eq. simpl.
  destruct Hcase as [->| ->]; [done|]. by rewrite andb_false_r.
Qed.

Lemma OnDelayedRemovalTimerLocked_erases child w c pid :
  heap w !! child = Some c →
  ClusterChild.shutdown_ c = false →
  ClusterChild.child_policy_ c = Some pid →
  XdsClusterManagerLb.children_ (lb w) !! ClusterChild.name_ c = Some child →
  ClusterChild_OnDelayedRemovalTimerLocked child GRPC_ERROR_NONE w =
    Done tt (mkWorld
               (XdsClusterManagerLb.set_children_
                  (delete (ClusterChild.name_ c) (XdsClusterManagerLb.children_ (lb w)))
                  (lb w))
               (<[child := orphaned
                    (ClusterChild.set_delayed_removal_timer_callback_pending_ false c)]>
                  (heap w))
               (next_policy w) (now w)
               (trace w ++ [PollsetSetDel pid; ChildPolicyReset pid])).
Proof.
  intros Hc Hsh Hpid Hname.
  destruct w as [l hp np t tr]. destruct c as [nm pol pw st pend sh].
  simpl in *. subst.
  unfold ClusterChild_OnDelayedRemovalTimerLocked, children_erase.
  unfold_monad. simpl. rewrite Hc. simpl. rewrite lookup_insert_eq. simpl.
  rewrite Hname.
  erewrite ClusterChild_Orphan_eq; simpl; [|by rewrite lookup_insert_eq|done].
  by rewrite insert_insert_eq.
Qed.

(** * Supporting facts for the statements *)

Lemma recomputable_check_sound w : recomputable_check w = true → recomputable w.
Proof.
  unfold recomputable_check. intros H. apply andb_true_iff in H as [Hflag H].
  apply negb_true_iff in Hflag. split; [done|].
  destruct (XdsClusterManagerLb.config_ (lb w)) as [cfg|] eqn:Hcfg; [|done].
  exists cfg. split; [done|]. intros name [v Hv].
  rewrite forallb_forall in H. specialize (H (name, v)). simpl in H.
  destruct (XdsClusterManagerLb.children_ (lb w) !! name) as [ptr|] eqn:Hptr.
  - destruct (heap w !! ptr) as [c|] eqn:Hc.
    + exists c. split.
      * exists cfg, ptr. eauto.
      * eapply bool_decide_eq_true_1. apply H.
        apply list_elem_of_In, elem_of_entries. done.
    + discriminate H. by apply list_elem_of_In, elem_of_entries.
  - discriminate H. by apply list_elem_of_In, elem_of_entries.
Qed.

Lemma aggregated_state_priority n :
  ((0 < tally GRPC_CHANNEL_READY n) → aggregated_state n = GRPC_CHANNEL_READY) ∧
  (¬ (0 < tally GRPC_CHANNEL_READY n) → (0 < tally GRPC_CHANNEL_CONNECTING n) →
   aggregated_state n = GRPC_CHANNEL_CONNECTING) ∧
  (¬ (0 < tally GRPC_CHANNEL_READY n) → ¬ (0 < tally GRPC_CHANNEL_CONNECTING n) →
   (0 < tally GRPC_CHANNEL_IDLE n) → aggregated_state n = GRPC_CHANNEL_IDLE) ∧
  (¬ (0 < tally GRPC_CHANNEL_READY n) → ¬ (0 < tally GRPC_CHANNEL_CONNECTING n) →
   ¬ (0 < tally GRPC_CHANNEL_IDLE n) →
   aggregated_state n = GRPC_CHANNEL_TRANSIENT_FAILURE).
Proof. unfold aggregated_state. simpl. repeat case_decide; intuition (done || lia). Qed.

Lemma aggregated_state_failure n :
  aggregated_state n = GRPC_CHANNEL_TRANSIENT_FAILURE ↔
  ¬ (0 < tally GRPC_CHANNEL_READY n) ∧ ¬ (0 < tally GRPC_CHANNEL_CONNECTING n) ∧
  ¬ (0 < tally GRPC_CHANNEL_IDLE n).
Proof. unfold aggregated_state. simpl. repeat case_decide; intuition (done || lia). Qed.

Lemma aggregated_state_not_shutdown n : aggregated_state n ≠ GRPC_CHANNEL_SHUTDOWN.
Proof. unfold aggregated_state. by repeat case_decide. Qed.

Lemma string_app_assoc (s1 s2 s3 : string) :
  String.append s1 (String.append s2 s3) = String.append (String.append s1 s2) s3.
Proof.
  induction s1 as [|a s1 IH]; [done|].
  change (String a (String.append s1 (String.append s2 s3)) =
          String a (String.append (String.append s1 s2) s3)).
  by rewrite IH.
Qed.

Lemma string_app_empty_r (s : string) : String.append s EmptyString = s.
Proof.
  induction s as [|a s IH]; [done|].
  change (String a (String.append s EmptyString) = String a s). by rewrite IH.
Qed.

Lemma UpdateStateLocked_frame w w' :
  UpdateStateLocked w = Done tt w' → lb w' = lb w ∧ heap w' = heap w.
Proof.
  intros Hrun.
  destruct (XdsClusterManagerLb.update_in_progress_ (lb w)) eqn:Hflag.
  - rewrite (UpdateStateLocked_suppressed w Hflag) in Hrun. by injection Hrun as <-.
  - by destruct (UpdateStateLocked_Done w w' Hflag Hrun) as (? & ? & ? & _ & -> & _).
Qed.


Lemma eager_policy_sane : never_reports_shutdown eager_policy.
Proof.
  intros w c st status pk Hin. destruct c; simpl in Hin.
  - apply elem_of_cons in Hin as [Hin|Hin]; [discriminate Hin|].
    apply list_elem_of_singleton in Hin. injection Hin as -> _ _. discriminate.
  - by apply elem_of_nil in Hin.
  - by apply elem_of_nil in Hin.
Qed.

Lemma latch_state_state st c :
  ClusterChild.connectivity_state_ (latch_state st c) =
    if decide (ClusterChild.connectivity_state_ c = GRPC_CHANNEL_TRANSIENT_FAILURE ∧
               st ≠ GRPC_CHANNEL_READY)
    then GRPC_CHANNEL_TRANSIENT_FAILURE else st.
Proof.
  unfold latch_state.
  destruct (decide (ClusterChild.connectivity_state_ c = GRPC_CHANNEL_TRANSIENT_FAILURE))
    as [Htf|Htf], (decide (st = GRPC_CHANNEL_READY)) as [Hr|Hr].
  - rewrite (bool_decide_eq_false_2 _) by tauto.
    rewrite (bool_decide_eq_true_2 _ Hr). simpl. by rewrite decide_False by tauto.
  - rewrite (bool_decide_eq_false_2 _) by tauto.
    rewrite (bool_decide_eq_false_2 _ Hr). simpl. by rewrite decide_True by tauto.
  - rewrite (bool_decide_eq_true_2 _ Htf). simpl. by rewrite decide_False by tauto.
  - rewrite (bool_decide_eq_true_2 _ Htf). simpl. by rewrite decide_False by tauto.
Qed.

Lemma Helper_UpdateState_live child st status pk w c :
  XdsClusterManagerLb.shutting_down_ (lb w) = false →
  heap w !! child = Some c →
  Helper_UpdateState child st status pk w =
    UpdateStateLocked
      (set_heap (<[child := latch_state st (cache_picker pk c)]> (heap w)) w).
Proof.
  intros Hsd Hc. unfold Helper_UpdateState. unfold_monad. rewrite Hsd, Hc. simpl.
  rewrite lookup_insert_eq. unfold set_heap. simpl. by rewrite insert_insert_eq.
Qed.

(** The example states are states of runs. *)
Lemma world_AB_reached :
  UpdateLocked (channel := example_channel)
      quiet_policy (update_with config_AB) (initial_world 0) = Done tt world_AB.
Proof. vm_compute. reflexivity. Qed.

Lemma world_AB_shut_reached : ShutdownLocked (map_clear := libstdcxx_clear)
    world_AB = Done tt world_AB_shut.
Proof. vm_compute. reflexivity. Qed.

Lemma world_B_deactivated_reached :
  ∃ w, for_each (exec (channel := example_channel) (map_clear := libstdcxx_clear)
      quiet_policy) calls_B_deactivated (initial_world 0) = Done tt w ∧
       set_trace [] w = world_B_deactivated.
Proof.
  destruct (for_each _ _ _) as [[] w|f] eqn:Hrun;
    [|vm_compute in Hrun; discriminate Hrun].
  exists w. split; [reflexivity|].
  vm_compute in Hrun. injection Hrun as <-. vm_compute. reflexivity.
Qed.

(** B leaves the configuration and comes back with another child config:
    its record and its child policy are the ones of the first update, and
    the cancelled timer's callback then changes nothing. *)
Lemma flapping_keeps_B :
  ∃ w, for_each (exec (channel := example_channel) (map_clear := libstdcxx_clear)
      quiet_policy)
         [EvUpdate (update_with config_AB);
          EvUpdate (update_with config_A);
          EvUpdate (update_with {[ "A" := "polX"; "B" := "polZ" ]});
          EvTimer 1 GRPC_ERROR_CANCELLED] (initial_world 0) = Done tt w ∧
       XdsClusterManagerLb.children_ (lb w) = {[ "A" := 0; "B" := 1 ]} ∧
       heap w !! 1 = Some (ClusterChild.mk "B" (Some 1) None GRPC_CHANNEL_IDLE
                             false false) ∧
       creations (trace w) = [(0, 0); (1, 1)].
Proof.
  destruct (for_each _ _ _) as [[] w|f] eqn:Hrun;
    [|vm_compute in Hrun; discriminate Hrun].
  exists w. split; [reflexivity|].
  vm_compute in Hrun. injection Hrun as <-.
  repeat split; vm_compute; reflexivity.
Qed.

Lemma world_A_failed_reached :
  ∃ w, for_each (exec (channel := example_channel) (map_clear := libstdcxx_clear)
      quiet_policy) calls_A_failed (initial_world 0) = Done tt w ∧
       set_trace [] w = world_A_failed.
Proof.
  destruct (for_each _ _ _) as [[] w|f] eqn:Hrun;
    [|vm_compute in Hrun; discriminate Hrun].
  exists w. split; [reflexivity|].
  vm_compute in Hrun. injection Hrun as <-. vm_compute. reflexivity.
Qed.

(** An update pass leaves a record in [children_] for every configured
    name. *)
Lemma configured_present_after_update {channel : ChannelControlHelper} child_policy u w w' :
  never_reports_shutdown child_policy → wf w →
  UpdateLocked child_policy u w = Done tt w' →
  XdsClusterManagerLb.shutting_down_ (lb w) = false →
  configured_present w' ∧ wf w'.
Proof.
  intros Hsane Hwf Hrun Hsd.
  destruct (UpdateLocked_spec child_policy Hsane u w Hsd Hwf)
    as (w'' & pub & Hrun' & Hwf' & _ & _ & _ & Hpresent & _).
  rewrite Hrun in Hrun'. by injection Hrun' as <-.
Qed.

(** Helper calls touch neither [config_] nor [children_]. *)
Lemma Helper_call_lb {channel : ChannelControlHelper} child h w w' :
  Helper_call child h w = Done tt w' → lb w' = lb w.
Proof.
  intros Hrun.
  destruct (XdsClusterManagerLb.shutting_down_ (lb w)) eqn:Hsd.
  { rewrite (Helper_call_shut _ _ _ Hsd) in Hrun. by injection Hrun as <-. }
  destruct h; simpl in Hrun.
  - destruct (heap w !! child) as [c|] eqn:Hc.
    + rewrite (Helper_UpdateState_live _ _ _ _ _ _ Hsd Hc) in Hrun.
      by apply UpdateStateLocked_frame in Hrun as [-> _].
    + unfold Helper_UpdateState in Hrun. unfold_monad.
      rewrite Hsd in Hrun. simpl in Hrun. by rewrite Hc in Hrun.
  - unfold Helper_CreateSubchannel in Hrun. unfold_monad. rewrite Hsd in Hrun.
    by injection Hrun as <-.
  - unfold Helper_RequestReresolution in Hrun. unfold_monad. rewrite Hsd in Hrun.
    by injection Hrun as <-.
  - unfold Helper_AddTraceEvent in Hrun. unfold_monad. rewrite Hsd in Hrun.
    by injection Hrun as <-.
Qed.

Lemma configured_present_helper_call {channel : ChannelControlHelper} child h w w' :
  configured_present w → Helper_call child h w = Done tt w' → configured_present w'.
Proof.
  intros Hpresent Hrun. apply Helper_call_lb in Hrun.
  unfold configured_present. rewrite Hrun. exact Hpresent.
Qed.

(** The timer callback keeps every configured name in [children_] as long
    as the record it runs for is not itself configured. *)
Lemma configured_present_timer child error w w' c :
  configured_present w → heap w !! child = Some c →
  (∀ cfg, XdsClusterManagerLb.config_ (lb w) = Some cfg →
          cfg !! ClusterChild.name_ c = None) →
  ClusterChild_OnDelayedRemovalTimerLocked child error w = Done tt w' →
  configured_present w'.
Proof.
  intros Hpresent Hc Habsent Hrun.
  assert (XdsClusterManagerLb.config_ (lb w') = XdsClusterManagerLb.config_ (lb w) ∧
          ∀ name, name ≠ ClusterChild.name_ c →
            XdsClusterManagerLb.children_ (lb w') !! name =
            XdsClusterManagerLb.children_ (lb w) !! name) as [Hcfg Hch].
  { revert Hrun. unfold ClusterChild_OnDelayedRemovalTimerLocked, children_erase,
      ClusterChild_Orphan.
    unfold_monad. rewrite Hc. simpl. rewrite lookup_insert_eq. simpl.
    destruct (GRPC_ERROR_IS_NONE error && negb (ClusterChild.shutdown_ c));
      simpl; [|by intros [= <-]].
    destruct (XdsClusterManagerLb.children_ (lb w) !! ClusterChild.name_ c)
      as [q|]; simpl; [|by intros [= <-]].
    destruct (_ !! q) as [d|]; simpl; [|done].
    destruct (ClusterChild.child_policy_ d); simpl; [|done].
    destruct (ClusterChild.delayed_removal_timer_callback_pending_ d);
      simpl; intros [= <-]; simpl; (split; [done|]); intros name Hne;
      by rewrite lookup_delete_ne. }
  intros cfg name Hcfg' Hin. rewrite Hcfg in Hcfg'.
  rewrite Hch; [by eapply Hpresent|].
  intros ->. rewrite (Habsent cfg Hcfg') in Hin. by destruct Hin.
Qed.

(** * What every reachable state satisfies *)

Lemma for_each_preserves {A} (I : World → Prop) (f : A → M unit) (l : list A) :
  (∀ x w w', x ∈ l → I w → f x w = Done tt w' → I w') →
  ∀ w w', I w → for_each f l w = Done tt w' → I w'.
Proof.
  induction l as [|x l IH]; intros Hstep w w' HI; simpl.
  - by intros [= <-].
  - unfold bind. destruct (f x w) as [[] w1|] eqn:Hx; [|done].
    apply IH.
    + intros y w2 w3 Hy. apply Hstep. apply elem_of_cons. by right.
    + eapply Hstep; [|done..]. apply elem_of_cons. by left.
Qed.

(** A helper call leaves the policy object alone and changes at most the
    record it was wired to, as [absorb] says. *)
Lemma Helper_call_frame {channel : ChannelControlHelper} child h w w' :
  Helper_call child h w = Done tt w' →
  lb w' = lb w ∧
  (heap w' = heap w ∨
   ∃ c, heap w !! child = Some c ∧ heap w' = <[child := absorb c h]> (heap w)).
Proof.
  intros Hrun. split; [by eapply Helper_call_lb|].
  destruct (XdsClusterManagerLb.shutting_down_ (lb w)) eqn:Hsd.
  { rewrite (Helper_call_shut _ _ _ Hsd) in Hrun. injection Hrun as <-. by left. }
  destruct h; simpl in Hrun.
  - destruct (heap w !! child) as [c|] eqn:Hc.
    + rewrite (Helper_UpdateState_live _ _ _ _ _ _ Hsd Hc) in Hrun.
      apply UpdateStateLocked_frame in Hrun as [_ ->]. right. by exists c.
    + unfold Helper_UpdateState in Hrun. unfold_monad.
      rewrite Hsd in Hrun. simpl in Hrun. by rewrite Hc in Hrun.
  - unfold Helper_CreateSubchannel in Hrun. unfold_monad. rewrite Hsd in Hrun.
    injection Hrun as <-. by left.
  - unfold Helper_RequestReresolution in Hrun. unfold_monad. rewrite Hsd in Hrun.
    injection Hrun as <-. by left.
  - unfold Helper_AddTraceEvent in Hrun. unfold_monad. rewrite Hsd in Hrun.
    injection Hrun as <-. by left.
Qed.

Lemma Helper_call_wf {channel : ChannelControlHelper} child h w w' :
  wf w → well_behaved (EvHelper child h) →
  Helper_call child h w = Done tt w' → wf w'.
Proof.
  intros Hwf Hgood Hrun.
  destruct (Helper_call_frame child h w w' Hrun) as [Hlb [Hheap|(c & Hc & Hheap)]].
  - apply (wf_same_store w); [done|by rewrite Hlb|done].
  - apply (wf_store w w' child c (absorb c h)); try done; try by rewrite Hlb.
    + destruct h; simpl; try done. unfold latch_state, cache_picker. by case_match.
    + destruct h; simpl; try done. unfold latch_state, cache_picker. by case_match.
    + destruct h; simpl; try done. unfold latch_state, cache_picker. by case_match.
    + destruct h; simpl in *; try done. unfold latch_state, cache_picker.
      by case_match.
Qed.

Section Reachable.

Context {channel : ChannelControlHelper} {map_clear : MapClear}.

Variable child_policy : World → policy_call → list helper_call.
Hypothesis sane : never_reports_shutdown child_policy.

Lemma call_child_policy_wf child c w w' :
  wf w → call_child_policy child_policy child c w = Done tt w' →
  wf w' ∧ lb w' = lb w.
Proof.
  intros Hwf. unfold call_child_policy.
  unfold bind at 1. unfold emit at 1. unfold modify at 1.
  unfold bind at 1. unfold gets at 1.
  set (w1 := set_trace _ w). set (hs := child_policy w1 c).
  assert (∀ st status pk, HelperUpdateState st status pk ∈ hs →
            st ≠ GRPC_CHANNEL_SHUTDOWN) as Hhs.
  { intros st status pk Hin. by eapply sane. }
  clearbody hs. intros Hrun.
  apply (for_each_preserves (λ w2, wf w2 ∧ lb w2 = lb w)
           (Helper_call child) hs) with (w := w1); [|split|done].
  - intros h w2 w3 Hh [Hwf2 Hlb2] Hstep. split.
    + eapply Helper_call_wf; [done| |done].
      destruct h; simpl; try done. by eapply Hhs.
    + apply Helper_call_lb in Hstep. by rewrite Hstep.
  - by apply (wf_same_store w).
  - done.
Qed.

Lemma ExitIdleLocked_wf w w' :
  wf w → ExitIdleLocked child_policy w = Done tt w' → wf w' ∧ lb w' = lb w.
Proof.
  intros Hwf. unfold ExitIdleLocked. unfold bind at 1. unfold gets at 1.
  apply (for_each_preserves (λ w2, wf w2 ∧ lb w2 = lb w)); [|done].
  intros p w2 w3 _ [Hwf2 Hlb2]. unfold ClusterChild_ExitIdleLocked.
  unfold bind at 1. unfold load at 1. destruct (heap w2 !! p.2) as [c|]; [|done].
  unfold bind at 1. destruct (ClusterChild.child_policy_ c) as [pid|]; [|done].
  simpl. intros Hstep. apply call_child_policy_wf in Hstep as [? Hlb3]; [|done].
  split; [done|]. by rewrite Hlb3.
Qed.

Lemma ResetBackoffLocked_wf w w' :
  wf w → ResetBackoffLocked child_policy w = Done tt w' → wf w' ∧ lb w' = lb w.
Proof.
  intros Hwf. unfold ResetBackoffLocked. unfold bind at 1. unfold gets at 1.
  apply (for_each_preserves (λ w2, wf w2 ∧ lb w2 = lb w)); [|done].
  intros p w2 w3 _ [Hwf2 Hlb2]. unfold ClusterChild_ResetBackoffLocked.
  unfold bind at 1. unfold load at 1. destruct (heap w2 !! p.2) as [c|]; [|done].
  unfold bind at 1. destruct (ClusterChild.child_policy_ c) as [pid|]; [|done].
  simpl. intros Hstep. apply call_child_policy_wf in Hstep as [? Hlb3]; [|done].
  split; [done|]. by rewrite Hlb3.
Qed.

Lemma OnDelayedRemovalTimerLocked_wf child error w w' :
  wf w → ClusterChild_OnDelayedRemovalTimerLocked child error w = Done tt w' →
  wf w' ∧
  XdsClusterManagerLb.update_in_progress_ (lb w') =
    XdsClusterManagerLb.update_in_progress_ (lb w).
Proof.
  intros Hwf Hrun.
  destruct (heap w !! child) as [c|] eqn:Hc.
  2:{ unfold ClusterChild_OnDelayedRemovalTimerLocked in Hrun. unfold_monad.
      by rewrite Hc in Hrun. }
  set (c0 := ClusterChild.set_delayed_removal_timer_callback_pending_ false c).
  set (w0 := mkWorld (lb w) (<[child := c0]> (heap w)) (next_policy w) (now w) (trace w)).
  assert (wf w0) as Hwf0 by (by apply (wf_store w w0 child c c0)).
  destruct (GRPC_ERROR_IS_NONE error && negb (ClusterChild.shutdown_ c)) eqn:Hgo.
  - apply andb_true_iff in Hgo as [Herr Hsh]. apply negb_true_iff in Hsh.
    assert (ClusterChild_OnDelayedRemovalTimerLocked child error w =
              children_erase (ClusterChild.name_ c) w0) as Heq.
    { unfold ClusterChild_OnDelayedRemovalTimerLocked. unfold_monad.
      rewrite Hc. simpl. rewrite lookup_insert_eq. simpl. by rewrite Herr, Hsh. }
    rewrite Heq in Hrun. unfold children_erase in Hrun.
    unfold bind at 1, gets at 1 in Hrun. cbn [lb w0] in Hrun.
    destruct (XdsClusterManagerLb.children_ (lb w) !! ClusterChild.name_ c)
      as [q|] eqn:Hq.
    + unfold bind at 1, modify_lb, modify in Hrun.
      destruct (Hwf0 _ _ Hq) as (d & Hd & Hdn & [pid Hpid] & _).
      erewrite ClusterChild_Orphan_eq in Hrun; [|exact Hd|exact Hpid].
      injection Hrun as <-. split; [|done].
      intros name ptr Hname. cbn in Hname.
      apply lookup_delete_Some in Hname as [Hne Hname].
      destruct (Hwf0 _ _ Hname) as (e & He & Hrest). exists e. split; [|done].
      cbn. rewrite lookup_insert_ne; [done|]. intros <-.
      apply Hne. by eapply (wf_injective w0).
    + injection Hrun as <-. done.
  - rewrite (OnDelayedRemovalTimerLocked_noop child error w c Hc) in Hrun.
    + injection Hrun as <-. done.
    + apply andb_false_iff in Hgo as [?|Hsh]; [by left|right].
      by apply negb_false_iff in Hsh.
Qed.

Lemma exec_invariant e w w' :
  wf w ∧ XdsClusterManagerLb.update_in_progress_ (lb w) = false →
  well_behaved e → exec child_policy e w = Done tt w' →
  wf w' ∧ XdsClusterManagerLb.update_in_progress_ (lb w') = false.
Proof.
  intros [Hwf Hflag] Hgood Hrun. destruct e; simpl in Hrun.
  - destruct (XdsClusterManagerLb.shutting_down_ (lb w)) eqn:Hsd.
    + rewrite (UpdateLocked_shut _ _ _ Hsd) in Hrun. by injection Hrun as <-.
    + destruct (UpdateLocked_spec child_policy sane u w Hsd Hwf)
        as (w'' & pub & Hrun' & Hwf' & _ & Hflag' & _).
      rewrite Hrun in Hrun'. by injection Hrun' as <-.
  - destruct (ShutdownLocked_spec w Hwf) as (w'' & Hrun' & Hlb & _).
    rewrite Hrun in Hrun'. injection Hrun' as <-. split.
    + intros name ptr Hname. rewrite Hlb in Hname. cbn in Hname.
      by rewrite lookup_empty in Hname.
    + by rewrite Hlb.
  - apply ExitIdleLocked_wf in Hrun as [? Hlb]; [|done]. by rewrite Hlb.
  - apply ResetBackoffLocked_wf in Hrun as [? Hlb]; [|done]. by rewrite Hlb.
  - split; [by eapply Helper_call_wf|].
    apply Helper_call_lb in Hrun. by rewrite Hrun.
  - apply OnDelayedRemovalTimerLocked_wf in Hrun as [? Hflag']; [|done].
    by rewrite Hflag'.
  - unfold modify in Hrun. injection Hrun as <-. split; [|done].
    by apply (wf_same_store w).
Qed.

(** Between serialized calls the representation invariant holds and no
    update is in progress. *)
Lemma reachable_wf w :
  reachable child_policy w →
  wf w ∧ XdsClusterManagerLb.update_in_progress_ (lb w) = false.
Proof.
  induction 1 as [t|w e w' _ IH Hgood Hrun].
  - split; [apply wf_initial|done].
  - by eapply exec_invariant.
Qed.

(** In a reachable state the recomputation publishes as soon as there is a
    configuration and each of its names has a record. *)
Lemma reachable_recomputable w cfg :
  reachable child_policy w →
  XdsClusterManagerLb.config_ (lb w) = Some cfg →
  configured_present w →
  recomputable w.
Proof.
  intros Hreach Hcfg Hpresent. destruct (reachable_wf w Hreach) as [Hwf Hflag].
  split; [done|]. exists cfg. split; [done|]. intros name Hin.
  destruct (Hpresent cfg name Hcfg Hin) as [ptr Hptr].
  destruct (Hwf name ptr Hptr) as (c & Hc & _ & _ & _ & Hst).
  exists c. split; [|done]. by exists cfg, ptr.
Qed.

Lemma reachable_run es : ∀ w w',
  reachable child_policy w → Forall well_behaved es →
  for_each (exec child_policy) es w = Done tt w' →
  reachable child_policy w'.
Proof.
  induction es as [|e es IH]; intros w w' Hreach Hgood; simpl.
  - by intros [= <-].
  - unfold bind. destruct (exec child_policy e w) as [[] w1|] eqn:Hstep; [|done].
    apply Forall_cons in Hgood as [He Hes]. apply IH; [|done].
    by apply (reachable_step child_policy w e w1).
Qed.

End Reachable.

(** * What the entry points append to the trace *)

Section Appends.

Context {channel : ChannelControlHelper} {map_clear : MapClear}.

Variable P : effect → Prop.

Lemma appends_ret {A} (a : A) : appends P (ret a).
Proof.
  intros w a' w' [= <- <-]. split; [done|]. exists []. by rewrite app_nil_r.
Qed.

Lemma appends_abort {A} f : appends P (abort f : M A).
Proof. by intros w a w'. Qed.

Lemma appends_gets {A} (f : World → A) : appends P (gets f).
Proof.
  intros w a w' [= <- <-]. split; [done|]. exists []. by rewrite app_nil_r.
Qed.

Lemma appends_modify (f : World → World) :
  (∀ w, trace (f w) = trace w ∧ dom (heap w) ⊆ dom (heap (f w))) →
  appends P (modify f).
Proof.
  intros Hf w a w' [= <- <-]. destruct (Hf w) as [Ht Hd].
  split; [done|]. exists []. by rewrite Ht, app_nil_r.
Qed.

Lemma appends_emit e : P e → appends P (emit e).
Proof.
  intros He w a w' [= <- <-]. split; [done|]. exists [e].
  split; [done|]. by constructor.
Qed.

Lemma appends_bind {A B} (m : M A) (k : A → M B) :
  appends P m → (∀ a, appends P (k a)) → appends P (bind m k).
Proof.
  intros Hm Hk w b w'. unfold bind.
  destruct (m w) as [a w1|] eqn:Hrun; [|done]. intros Hrest.
  destruct (Hm w a w1 Hrun) as (D1 & new1 & E1 & H1).
  destruct (Hk a w1 b w' Hrest) as (D2 & new2 & E2 & H2).
  split; [by etrans|].
  exists (new1 ++ new2). split; [by rewrite E2, E1, app_assoc|].
  by apply Forall_app.
Qed.

Lemma appends_deref {A} (p : option A) : appends P (deref p).
Proof. destruct p; [apply appends_ret|apply appends_abort]. Qed.

Lemma appends_load p : appends P (load p).
Proof.
  intros w a w'. unfold load. destruct (heap w !! p); [|done].
  intros [= <- <-]. split; [done|]. exists []. by rewrite app_nil_r.
Qed.

Lemma appends_store p c : appends P (store p c).
Proof.
  apply appends_modify. intros w. split; [done|]. simpl.
  rewrite dom_insert_L. apply union_subseteq_r.
Qed.

Lemma appends_modify_lb f : appends P (modify_lb f).
Proof. by apply appends_modify. Qed.

Lemma appends_update_child p f : appends P (update_child p f).
Proof.
  apply appends_bind; [apply appends_load|]. intros c. apply appends_store.
Qed.

Lemma appends_for_each {A} (f : A → M unit) (l : list A) :
  (∀ x, appends P (f x)) → appends P (for_each f l).
Proof.
  intros Hf. induction l as [|x l IH]; simpl; [apply appends_ret|].
  apply appends_bind; [apply Hf|]. intros _. exact IH.
Qed.

Lemma appends_foldM {A S} (f : S → A → M S) (l : list A) :
  (∀ s x, appends P (f s x)) → ∀ s, appends P (foldM f s l).
Proof.
  intros Hf. induction l as [|x l IH]; intros s; simpl; [apply appends_ret|].
  apply appends_bind; [apply Hf|]. intros s'. apply IH.
Qed.

Lemma appends_weaken (Q : effect → Prop) {A} (m : M A) :
  (∀ e, Q e → P e) → appends Q m → appends P m.
Proof.
  intros HQP Hm w a w' Hrun. destruct (Hm w a w' Hrun) as (D & new & E & H).
  split; [done|]. exists new. split; [done|]. by eapply Forall_impl.
Qed.

End Appends.

Create HintDb appends discriminated.

#[local] Hint Resolve appends_ret appends_abort appends_gets appends_deref
  appends_load appends_store appends_modify_lb appends_update_child : appends.

Ltac appends_step :=
  first
    [ solve [auto 1 with appends nocore]
    | apply appends_emit; done
    | apply appends_modify; done
    | apply appends_bind; [|intros ?]
    | apply appends_for_each; intros ?
    | apply appends_foldM; intros ? ?
    | progress cbv zeta
    | progress case_match ].

Lemma aggregated_status_matches n cm :
  status_matches_state
    (ChannelUpdateState (aggregated_state n)
       (aggregated_status (aggregated_state n)) cm).
Proof.
  pose proof (aggregated_state_not_shutdown n).
  simpl. by destruct (aggregated_state n).
Qed.

(** The calls other than [UpdateLocked] instantiate no child policy. *)
Lemma calm_UpdateStateLocked : appends calm UpdateStateLocked.
Proof.
  unfold UpdateStateLocked, count_child, add_cluster_picker.
  repeat appends_step.
  apply appends_emit. split; [apply aggregated_status_matches|done].
Qed.

#[local] Hint Resolve calm_UpdateStateLocked : appends.

Lemma calm_Helper_call {channel : ChannelControlHelper}
    child h : appends calm (Helper_call child h).
Proof.
  destruct h; simpl;
    unfold Helper_UpdateState, Helper_CreateSubchannel,
      Helper_RequestReresolution, Helper_AddTraceEvent;
    repeat appends_step.
Qed.

#[local] Hint Resolve calm_Helper_call : appends.

Lemma calm_call_child_policy {channel : ChannelControlHelper} child_policy child c :
  appends calm (call_child_policy child_policy child c).
Proof. unfold call_child_policy. repeat appends_step. Qed.

#[local] Hint Resolve calm_call_child_policy : appends.

Lemma calm_Orphan child : appends calm (ClusterChild_Orphan child).
Proof. unfold ClusterChild_Orphan. repeat appends_step. Qed.

#[local] Hint Resolve calm_Orphan : appends.

Lemma calm_exec {channel : ChannelControlHelper} {map_clear : MapClear} child_policy e :
  (∀ u, e ≠ EvUpdate u) → appends calm (exec child_policy e).
Proof.
  intros Hne. destruct e; simpl.
  - by destruct (Hne u).
  - unfold ShutdownLocked. repeat appends_step.
  - unfold ExitIdleLocked, ClusterChild_ExitIdleLocked. repeat appends_step.
  - unfold ResetBackoffLocked, ClusterChild_ResetBackoffLocked.
    repeat appends_step.
  - apply calm_Helper_call.
  - unfold ClusterChild_OnDelayedRemovalTimerLocked, children_erase.
    repeat appends_step.
  - by apply appends_modify.
Qed.

Lemma calm_status e : calm e → status_matches_state e.
Proof. by intros [? _]. Qed.

Lemma appends_UpdateStateLocked : appends status_matches_state UpdateStateLocked.
Proof. exact (appends_weaken _ _ _ calm_status calm_UpdateStateLocked). Qed.

Lemma appends_call_child_policy {channel : ChannelControlHelper} child_policy child c :
  appends status_matches_state (call_child_policy child_policy child c).
Proof.
  exact (appends_weaken _ _ _ calm_status (calm_call_child_policy _ _ _)).
Qed.

#[local] Hint Resolve appends_UpdateStateLocked appends_call_child_policy : appends.

Lemma appends_exec {channel : ChannelControlHelper} {map_clear : MapClear} child_policy e :
  appends status_matches_state (exec child_policy e).
Proof.
  destruct e;
    try (apply (appends_weaken _ _ _ calm_status), calm_exec; discriminate).
  simpl.
  unfold UpdateLocked, deactivate_if_absent, add_or_update,
    ClusterChild_DeactivateLocked, ClusterChild_UpdateLocked,
    CreateChildPolicyLocked, new_ClusterChild.
  repeat appends_step.
Qed.

(** Every state and status that a reachable policy has published agree. *)
Lemma reachable_published_status {channel : ChannelControlHelper} {map_clear : MapClear}
    child_policy w :
  reachable child_policy w → Forall status_matches_state (trace w).
Proof.
  induction 1 as [t|w e w' _ IH Hgood Hrun]; [by constructor|].
  destruct (appends_exec child_policy e w tt w' Hrun) as (_ & new & E & Hnew).
  rewrite E. by apply Forall_app.
Qed.

(** * Instantiations of child policies *)

Lemma calm_creations new : Forall calm new → creations new = [].
Proof.
  induction 1 as [|e new [_ He] _ IH]; [done|].
  change (e :: new) with ([e] ++ new). rewrite creations_app, IH, app_nil_r.
  by destruct e.
Qed.

(** In every reachable state each record has instantiated at most one child
    policy, and the records that instantiated one exist. *)
Lemma reachable_creations {channel : ChannelControlHelper} {map_clear : MapClear}
    child_policy w :
  never_reports_shutdown child_policy →
  reachable child_policy w →
  NoDup (creations (trace w)).*1 ∧
  ∀ q, q ∈ (creations (trace w)).*1 → q ∈ dom (heap w).
Proof.
  intros Hsane. induction 1 as [t|w e w' Hreach [Hnd Hin] Hgood Hrun].
  { split; [constructor|]. intros q Hq. by apply elem_of_nil in Hq. }
  destruct (reachable_wf child_policy Hsane w Hreach) as [Hwf _].
  destruct e as [u| | | | | |];
    try (match type of Hrun with
         | exec _ ?e _ = _ =>
             assert (∀ u, e ≠ EvUpdate u) as Hne by (intros; discriminate);
             destruct (calm_exec child_policy e Hne w tt w' Hrun)
               as (Hdom & new & E & Hnew)
         end;
         rewrite E, creations_app, (calm_creations new Hnew), app_nil_r;
         split; [done|]; intros q Hq; apply Hdom; by apply Hin).
  simpl in Hrun.
  destruct (XdsClusterManagerLb.shutting_down_ (lb w)) eqn:Hsd.
  - rewrite (UpdateLocked_shut _ _ _ Hsd) in Hrun. by injection Hrun as <-.
  - destruct (UpdateLocked_spec child_policy Hsane u w Hsd Hwf)
      as (w'' & pub & Hrun' & _ & _ & _ & _ & _ & _ & _ & Hdom & new & E & Hnd' & Hnew).
    rewrite Hrun in Hrun'. injection Hrun' as <-.
    rewrite E, fmap_app. split.
    + apply NoDup_app. split; [done|]. split; [|done].
      intros q Hq Hq'. destruct (Hnew q Hq') as [Hfresh _]. by apply Hfresh, Hin.
    + intros q Hq. apply elem_of_app in Hq as [Hq|Hq].
      * by apply Hdom, Hin.
      * by destruct (Hnew q Hq).
Qed.

(** * The claims *)

(** C1: the aggregated state that [UpdateStateLocked] computes from its
    counters is determined by the records of configured names only, by
    strict priority: READY if one of them is READY, else CONNECTING if one is
    CONNECTING, else IDLE if one is IDLE, else TRANSIENT_FAILURE; records
    whose name is not in the configuration (those pending removal) do not
    count.  In every state in which the recomputation goes through (no
    update in progress, a configuration present, a record in one of the four
    states for each configured name), this is the state it publishes. *)
Theorem aggregate_by_priority (w : World) :
  (∀ n w',
     foldM count_child (mkCounts 0 0 0 0)
       (entries (XdsClusterManagerLb.children_ (lb w))) w = Done n w' →
     chosen_by_priority w (aggregated_state n)) ∧
  (recomputable w →
   ∃ st status picker,
     UpdateStateLocked w =
       Done tt (set_trace (trace w ++ [ChannelUpdateState st status picker]) w) ∧
     chosen_by_priority w st).
Proof.
  split.
  - intros n w' Hcount. apply count_fold_Done in Hcount as (_ & _ & Htally).
    pose proof (tally_any_configured w n Htally) as Hany.
    unfold chosen_by_priority. rewrite <- !Hany. apply aggregated_state_priority.
  - intros Hrec. destruct (UpdateStateLocked_total w Hrec) as [w' Hw'].
    destruct (UpdateStateLocked_Done w w' (proj1 Hrec) Hw')
      as (cfg & n & cm & Hcfg & -> & Htally & _).
    exists (aggregated_state n), (aggregated_status (aggregated_state n)), cm.
    split; [done|]. unfold chosen_by_priority. rewrite <- !Htally.
    apply aggregated_state_priority.
Qed.

Lemma aggregate_by_priority_witness :
  recomputable world_B_deactivated ∧
  ∃ st status picker,
    UpdateStateLocked world_B_deactivated =
      Done tt (set_trace (trace world_B_deactivated
                          ++ [ChannelUpdateState st status picker])
                 world_B_deactivated) ∧
    st = GRPC_CHANNEL_CONNECTING.
Proof.
  assert (recomputable world_B_deactivated) as Hrec.
  { apply recomputable_check_sound. vm_compute. reflexivity. }
  split; [exact Hrec|].
  destruct (proj2 (aggregate_by_priority world_B_deactivated) Hrec)
    as (st & status & picker & Hrun & _).
  exists st, status, picker. split; [exact Hrun|].
  vm_compute in Hrun. injection Hrun as Hst _ _. symmetry. exact Hst.
Defined.

(** C3: the picker map of every publication of [UpdateStateLocked] has
    exactly the names of the configuration it was built from as keys, and
    the entry of a configured name whose record holds no picker yet is a
    wrapper around a [QueuePicker], on which a pick is queued, not failed. *)
Theorem published_picker_keys (w w' : World) :
  XdsClusterManagerLb.update_in_progress_ (lb w) = false →
  UpdateStateLocked w = Done tt w' →
  ∃ cfg st status cm,
    XdsClusterManagerLb.config_ (lb w) = Some cfg ∧
    trace w' = trace w ++ [ChannelUpdateState st status cm] ∧
    dom cm = dom cfg ∧
    ∀ name c, configured_child w name c →
      cm !! name = Some (default (ChildPickerWrapper.mk name QueuePicker)
                                 (ClusterChild.picker_wrapper_ c)) ∧
      (ClusterChild.picker_wrapper_ c = None →
       cm !! name = Some (ChildPickerWrapper.mk name QueuePicker) ∧
       ∀ child_picker attribute a w0,
         GetCallAttribute (call_state a) attribute = name →
         ClusterPicker_Pick child_picker attribute cm a w0 = (Queue, w0)).
Proof.
  intros Hflag Hrun.
  destruct (UpdateStateLocked_Done w w' Hflag Hrun)
    as (cfg & n & cm & Hcfg & -> & _ & _ & Hent & Hcm).
  exists cfg, (aggregated_state n), (aggregated_status (aggregated_state n)), cm.
  split; [done|]. split; [done|]. split.
  - apply set_eq. intros name. rewrite !elem_of_dom, Hcm.
    case_decide as Hin; [|by rewrite <- not_eq_None_Some in *].
    split; [done|]. intros _. by apply Hent.
  - intros name c Hc.
    assert (cm !! name = Some (default (ChildPickerWrapper.mk name QueuePicker)
                                       (ClusterChild.picker_wrapper_ c))) as Hname.
    { rewrite Hcm, <- (configured_child_entry _ _ _ Hc).
      destruct Hc as (cfg' & ptr & Hcfg' & Hin & _).
      rewrite Hcfg in Hcfg'. injection Hcfg' as <-. by rewrite decide_True. }
    split; [done|]. intros Hnone. rewrite Hnone in Hname. split; [done|].
    intros child_picker attribute a w0 Ha. unfold ClusterPicker_Pick. rewrite Ha.
    simpl. by rewrite Hname.
Qed.

Lemma published_picker_keys_witness :
  ∃ w', UpdateStateLocked world_AB = Done tt w' ∧
    ∃ cfg st status cm,
      XdsClusterManagerLb.config_ (lb world_AB) = Some cfg ∧
      trace w' = trace world_AB ++ [ChannelUpdateState st status cm] ∧
      dom cm = dom cfg.
Proof.
  destruct (UpdateStateLocked world_AB) as [[] w'|f] eqn:Hrun;
    [|vm_compute in Hrun; discriminate Hrun].
  exists w'. split; [reflexivity|].
  destruct (published_picker_keys world_AB w' eq_refl Hrun)
    as (cfg & st & status & cm & Hcfg & Htrace & Hdom & _).
  exists cfg, st, status, cm. auto.
Defined.

(** C6: the status of every publication of [UpdateStateLocked] is
    Unavailable exactly when the published state is TRANSIENT_FAILURE, and
    the default OK status otherwise; the published state is
    TRANSIENT_FAILURE exactly when every record of a configured name is in
    TRANSIENT_FAILURE.  Nothing else publishes: in the trace of every
    reachable state, each published state has the matching status. *)
Theorem published_status {channel : ChannelControlHelper} {map_clear : MapClear} :
  (∀ w w',
     XdsClusterManagerLb.update_in_progress_ (lb w) = false →
     UpdateStateLocked w = Done tt w' →
     ∃ st status cm,
       trace w' = trace w ++ [ChannelUpdateState st status cm] ∧
       (code status = kUnavailable ↔ st = GRPC_CHANNEL_TRANSIENT_FAILURE) ∧
       (st ≠ GRPC_CHANNEL_TRANSIENT_FAILURE → status = OkStatus) ∧
       (st = GRPC_CHANNEL_TRANSIENT_FAILURE ↔
        ∀ name c, configured_child w name c →
          ClusterChild.connectivity_state_ c = GRPC_CHANNEL_TRANSIENT_FAILURE)) ∧
  (∀ child_policy w st status cm,
     reachable child_policy w →
     ChannelUpdateState st status cm ∈ trace w →
     (code status = kUnavailable ↔ st = GRPC_CHANNEL_TRANSIENT_FAILURE) ∧
     (st ≠ GRPC_CHANNEL_TRANSIENT_FAILURE → status = OkStatus)).
Proof.
  split.
  - intros w w' Hflag Hrun.
    destruct (UpdateStateLocked_Done w w' Hflag Hrun)
      as (cfg & n & cm & Hcfg & -> & Htally & Hns & _).
    exists (aggregated_state n), (aggregated_status (aggregated_state n)), cm.
    split; [done|]. split; [|split].
    + pose proof (aggregated_state_not_shutdown n).
      by destruct (aggregated_state n).
    + by destruct (aggregated_state n).
    + rewrite aggregated_state_failure, !Htally. split.
      * intros (Hr & Hc & Hi) name c Hconf.
        destruct (ClusterChild.connectivity_state_ c) eqn:Hst; try done.
        -- destruct Hi. by exists name, c.
        -- destruct Hc. by exists name, c.
        -- destruct Hr. by exists name, c.
        -- by destruct (Hns name c Hconf).
      * intros Hall. repeat split; intros (name & c & Hconf & Hst);
          rewrite (Hall name c Hconf) in Hst; discriminate Hst.
  - intros child_policy w st status cm Hreach Hin.
    pose proof (reachable_published_status child_policy w Hreach) as Hall.
    rewrite Forall_forall in Hall. exact (Hall _ Hin).
Qed.

Lemma published_status_witness :
  ∃ w', UpdateStateLocked world_A_failed = Done tt w' ∧
    ∃ st status cm,
      trace w' = trace world_A_failed ++ [ChannelUpdateState st status cm] ∧
      st = GRPC_CHANNEL_TRANSIENT_FAILURE ∧ code status = kUnavailable.
Proof.
  destruct (UpdateStateLocked world_A_failed) as [[] w'|f] eqn:Hrun;
    [|vm_compute in Hrun; discriminate Hrun].
  exists w'. split; [reflexivity|].
  destruct (proj1 (published_status (channel := example_channel)
                      (map_clear := libstdcxx_clear))
              world_A_failed w' eq_refl Hrun)
    as (st & status & cm & Htrace & Hcode & _ & _).
  exists st, status, cm. split; [exact Htrace|].
  assert (st = GRPC_CHANNEL_TRANSIENT_FAILURE) as Hst.
  { vm_compute in Hrun. injection Hrun as <-. vm_compute in Htrace.
    injection Htrace as Hst _ _. symmetry. exact Hst. }
  split; [exact Hst|]. apply Hcode, Hst.
Defined.





(** [ClusterChild::UpdateLocked], run for a record while an update is
    propagated, leaves the record not pending and owning a child policy,
    and leaves [children_] as it was.  The child policy is instantiated by
    this call only if the record had none; a record that has one keeps that
    very instance.  If the pending flag of the record was set, the timer is
    cancelled, and a callback that runs right after with an error leaves the
    state as it is.  Over a whole run, no record instantiates a child policy
    twice. *)
Lemma reactivation_reuses_child_policy {channel : ChannelControlHelper} {map_clear : MapClear}
    (child_policy : World → policy_call → list helper_call) :
  (∀ (child : child_ptr) (cfgv : LbConfig) (addrs : Status + ServerAddressList)
     (a : ChannelArgs) (w : World) (c : ClusterChild.t),
     XdsClusterManagerLb.shutting_down_ (lb w) = false →
     XdsClusterManagerLb.update_in_progress_ (lb w) = true →
     heap w !! child = Some c →
     ∃ w' c' new,
       ClusterChild_UpdateLocked child_policy child cfgv addrs a w = Done tt w' ∧
       lb w' = lb w ∧
       trace w' = trace w ++ new ∧
       heap w' !! child = Some c' ∧
       ClusterChild.name_ c' = ClusterChild.name_ c ∧
       ClusterChild.shutdown_ c' = ClusterChild.shutdown_ c ∧
       ClusterChild.delayed_removal_timer_callback_pending_ c' = false ∧
       ClusterChild.child_policy_ c' =
         Some (default (next_policy w) (ClusterChild.child_policy_ c)) ∧
       creations new =
         match ClusterChild.child_policy_ c with
         | Some _ => []
         | None => [(child, next_policy w)]
         end ∧
       (ClusterChild.delayed_removal_timer_callback_pending_ c = true →
        TimerCancel child ∈ new) ∧
       ∀ error, GRPC_ERROR_IS_NONE error = false →
         ClusterChild_OnDelayedRemovalTimerLocked child error w' = Done tt w') ∧
  (never_reports_shutdown child_policy →
   ∀ w, reachable child_policy w → NoDup (creations (trace w)).*1).
Proof.
  split; [|intros Hsane w Hreach;
           by destruct (reachable_creations child_policy w Hsane Hreach)].
  intros child cfgv addrs a w c Hsd Hflag Hc.
  destruct (ClusterChild_UpdateLocked_propagating child_policy child cfgv addrs a
              w c Hsd Hflag Hc) as (hs & w1 & Hhs & Hrun).
  eexists _, _, _. split; [exact Hrun|]. cbn [lb heap trace].
  split; [done|]. split; [done|]. rewrite lookup_insert_eq.
  split; [done|].
  match goal with |- context [foldl absorb ?c0 hs] =>
    destruct (absorb_lifecycle c0 hs) as (Hn & Hp & Hpend & Hs);
    set (c' := foldl absorb c0 hs) in *
  end.
  simpl in Hn, Hp, Hpend, Hs.
  split; [done|]. split; [done|]. split; [done|]. split; [done|]. split; [|split].
  - rewrite !creations_app, creations_forwarded, app_nil_r.
    unfold reactivation_effects.
    by destruct (ClusterChild.delayed_removal_timer_callback_pending_ c),
      (ClusterChild.child_policy_ c).
  - intros Hwas. unfold reactivation_effects. rewrite Hwas.
    apply elem_of_app. left. apply elem_of_app. left.
    by apply list_elem_of_singleton.
  - intros error Herr.
    erewrite OnDelayedRemovalTimerLocked_noop;
      [|cbn [heap]; apply lookup_insert_eq|by left].
    cbn [lb heap trace next_policy now]. rewrite insert_insert_eq.
    do 3 f_equal. destruct c'. simpl in *. by subst.
Qed.

(** C7 fails on the code.  B leaves the configuration, comes back and
    leaves again, and the callback of the timer cancelled in between runs
    only then: it clears the pending flag although the timer armed last is
    running.  When B comes back at time 2000, long before that timer expires
    at 901000, [ClusterChild::UpdateLocked] finds the flag clear and does not
    cancel the timer.  The timer expires, its callback runs with no error
    and erases the record of B, which is configured, and resets its child
    policy.  The next update files a new record for B and instantiates a
    child policy for B a second time. *)
Theorem reintroduced_child_removed :
  ∃ w1 w2 w3 w4 c1,
    run quiet_policy stale_cancellation_calls (initial_world 0) = Done tt w1 ∧
    XdsClusterManagerLb.config_ (lb w1) = Some config_A ∧
    XdsClusterManagerLb.children_ (lb w1) !! "B" = Some 1 ∧
    heap w1 !! 1 = Some c1 ∧
    ClusterChild.delayed_removal_timer_callback_pending_ c1 = false ∧
    timer_calls (trace w1) = [TimerInit 1 900000; TimerCancel 1; TimerInit 1 901000] ∧
    run quiet_policy [EvClock 2000; EvUpdate (update_with config_AB)] w1 = Done tt w2 ∧
    timer_calls (trace w2) = timer_calls (trace w1) ∧
    XdsClusterManagerLb.children_ (lb w2) !! "B" = Some 1 ∧
    run quiet_policy [EvClock 901000; EvTimer 1 GRPC_ERROR_NONE] w2 = Done tt w3 ∧
    XdsClusterManagerLb.config_ (lb w3) = Some config_AB ∧
    XdsClusterManagerLb.children_ (lb w3) !! "B" = None ∧
    ChildPolicyReset 1 ∈ trace w3 ∧
    run quiet_policy [EvUpdate (update_with config_AB)] w3 = Done tt w4 ∧
    XdsClusterManagerLb.children_ (lb w4) !! "B" = Some 2 ∧
    creations (trace w4) = [(0, 0); (1, 1); (2, 2)].
Proof.
  destruct (run quiet_policy stale_cancellation_calls (initial_world 0))
    as [[] w1|f] eqn:Hrun1; [|vm_compute in Hrun1; discriminate Hrun1].
  vm_compute in Hrun1. injection Hrun1 as <-.
  eexists _, _, _, _, _.
  split; [reflexivity|].
  split; [vm_compute; reflexivity|]. split; [vm_compute; reflexivity|].
  split; [vm_compute; reflexivity|]. split; [reflexivity|].
  split; [vm_compute; reflexivity|].
  split; [vm_compute; reflexivity|].
  split; [vm_compute; reflexivity|]. split; [vm_compute; reflexivity|].
  split; [vm_compute; reflexivity|].
  split; [vm_compute; reflexivity|]. split; [vm_compute; reflexivity|].
  split; [|split; [vm_compute; reflexivity|split; vm_compute; reflexivity]].
  apply list_elem_of_In. vm_compute. tauto.
Qed.

(** When the delayed-removal timer callback of a record runs with an error
    or on a record that [Orphan] has already shut down, the policy object,
    and with it [children_], is left as it was, and no call is made; the
    pending flag of the record is cleared.  When it runs with no error on a
    record that is not shut down and is filed under its name, exactly that
    entry is erased from [children_] and the record is orphaned once.  So
    [children_] changes only if the error is none and the record is not
    shut down. *)
Lemma timer_firing (child : child_ptr) (error : grpc_error_handle)
    (w : World) (c : ClusterChild.t) :
  heap w !! child = Some c →
  (GRPC_ERROR_IS_NONE error = false ∨ ClusterChild.shutdown_ c = true →
   ∃ w', ClusterChild_OnDelayedRemovalTimerLocked child error w = Done tt w' ∧
         lb w' = lb w ∧ trace w' = trace w ∧
         heap w' = <[child := ClusterChild.set_delayed_removal_timer_callback_pending_
                                 false c]> (heap w)) ∧
  (GRPC_ERROR_IS_NONE error = true → ClusterChild.shutdown_ c = false →
   ∀ pid, ClusterChild.child_policy_ c = Some pid →
   XdsClusterManagerLb.children_ (lb w) !! ClusterChild.name_ c = Some child →
   ∃ w', ClusterChild_OnDelayedRemovalTimerLocked child error w = Done tt w' ∧
         XdsClusterManagerLb.children_ (lb w') =
           delete (ClusterChild.name_ c) (XdsClusterManagerLb.children_ (lb w)) ∧
         trace w' = trace w ++ [PollsetSetDel pid; ChildPolicyReset pid] ∧
         heap w' !! child =
           Some (orphaned (ClusterChild.set_delayed_removal_timer_callback_pending_
                             false c))) ∧
  (∀ w', ClusterChild_OnDelayedRemovalTimerLocked child error w = Done tt w' →
         XdsClusterManagerLb.children_ (lb w') ≠ XdsClusterManagerLb.children_ (lb w) →
         GRPC_ERROR_IS_NONE error = true ∧ ClusterChild.shutdown_ c = false).
Proof.
  intros Hc. split; [|split].
  - intros Hcase. rewrite (OnDelayedRemovalTimerLocked_noop _ _ _ _ Hc Hcase).
    eexists. split; [reflexivity|]. done.
  - intros Herr Hsh pid Hpid Hname. destruct error; try discriminate Herr.
    rewrite (OnDelayedRemovalTimerLocked_erases _ _ _ _ Hc Hsh Hpid Hname).
    eexists. split; [reflexivity|]. cbn [lb heap trace].
    split; [done|]. split; [done|]. apply lookup_insert_eq.
  - intros w' Hrun Hchanged.
    destruct (GRPC_ERROR_IS_NONE error) eqn:Herr.
    + destruct (ClusterChild.shutdown_ c) eqn:Hsh; [|done].
      rewrite (OnDelayedRemovalTimerLocked_noop _ _ _ _ Hc (or_intror Hsh)) in Hrun.
      injection Hrun as <-. by destruct Hchanged.
    + rewrite (OnDelayedRemovalTimerLocked_noop _ _ _ _ Hc (or_introl Herr)) in Hrun.
      injection Hrun as <-. by destruct Hchanged.
Qed.

(** C8 fails on the code.  First, the callback of a timer that
    [ClusterChild::UpdateLocked] has cancelled may still run with no error,
    having been queued before the cancellation: it then erases the record,
    here that of the configured B, and resets its child policy.  Second, the
    callback of a cancelled timer is not without effect: it clears the
    pending flag, here that of a record whose timer has been armed anew, so
    that the record no longer counts as pending removal. *)
Theorem cancelled_timer_firing_not_ignored :
  (∃ w w' c,
     run quiet_policy
       [EvUpdate (update_with config_AB); EvUpdate (update_with config_A);
        EvUpdate (update_with config_AB)] (initial_world 0) = Done tt w ∧
     timer_calls (trace w) = [TimerInit 1 900000; TimerCancel 1] ∧
     XdsClusterManagerLb.config_ (lb w) = Some config_AB ∧
     XdsClusterManagerLb.children_ (lb w) !! "B" = Some 1 ∧
     heap w !! 1 = Some c ∧ ClusterChild.shutdown_ c = false ∧
     ClusterChild_OnDelayedRemovalTimerLocked 1 GRPC_ERROR_NONE w = Done tt w' ∧
     XdsClusterManagerLb.children_ (lb w') !! "B" = None ∧
     trace w' = trace w ++ [PollsetSetDel 1; ChildPolicyReset 1]) ∧
  (∃ w w' c c',
     run quiet_policy twice_deactivated_calls (initial_world 0) = Done tt w ∧
     timer_calls (trace w) = [TimerInit 1 900000; TimerCancel 1; TimerInit 1 901000] ∧
     heap w !! 1 = Some c ∧
     ClusterChild.delayed_removal_timer_callback_pending_ c = true ∧
     ClusterChild_OnDelayedRemovalTimerLocked 1 GRPC_ERROR_CANCELLED w = Done tt w' ∧
     lb w' = lb w ∧ trace w' = trace w ∧
     heap w' !! 1 = Some c' ∧
     ClusterChild.delayed_removal_timer_callback_pending_ c' = false ∧
     w' ≠ w).
Proof.
  split.
  - eexists _, _, _.
    split; [vm_compute; reflexivity|]. split; [vm_compute; reflexivity|].
    split; [vm_compute; reflexivity|]. split; [vm_compute; reflexivity|].
    split; [vm_compute; reflexivity|]. split; [reflexivity|].
    split; [vm_compute; reflexivity|]. split; vm_compute; reflexivity.
  - eexists _, _, _, _.
    split; [vm_compute; reflexivity|]. split; [vm_compute; reflexivity|].
    split; [vm_compute; reflexivity|]. split; [reflexivity|].
    split; [vm_compute; reflexivity|]. split; [vm_compute; reflexivity|].
    split; [vm_compute; reflexivity|]. split; [vm_compute; reflexivity|].
    split; [reflexivity|].
    intros Heq. apply (f_equal (λ w0, heap w0 !! 1)) in Heq.
    vm_compute in Heq. discriminate Heq.
Qed.

(** C9, as the code has it: [ShutdownLocked] sets [shutting_down_], orphans
    every record of [children_] (resetting its child policy and cancelling
    its removal timer if one is pending) and empties [children_]; it keeps
    [config_].  A second [ShutdownLocked] changes nothing, and afterwards
    [UpdateLocked], [ExitIdleLocked], [ResetBackoffLocked] and every helper
    call return with the state and the trace unchanged. *)
Theorem shutdown_then_no_ops {channel : ChannelControlHelper} {map_clear : MapClear}
    (child_policy : World → policy_call → list helper_call) (w : World) :
  wf w →
  ∃ w',
    ShutdownLocked w = Done tt w' ∧
    XdsClusterManagerLb.shutting_down_ (lb w') = true ∧
    XdsClusterManagerLb.children_ (lb w') = ∅ ∧
    XdsClusterManagerLb.config_ (lb w') = XdsClusterManagerLb.config_ (lb w) ∧
    (∀ name ptr, XdsClusterManagerLb.children_ (lb w) !! name = Some ptr →
       ∃ c pid, heap w !! ptr = Some c ∧ ClusterChild.child_policy_ c = Some pid ∧
                heap w' !! ptr = Some (orphaned c) ∧
                ChildPolicyReset pid ∈ trace w' ∧
                (ClusterChild.delayed_removal_timer_callback_pending_ c = true →
                 TimerCancel ptr ∈ trace w')) ∧
    ShutdownLocked w' = Done tt w' ∧
    (∀ u, UpdateLocked child_policy u w' = Done tt w') ∧
    ExitIdleLocked child_policy w' = Done tt w' ∧
    ResetBackoffLocked child_policy w' = Done tt w' ∧
    (∀ child h, Helper_call child h w' = Done tt w').
Proof.
  intros Hwf.
  destruct (ShutdownLocked_spec w Hwf) as (w' & Hrun & Hlb & _ & Hall).
  assert (shut w') as Hshut by (unfold shut; by rewrite Hlb).
  exists w'. split; [done|]. rewrite Hlb. cbn.
  split; [done|]. split; [done|]. split; [done|]. split; [done|].
  split; [by apply ShutdownLocked_shut|].
  split; [intros u; apply UpdateLocked_shut, Hshut|].
  split; [by apply ExitIdleLocked_shut|].
  split; [by apply ResetBackoffLocked_shut|].
  intros child h. apply Helper_call_shut, Hshut.
Qed.

Lemma shutdown_then_no_ops_witness :
  ∃ w', ShutdownLocked (map_clear := libstdcxx_clear) world_AB = Done tt w' ∧
        XdsClusterManagerLb.shutting_down_ (lb w') = true ∧
        XdsClusterManagerLb.children_ (lb w') = ∅ ∧
        UpdateLocked (channel := example_channel)
            eager_policy (update_with config_A) w' = Done tt w'.
Proof.
  assert (wf world_AB) as Hwf.
  { apply (bool_decide_unpack _). vm_compute. exact I. }
  destruct (shutdown_then_no_ops (channel := example_channel) (map_clear := libstdcxx_clear)
      eager_policy world_AB Hwf)
    as (w' & Hrun & Hsd & Hch & _ & _ & _ & Hupd & _).
  exists w'. split; [exact Hrun|]. split; [exact Hsd|]. split; [exact Hch|].
  apply Hupd.
Defined.

(** C9 as the claim states it fails: after [ShutdownLocked] the
    configuration is still held. *)
Lemma shutdown_keeps_config :
  ShutdownLocked (map_clear := libstdcxx_clear) world_AB = Done tt world_AB_shut ∧
  XdsClusterManagerLb.config_ (lb world_AB_shut) = Some config_AB ∧
  XdsClusterManagerLb.config_ (lb world_AB_shut) ≠ None.
Proof. split; [vm_compute; reflexivity|]. split; [reflexivity|discriminate]. Qed.

(** C2: a state change that the child policy of a record reports to a
    policy that is not shut down is recorded before the aggregate is
    recomputed: the new picker is cached whatever the state, and the
    record's state becomes the reported one unless it was TRANSIENT_FAILURE
    and the reported one is not READY, in which case it stays
    TRANSIENT_FAILURE.  Once the policy is shut down a report is the no-op
    that every call is then. *)
Theorem state_change_recorded (child : child_ptr)
    (st : grpc_connectivity_state) (status : Status) (pk : SubchannelPicker)
    (w : World) (c : ClusterChild.t) :
  heap w !! child = Some c →
  let c' := latch_state st (cache_picker pk c) in
  ClusterChild.picker_wrapper_ c' =
    Some (ChildPickerWrapper.mk (ClusterChild.name_ c) pk) ∧
  ClusterChild.connectivity_state_ c' =
    (if decide (ClusterChild.connectivity_state_ c = GRPC_CHANNEL_TRANSIENT_FAILURE ∧
                st ≠ GRPC_CHANNEL_READY)
     then GRPC_CHANNEL_TRANSIENT_FAILURE else st) ∧
  (XdsClusterManagerLb.shutting_down_ (lb w) = false →
   Helper_UpdateState child st status pk w =
     UpdateStateLocked (set_heap (<[child := c']> (heap w)) w) ∧
   ∀ w', Helper_UpdateState child st status pk w = Done tt w' →
         heap w' !! child = Some c') ∧
  (XdsClusterManagerLb.shutting_down_ (lb w) = true →
   Helper_UpdateState child st status pk w = Done tt w).
Proof.
  intros Hc c'. split; [|split; [|split]].
  - unfold c', latch_state, cache_picker. by case_match.
  - unfold c'. by rewrite latch_state_state.
  - intros Hsd.
    pose proof (Helper_UpdateState_live child st status pk w c Hsd Hc) as Heq.
    fold c' in Heq.
    split; [exact Heq|]. intros w' Hrun. rewrite Heq in Hrun.
    apply UpdateStateLocked_frame in Hrun as [_ ->]. apply lookup_insert_eq.
  - intros Hsd. unfold Helper_UpdateState. unfold_monad. by rewrite Hsd.
Qed.

Lemma state_change_recorded_witness :
  ∃ w' c1 c2 c3,
    Helper_UpdateState 0 GRPC_CHANNEL_CONNECTING OkStatus (ChildPolicyPicker 12)
      world_A_failed = Done tt w' ∧
    heap world_A_failed !! 0 = Some c1 ∧
    heap w' !! 0 = Some c2 ∧
    ClusterChild.connectivity_state_ c1 = GRPC_CHANNEL_TRANSIENT_FAILURE ∧
    ClusterChild.connectivity_state_ c2 = GRPC_CHANNEL_TRANSIENT_FAILURE ∧
    ClusterChild.picker_wrapper_ c2 = Some (ChildPickerWrapper.mk "A" (ChildPolicyPicker 12)) ∧
    c3 = latch_state GRPC_CHANNEL_READY c2 ∧
    ClusterChild.connectivity_state_ c3 = GRPC_CHANNEL_READY.
Proof.
  assert (heap world_A_failed !! 0 =
            Some (ClusterChild.mk "A" (Some 0)
                    (Some (ChildPickerWrapper.mk "A" (ChildPolicyPicker 10)))
                    GRPC_CHANNEL_TRANSIENT_FAILURE false false)) as Hc.
  { vm_compute. reflexivity. }
  destruct (state_change_recorded 0 GRPC_CHANNEL_CONNECTING OkStatus
              (ChildPolicyPicker 12) world_A_failed _ Hc)
    as (Hpk & Hst & Hlive & _).
  destruct (Hlive eq_refl) as [_ Hafter].
  destruct (Helper_UpdateState 0 GRPC_CHANNEL_CONNECTING OkStatus
              (ChildPolicyPicker 12) world_A_failed) as [[] w'|f] eqn:Hrun;
    [|vm_compute in Hrun; discriminate Hrun].
  eexists w', _, _, _. split; [reflexivity|]. split; [exact Hc|].
  split; [exact (Hafter w' eq_refl)|]. split; [reflexivity|].
  split; [exact Hst|]. split; [exact Hpk|]. split; reflexivity.
Defined.

(** C10 fails on the code.  B is removed from the configuration and brought
    back; the removal timer's firing with no error runs after the update
    that reactivated B and erases B's record although B is configured.  The
    state reached is one in which a configured name has no record, and the
    next recomputation, here triggered by a state change of A, looks B up in
    [children_] and dereferences the null entry. *)
Theorem reactivation_race_null_dereference :
  (∃ w, reactivation_race = Done tt w ∧
        reachable (channel := example_channel) (map_clear := libstdcxx_clear)
            quiet_policy w ∧
        XdsClusterManagerLb.config_ (lb w) = Some config_AB ∧
        XdsClusterManagerLb.update_in_progress_ (lb w) = false ∧
        XdsClusterManagerLb.shutting_down_ (lb w) = false ∧
        XdsClusterManagerLb.children_ (lb w) !! "B" = None ∧
        ¬ configured_present w) ∧
  and_then reactivation_race
    (Helper_UpdateState 0 GRPC_CHANNEL_READY OkStatus (ChildPolicyPicker 12))
    = Abort NullDereference.
Proof.
  split; [|vm_compute; reflexivity].
  destruct reactivation_race as [[] w|f] eqn:Hrun;
    [|vm_compute in Hrun; discriminate Hrun].
  exists w. split; [reflexivity|]. split.
  { apply (reachable_run quiet_policy reactivation_race_calls (initial_world 0) w).
    - apply reachable_initial.
    - by repeat constructor.
    - exact Hrun. }
  vm_compute in Hrun. injection Hrun as <-.
  split; [vm_compute; reflexivity|]. split; [reflexivity|].
  split; [reflexivity|]. split; [vm_compute; reflexivity|].
  intros Hpresent.
  destruct (Hpresent config_AB "B") as [ptr Hptr].
  - vm_compute. reflexivity.
  - exists "polY". vm_compute. reflexivity.
  - vm_compute in Hptr. discriminate Hptr.
Qed.

(** * Further properties *)

(** ** The factory *)

Lemma StrJoin_cons s l sep :
  l ≠ [] → StrJoin (s :: l) sep = String.append s (String.append sep (StrJoin l sep)).
Proof. by destruct l. Qed.

Lemma contains_refl s : contains s s.
Proof. exists EmptyString, EmptyString. by rewrite string_app_empty_r. Qed.

Lemma contains_app_l s t u : contains t s → contains (String.append t u) s.
Proof.
  intros (pre & post & ->). exists pre, (String.append post u).
  by rewrite <- !string_app_assoc.
Qed.

Lemma contains_app_r s t u : contains t s → contains (String.append u t) s.
Proof.
  intros (pre & post & ->). exists (String.append u pre), post.
  by rewrite <- !string_app_assoc.
Qed.

Lemma StrJoin_contains e l sep : e ∈ l → contains (StrJoin l sep) e.
Proof.
  induction l as [|s l IH]; [by intros ?%elem_of_nil|].
  intros [->|Hin]%elem_of_cons.
  - destruct l as [|s' l]; [apply contains_refl|].
    rewrite StrJoin_cons by done. apply contains_app_l, contains_refl.
  - destruct l as [|s' l]; [by apply elem_of_nil in Hin|].
    rewrite StrJoin_cons by done. by apply contains_app_r, contains_app_r, IH.
Qed.

Lemma omap_nil_Forall {A B} (f : A → option B) (l : list A) :
  omap f l = [] ↔ Forall (λ x, f x = None) l.
Proof.
  induction l as [|x l IH]; simpl; [by split; [constructor|]|].
  destruct (f x) eqn:Hx; split.
  - done.
  - intros HF. apply Forall_cons in HF as [HF _]. congruence.
  - intros Hl. constructor; [done|]. by apply IH.
  - intros HF. apply Forall_cons in HF as [_ HF]. by apply IH.
Qed.

Lemma list_to_map_entries {V} (m : gmap string V) : list_to_map (entries m) = m.
Proof.
  unfold entries. rewrite <- (list_to_map_to_list m) at 2.
  apply list_to_map_proper.
  - apply NoDup_entries.
  - apply merge_sort_Permutation.
Qed.

Section FactoryProofs.
Context {Json : Type} `{JsonOps Json}.
Variable registry : Json → Status + LbConfig.
Variable null_config : LbConfig.


Lemma ParseChildConfig_cases json :
  ParseChildConfig registry null_config json =
    if decide (Json_type json = OBJECT) then
      match object_value json !! "childPolicy" with
      | None => inl (InvalidArgumentError "did not find childPolicy")
      | Some it =>
          match registry it with
          | inl status =>
              inl (InvalidArgumentError
                     (String.append "field:childPolicy error:" (message status)))
          | inr config => inr config
          end
      end
    else inl (InvalidArgumentError "value should be of type object").
Proof.
  unfold ParseChildConfig.
  destruct (decide (Json_type json = OBJECT)) as [Hobj|Hobj].
  - rewrite bool_decide_eq_false_2 by (by intros ?).
    destruct (object_value json !! "childPolicy") as [it|]; [|done].
    by destruct (registry it).
  - by rewrite bool_decide_eq_true_2.
Qed.

Lemma child_error_value p :
  (child_error registry null_config) p = None ↔ is_Some ((child_value registry null_config) p.1 p.2).
Proof.
  unfold child_error, child_value. destruct (decide (p.1 = EmptyString)).
  - split; [done|]. by intros [? ?].
  - destruct (ParseChildConfig registry null_config p.2); split; try done;
      try (by intros [? ?]); by eexists.
Qed.

Lemma parse_fold_errors l : ∀ s,
  ParseState.errors (foldl (parse_child registry null_config) s l) = ParseState.errors s ++ omap (child_error registry null_config) l.
Proof.
  induction l as [|p l IH]; intros s; simpl; [by rewrite app_nil_r|].
  rewrite IH. unfold parse_child, child_error.
  rewrite (bool_decide_decide (p.1 = EmptyString)).
  destruct (decide (p.1 = EmptyString)); simpl; [by rewrite <- app_assoc|].
  destruct (ParseChildConfig registry null_config p.2); simpl; [by rewrite <- app_assoc|done].
Qed.

Lemma parse_fold_cluster_map l : ∀ s,
  NoDup l.*1 →
  ParseState.cluster_map (foldl (parse_child registry null_config) s l) =
    map_imap (child_value registry null_config) (list_to_map l) ∪ ParseState.cluster_map s.
Proof.
  induction l as [|[name v] l IH]; intros s Hnd.
  { simpl. by rewrite map_imap_empty, (left_id_L ∅ (∪)). }
  rewrite fmap_cons in Hnd. apply NoDup_cons in Hnd as [Hname Hnd].
  simpl. rewrite IH by done.
  assert ((list_to_map l : gmap string Json) !! name = None) as Hfresh.
  { by apply not_elem_of_list_to_map_1. }
  assert (map_imap (child_value registry null_config)
            (list_to_map l : gmap string Json) !! name = None) as Hfresh'.
  { by rewrite map_lookup_imap, Hfresh. }
  rewrite map_imap_insert. unfold parse_child, child_value. simpl.
  rewrite (bool_decide_decide (name = EmptyString)).
  destruct (decide (name = EmptyString)) as [Hempty|Hempty]; simpl.
  - by rewrite delete_id.
  - destruct (ParseChildConfig registry null_config v) as [st|c] eqn:Hv; simpl.
    + by rewrite delete_id.
    + by rewrite <- insert_union_r, insert_union_l.
Qed.


Lemma ParseLoadBalancingConfig_object json it :
  Json_type json ≠ JSON_NULL →
  object_value json !! "children" = Some it → Json_type it = OBJECT →
  ParseLoadBalancingConfig registry null_config json =
    let errs := omap (child_error registry null_config) (entries (object_value it)) in
    let cm := map_imap (child_value registry null_config) (object_value it) in
    let errs' := if decide (cm = ∅) then errs ++ ["no valid children configured"]
                 else errs in
    if decide (errs' = []) then inr cm
    else inl (InvalidArgumentError
                (String.append parse_prefix
                   (String.append (StrJoin errs' "; ") "]"))).
Proof.
  intros Hnull Hit Hobj. unfold ParseLoadBalancingConfig.
  rewrite (bool_decide_eq_false_2 (Json_type json = JSON_NULL)) by done.
  rewrite Hit.
  rewrite (bool_decide_eq_false_2 (Json_type it ≠ OBJECT))
    by (intros Hn; exact (Hn Hobj)).
  cbv zeta.
  assert (ParseState.cluster_map
            (foldl (parse_child registry null_config) (ParseState.mk [] ∅ ∅)
               (entries (object_value it))) =
          map_imap (child_value registry null_config) (object_value it)) as Hcm.
  { rewrite parse_fold_cluster_map by apply NoDup_entries.
    simpl. by rewrite list_to_map_entries, (right_id_L ∅ (∪)). }
  rewrite Hcm.
  rewrite (bool_decide_decide (map_imap _ _ = ∅)).
  destruct (decide (map_imap _ _ = ∅)) as [Hempty|Hempty].
  - unfold ParseState.emplace_back. simpl. rewrite parse_fold_errors. simpl.
    rewrite bool_decide_eq_true_2 by (intros [_ [=]]%app_eq_nil).
    rewrite decide_False by (intros [_ [=]]%app_eq_nil).
    done.
  - rewrite parse_fold_errors, Hcm. simpl.
    rewrite (bool_decide_decide (omap _ _ ≠ [])).
    destruct (decide (omap (child_error registry null_config)
                        (entries (object_value it)) = [])) as [Hnil|Hnil].
    + by rewrite decide_False by (by intros ?).
    + by rewrite decide_True.
Qed.

Lemma ParseLoadBalancingConfig_null json :
  Json_type json = JSON_NULL →
  ParseLoadBalancingConfig registry null_config json =
    inl (InvalidArgumentError
           "field:loadBalancingPolicy error:xds_cluster_manager policy requires configuration.  Please use loadBalancingConfig field of service config instead.").
Proof.
  intros Hnull. unfold ParseLoadBalancingConfig.
  by rewrite (bool_decide_eq_true_2 (Json_type json = JSON_NULL)).
Qed.

Lemma ParseLoadBalancingConfig_no_children json :
  Json_type json ≠ JSON_NULL →
  object_value json !! "children" = None →
  ParseLoadBalancingConfig registry null_config json =
    inl (InvalidArgumentError
           "errors parsing xds_cluster_manager_experimental LB policy config: [field:children error:required field not present; no valid children configured]").
Proof.
  intros Hnull Hit. unfold ParseLoadBalancingConfig.
  rewrite (bool_decide_eq_false_2 (Json_type json = JSON_NULL)) by done.
  by rewrite Hit.
Qed.

Lemma ParseLoadBalancingConfig_children_not_object json it :
  Json_type json ≠ JSON_NULL →
  object_value json !! "children" = Some it → Json_type it ≠ OBJECT →
  ParseLoadBalancingConfig registry null_config json =
    inl (InvalidArgumentError
           "errors parsing xds_cluster_manager_experimental LB policy config: [field:children error:type should be object; no valid children configured]").
Proof.
  intros Hnull Hit Hobj. unfold ParseLoadBalancingConfig.
  rewrite (bool_decide_eq_false_2 (Json_type json = JSON_NULL)) by done.
  rewrite Hit. by rewrite (bool_decide_eq_true_2 (Json_type it ≠ OBJECT)).
Qed.

Lemma child_value_Some name v c :
  child_value registry null_config name v = Some c ↔
  name ≠ EmptyString ∧ Json_type v = OBJECT ∧
  ∃ pj, object_value v !! "childPolicy" = Some pj ∧ registry pj = inr c.
Proof.
  unfold child_value. rewrite ParseChildConfig_cases.
  destruct (decide (name = EmptyString)) as [Hname|Hname].
  { split; [done|]. by intros [? _]. }
  destruct (decide (Json_type v = OBJECT)) as [Hobj|Hobj].
  2:{ split; [done|]. by intros (_ & ? & _). }
  destruct (object_value v !! "childPolicy") as [pj|] eqn:Hpj.
  2:{ split; [done|]. by intros (_ & _ & pj & [=] & _). }
  destruct (registry pj) as [st|c'] eqn:Hreg.
  - split; [done|]. intros (_ & _ & pj' & [= <-] & Hreg'). congruence.
  - split.
    + intros [= <-]. eauto.
    + intros (_ & _ & pj' & [= <-] & Hreg'). congruence.
Qed.

(** What an accepted value looks like. *)
Lemma ParseLoadBalancingConfig_accepted (json : Json) (m : gmap string LbConfig) :
  ParseLoadBalancingConfig registry null_config json = inr m →
  Json_type json ≠ JSON_NULL ∧
  ∃ it, object_value json !! "children" = Some it ∧
        Json_type it = OBJECT ∧
        object_value it ≠ ∅ ∧
        dom m = dom (object_value it) ∧
        ∀ name v, object_value it !! name = Some v →
          name ≠ EmptyString ∧ Json_type v = OBJECT ∧
          ∃ pj c, object_value v !! "childPolicy" = Some pj ∧
                  registry pj = inr c ∧ m !! name = Some c.
Proof.
  intros Hrun.
  destruct (decide (Json_type json = JSON_NULL)) as [Hnull|Hnull].
  { by rewrite ParseLoadBalancingConfig_null in Hrun. }
  split; [done|].
  destruct (object_value json !! "children") as [it|] eqn:Hit.
  2:{ by rewrite ParseLoadBalancingConfig_no_children in Hrun. }
  destruct (decide (Json_type it = OBJECT)) as [Hobj|Hobj].
  2:{ by rewrite (ParseLoadBalancingConfig_children_not_object json it) in Hrun. }
  exists it. split; [done|]. split; [done|].
  rewrite (ParseLoadBalancingConfig_object json it) in Hrun by done.
  cbv zeta in Hrun.
  destruct (decide (map_imap (child_value registry null_config)
                      (object_value it) = ∅)) as [Hempty|Hempty].
  { rewrite decide_False in Hrun by (intros [_ [=]]%app_eq_nil). done. }
  destruct (decide (omap (child_error registry null_config)
                      (entries (object_value it)) = [])) as [Hnil|Hnil];
    [|done].
  injection Hrun as <-.
  assert (∀ name v, object_value it !! name = Some v →
            is_Some (child_value registry null_config name v)) as Hall.
  { intros name v Hv. apply omap_nil_Forall in Hnil.
    rewrite Forall_forall in Hnil.
    apply (child_error_value (name, v)), Hnil. by apply elem_of_entries. }
  split; [|split].
  + intros Ho. apply Hempty. by rewrite Ho, map_imap_empty.
  + apply set_eq. intros name. rewrite !elem_of_dom, map_lookup_imap.
    destruct (object_value it !! name) as [v|] eqn:Hv; simpl.
    * split; [by eauto|]. intros _. by apply Hall.
    * split; by intros [? ?].
  + intros name v Hv. destruct (Hall name v Hv) as [c Hc].
    apply child_value_Some in Hc as Hc'. destruct Hc' as (? & ? & pj & ? & ?).
    split; [done|]. split; [done|]. exists pj, c. split; [done|].
    split; [done|]. by rewrite map_lookup_imap, Hv.
Qed.

(** X1: [ParseLoadBalancingConfig] accepts a value exactly when it is not
    null, its [children] member is a non-empty object, and every member of
    [children] has a non-empty name and is an object whose [childPolicy] the
    registry accepts.  The config returned has exactly the members of
    [children] as its clusters, each with the config that the registry
    returned for it. *)
Theorem config_accepted (json : Json) (m : gmap string LbConfig) :
  ParseLoadBalancingConfig registry null_config json = inr m ↔
  Json_type json ≠ JSON_NULL ∧
  ∃ it, object_value json !! "children" = Some it ∧
        Json_type it = OBJECT ∧
        object_value it ≠ ∅ ∧
        dom m = dom (object_value it) ∧
        ∀ name v, object_value it !! name = Some v →
          name ≠ EmptyString ∧ Json_type v = OBJECT ∧
          ∃ pj c, object_value v !! "childPolicy" = Some pj ∧
                  registry pj = inr c ∧ m !! name = Some c.
Proof.
  split; [apply ParseLoadBalancingConfig_accepted|].
  intros (Hnull & it & Hit & Hobj & Hne & Hdom & Hall).
  rewrite (ParseLoadBalancingConfig_object json it) by done. cbv zeta.
  assert (map_imap (child_value registry null_config) (object_value it) = m)
    as Hcm.
  { apply map_eq. intros name. rewrite map_lookup_imap.
    destruct (object_value it !! name) as [v|] eqn:Hv; simpl.
    - destruct (Hall name v Hv) as (? & ? & pj & c & ? & ? & ->).
      apply child_value_Some. eauto.
    - symmetry. apply not_elem_of_dom. rewrite Hdom. by apply not_elem_of_dom. }
  rewrite Hcm.
  assert (m ≠ ∅) as Hm.
  { intros ->. apply Hne. apply dom_empty_inv_L. by rewrite <- Hdom, dom_empty_L. }
  rewrite (decide_False (P := m = ∅)) by done.
  rewrite decide_True; [done|].
  apply omap_nil_Forall, Forall_forall. intros [name v] Hin%elem_of_entries.
  apply child_error_value. simpl.
  destruct (Hall name v Hin) as (? & ? & pj & c & ? & ? & _).
  exists c. apply child_value_Some. eauto.
Qed.

(** X2: every member of [children] that is not valid is reported, whatever
    the other members are: the value is rejected with an invalid-argument
    status whose message has the member's error in it.  A member is not
    valid if its name is empty, if it is not an object, if it has no
    [childPolicy], or if the registry rejects its [childPolicy], in which
    case the registry's message is part of the error. *)
Theorem invalid_children_all_reported (json it : Json) (name : string) (v : Json) :
  Json_type json ≠ JSON_NULL →
  object_value json !! "children" = Some it →
  Json_type it = OBJECT →
  object_value it !! name = Some v →
  let reported (e : string) :=
    ∃ msg, ParseLoadBalancingConfig registry null_config json =
             inl (InvalidArgumentError msg) ∧ contains msg e in
  (name = EmptyString → reported "field:children error: name cannot be empty") ∧
  (name ≠ EmptyString → Json_type v ≠ OBJECT →
   reported (String.append "field:children name:"
               (String.append name " error:value should be of type object"))) ∧
  (name ≠ EmptyString → Json_type v = OBJECT →
   object_value v !! "childPolicy" = None →
   reported (String.append "field:children name:"
               (String.append name " error:did not find childPolicy"))) ∧
  (∀ pj st, name ≠ EmptyString → Json_type v = OBJECT →
   object_value v !! "childPolicy" = Some pj → registry pj = inl st →
   reported (String.append "field:children name:"
               (String.append name
                  (String.append " error:field:childPolicy error:" (message st))))).
Proof.
  intros Hnull Hit Hobj Hv reported.
  assert (∀ e, child_error registry null_config (name, v) = Some e → reported e)
    as Hrep.
  { intros e He. unfold reported.
    rewrite (ParseLoadBalancingConfig_object json it) by done. cbv zeta.
    assert (e ∈ omap (child_error registry null_config)
                  (entries (object_value it))) as Hin.
    { apply list_elem_of_omap. exists (name, v). split; [|done].
      by apply elem_of_entries. }
    match goal with |- context [decide (?errs' = [])] =>
      assert (e ∈ errs') as Hin';
        [destruct (decide (map_imap _ _ = ∅));
           [apply elem_of_app; by left|done]|];
      destruct (decide (errs' = [])) as [Hnil|Hnil];
        [rewrite Hnil in Hin'; by apply elem_of_nil in Hin'|]
    end.
    eexists. split; [reflexivity|].
    apply contains_app_r, contains_app_l. by apply StrJoin_contains. }
  unfold child_error in Hrep. simpl in Hrep.
  rewrite ParseChildConfig_cases in Hrep.
  split; [|split; [|split]].
  - intros Hname. apply Hrep. by rewrite decide_True.
  - intros Hname Hv'. apply Hrep. rewrite decide_False by done.
    by rewrite (decide_False (P := Json_type v = OBJECT)).
  - intros Hname Hv' Hpj. apply Hrep. rewrite decide_False by done.
    rewrite decide_True by done. by rewrite Hpj.
  - intros pj st Hname Hv' Hpj Hreg. apply Hrep. rewrite decide_False by done.
    rewrite decide_True by done. rewrite Hpj, Hreg. reflexivity.
Qed.

(** X3: a value without a usable [children] member is rejected, and the
    message says so: a null value gets the message that asks for
    [loadBalancingConfig]; a value whose [children] is missing, is not an
    object, or is an empty object gets a message that ends with the error
    that no valid children are configured. *)
Theorem config_without_children (json : Json) :
  (Json_type json = JSON_NULL →
   ParseLoadBalancingConfig registry null_config json =
     inl (InvalidArgumentError
            "field:loadBalancingPolicy error:xds_cluster_manager policy requires configuration.  Please use loadBalancingConfig field of service config instead.")) ∧
  (Json_type json ≠ JSON_NULL → object_value json !! "children" = None →
   ParseLoadBalancingConfig registry null_config json =
     inl (InvalidArgumentError
            "errors parsing xds_cluster_manager_experimental LB policy config: [field:children error:required field not present; no valid children configured]")) ∧
  (∀ it, Json_type json ≠ JSON_NULL → object_value json !! "children" = Some it →
   Json_type it ≠ OBJECT →
   ParseLoadBalancingConfig registry null_config json =
     inl (InvalidArgumentError
            "errors parsing xds_cluster_manager_experimental LB policy config: [field:children error:type should be object; no valid children configured]")) ∧
  (∀ it, Json_type json ≠ JSON_NULL → object_value json !! "children" = Some it →
   Json_type it = OBJECT → object_value it = ∅ →
   ParseLoadBalancingConfig registry null_config json =
     inl (InvalidArgumentError
            "errors parsing xds_cluster_manager_experimental LB policy config: [no valid children configured]")).
Proof.
  split; [apply ParseLoadBalancingConfig_null|].
  split; [apply ParseLoadBalancingConfig_no_children|].
  split; [apply ParseLoadBalancingConfig_children_not_object|].
  intros it Hnull Hit Hobj Hempty.
  rewrite (ParseLoadBalancingConfig_object json it) by done.
  rewrite Hempty, entries_empty, map_imap_empty. cbv zeta. simpl.
  by destruct (decide ((∅ : gmap string LbConfig) = ∅)).
Qed.

End FactoryProofs.

Lemma config_accepted_witness :
  ParseLoadBalancingConfig example_registry EmptyString json_AB
    = inr {[ "A" := "round_robin"; "B" := "round_robin" ]} ∧
  ∃ it, object_value json_AB !! "children" = Some it ∧
        dom ({[ "A" := "round_robin"; "B" := "round_robin" ]} : gmap string LbConfig)
          = dom (object_value it).
Proof.
  assert (ParseLoadBalancingConfig example_registry EmptyString json_AB
            = inr {[ "A" := "round_robin"; "B" := "round_robin" ]}) as Hrun.
  { vm_compute. reflexivity. }
  split; [exact Hrun|].
  destruct (proj1 (config_accepted example_registry EmptyString json_AB _) Hrun)
    as (_ & it & Hit & _ & _ & Hdom & _).
  exists it. by split.
Defined.

Lemma invalid_children_all_reported_witness :
  ∃ msg, ParseLoadBalancingConfig example_registry EmptyString json_bad =
           inl (InvalidArgumentError msg) ∧
         contains msg "field:children name:B error:field:childPolicy error:No known policies in list".
Proof.
  pose proof (invalid_children_all_reported example_registry EmptyString json_bad
                (JObject {[ EmptyString := round_robin_child;
                            "A" := round_robin_child;
                            "B" := JObject {[ "childPolicy" :=
                                     JArray [JObject {[ "pick_last" := JObject ∅ ]}] ]} ]})
                "B"
                (JObject {[ "childPolicy" :=
                   JArray [JObject {[ "pick_last" := JObject ∅ ]}] ]}))
    as Hrep.
  cbv zeta in Hrep.
  destruct Hrep as (_ & _ & _ & Hrep);
    try (vm_compute; reflexivity); try discriminate.
  apply (Hrep (JArray [JObject {[ "pick_last" := JObject ∅ ]}])
           (InvalidArgumentError "No known policies in list"));
    try (vm_compute; reflexivity); discriminate.
Defined.

Lemma config_without_children_witness :
  ParseLoadBalancingConfig example_registry EmptyString (JObject {[ "children" := JObject ∅ ]}) =
    inl (InvalidArgumentError
           "errors parsing xds_cluster_manager_experimental LB policy config: [no valid children configured]").
Proof.
  apply (proj2 (proj2 (proj2 (config_without_children example_registry EmptyString
           (JObject {[ "children" := JObject ∅ ]})))) (JObject ∅));
    try (vm_compute; reflexivity); discriminate.
Defined.

(** ** UpdateLocked, step by step *)

Lemma set_pending_id c :
  ClusterChild.delayed_removal_timer_callback_pending_ c = true →
  ClusterChild.set_delayed_removal_timer_callback_pending_ true c = c.
Proof. destruct c. simpl. by intros ->. Qed.

Lemma entries_split {V} (m : gmap string V) seen p rest :
  entries m = seen ++ p :: rest →
  m !! p.1 = Some p.2 ∧ (p.1 ∉ seen.*1) ∧
  ∀ q, q ∈ seen → m !! q.1 = Some q.2.
Proof.
  intros Hl. pose proof (NoDup_entries m) as Hnd. rewrite Hl in Hnd.
  rewrite fmap_app, fmap_cons in Hnd.
  apply NoDup_app in Hnd as (_ & Hdis & _).
  split; [|split].
  - apply elem_of_entries. rewrite <- surjective_pairing, Hl.
    apply elem_of_app. right. by left.
  - intros Hin. apply (Hdis _ Hin). by left.
  - intros q Hq. apply elem_of_entries. rewrite <- surjective_pairing, Hl.
    apply elem_of_app. by left.
Qed.

Lemma deactivate_if_absent_detail cfg wa seen p rest w :
  wf wa → XdsClusterManagerLb.config_ (lb wa) = Some cfg →
  entries (XdsClusterManagerLb.children_ (lb wa)) = seen ++ p :: rest →
  deactivating cfg wa seen w →
  ∃ w', deactivate_if_absent p w = Done tt w' ∧
        deactivating cfg wa (seen ++ [p]) w'.
Proof.
  intros Hwf Hcfg Hl (Hlb & Hnow & Hdom & Hsame & Hset & Htrace).
  destruct (entries_split _ _ _ _ Hl) as (Hp & Hfresh & Hseen).
  destruct p as [name ptr]. simpl in Hp, Hfresh.
  destruct (Hwf name ptr Hp) as (c & Hc & _).
  assert (∀ name', (name', ptr) ∈ seen → False) as Honly.
  { intros name' Hin. apply Hfresh.
    assert (name' = name) as ->.
    { apply (wf_injective wa name' name ptr Hwf); [|done]. by apply (Hseen (name', ptr)). }
    apply list_elem_of_fmap. by exists (name, ptr). }
  assert (heap w !! ptr = Some c) as Hc'.
  { rewrite Hsame; [done|]. intros name' Hin. by destruct (Honly name' Hin). }
  unfold deactivate_if_absent. unfold bind at 1. unfold bind at 1.
  unfold gets at 1. rewrite Hlb, Hcfg. simpl.
  destruct (cfg !! name) as [v|] eqn:Hname.
  - exists w. split; [done|]. unfold deactivating.
    split; [done|]. split; [done|]. split; [done|]. split; [|split].
    + intros q Hq. apply Hsame. intros name' Hin. apply Hq.
      apply elem_of_app. by left.
    + intros name' q [Hin|Hin]%elem_of_app Hnone; [by apply (Hset name')|].
      apply list_elem_of_singleton in Hin as [= -> ->]. congruence.
    + rewrite omap_app. simpl. unfold timer_started at 2. simpl.
      by rewrite Hname, app_nil_r.
  - rewrite (ClusterChild_DeactivateLocked_eq _ _ _ Hc').
    destruct (ClusterChild.delayed_removal_timer_callback_pending_ c) eqn:Hpend.
    + exists w. split; [done|]. unfold deactivating.
      split; [done|]. split; [done|]. split; [done|]. split; [|split].
      * intros q Hq. apply Hsame. intros name' Hin. apply Hq.
        apply elem_of_app. by left.
      * intros name' q [Hin|Hin]%elem_of_app Hnone; [by apply (Hset name')|].
        apply list_elem_of_singleton in Hin as [= -> ->].
        rewrite Hc', Hc. simpl. by rewrite set_pending_id.
      * rewrite omap_app. simpl. unfold timer_started at 2. simpl.
        by rewrite Hname, Hc, Hpend, app_nil_r.
    + eexists. split; [reflexivity|]. unfold deactivating. cbn [lb heap trace now next_policy].
      split; [done|]. split; [done|]. split.
      { rewrite dom_insert_L, Hdom. apply elem_of_dom_2 in Hc. set_solver. }
      split; [|split].
      * intros q Hq. destruct (decide (q = ptr)) as [->|Hne].
        { destruct (Hq name) as [? ?]; [|congruence].
          apply elem_of_app. right. by left. }
        rewrite lookup_insert_ne by done. apply Hsame. intros name' Hin.
        apply Hq. apply elem_of_app. by left.
      * intros name' q [Hin|Hin]%elem_of_app Hnone.
        -- destruct (decide (q = ptr)) as [->|Hne]; [by destruct (Honly name')|].
           rewrite lookup_insert_ne by done. by apply (Hset name').
        -- apply list_elem_of_singleton in Hin as [= -> ->].
           by rewrite lookup_insert_eq, Hc.
      * rewrite omap_app. simpl. unfold timer_started at 2. simpl.
        by rewrite Hname, Hc, Hpend, Htrace, Hnow, <- app_assoc.
Qed.

Lemma elem_of_forwarded e (hs : list helper_call) :
  e ∈ omap forwarded hs →
  match e with
  | ChannelCreateSubchannel _ _ | ChannelRequestReresolution
  | ChannelAddTraceEvent _ _ => True
  | _ => False
  end.
Proof.
  intros (h & _ & Hh)%list_elem_of_omap. destruct h; simpl in Hh; by simplify_eq.
Qed.

Lemma elem_of_reactivation_effects e child c np :
  e ∈ reactivation_effects child c np →
  e = TimerCancel child ∨
  ClusterChild.child_policy_ c = None ∧
    (e = CreateChildPolicy child np ∨ e = PollsetSetAdd np).
Proof.
  unfold reactivation_effects. intros [Hin|Hin]%elem_of_app.
  - destruct (ClusterChild.delayed_removal_timer_callback_pending_ c);
      [|by apply elem_of_nil in Hin].
    apply list_elem_of_singleton in Hin. by left.
  - destruct (ClusterChild.child_policy_ c); [by apply elem_of_nil in Hin|].
    right. split; [done|].
    apply elem_of_cons in Hin as [->|Hin]; [by left|].
    apply list_elem_of_singleton in Hin. by right.
Qed.

Lemma updated_child_lifecycle c np (hs : list helper_call) :
  ClusterChild.name_ (updated_child c np hs) = ClusterChild.name_ c ∧
  ClusterChild.child_policy_ (updated_child c np hs) =
    Some (default np (ClusterChild.child_policy_ c)) ∧
  ClusterChild.delayed_removal_timer_callback_pending_ (updated_child c np hs) = false ∧
  ClusterChild.shutdown_ (updated_child c np hs) = ClusterChild.shutdown_ c.
Proof.
  unfold updated_child.
  match goal with |- context [foldl absorb ?c0 hs] =>
    destruct (absorb_lifecycle c0 hs) as (-> & -> & -> & ->)
  end.
  done.
Qed.

Section UpdateLockedDetail.

Context {channel : ChannelControlHelper} {map_clear : MapClear}.

Variable child_policy : World → policy_call → list helper_call.

(** [add_or_update] for the entry [name : cfgv]: the record is the one filed
    under [name], or a new one at an unused address. *)
Lemma add_or_update_exact addrs a name cfgv w :
  XdsClusterManagerLb.shutting_down_ (lb w) = false →
  XdsClusterManagerLb.update_in_progress_ (lb w) = true →
  wf w →
  ∃ ptr c hs,
    (XdsClusterManagerLb.children_ (lb w) !! name = Some ptr ∧
       heap w !! ptr = Some c ∧ is_Some (ClusterChild.child_policy_ c) ∨
     XdsClusterManagerLb.children_ (lb w) !! name = None ∧
       (ptr ∉ dom (heap w)) ∧ c = ClusterChild.new name) ∧
    add_or_update child_policy addrs a (name, cfgv) w =
      Done tt
        (mkWorld
           (XdsClusterManagerLb.set_children_
              (<[name := ptr]> (XdsClusterManagerLb.children_ (lb w))) (lb w))
           (<[ptr := updated_child c (next_policy w) hs]> (heap w))
           (match ClusterChild.child_policy_ c with
            | Some _ => next_policy w | None => S (next_policy w) end)
           (now w)
           (trace w ++ reactivation_effects ptr c (next_policy w)
              ++ [ChildPolicyCall
                    (CallUpdate (default (next_policy w) (ClusterChild.child_policy_ c))
                       cfgv addrs a)]
              ++ omap forwarded hs)).
Proof.
  intros Hsd Hflag Hwf. unfold add_or_update. simpl.
  unfold bind at 1. unfold gets at 1.
  destruct (XdsClusterManagerLb.children_ (lb w) !! name) as [ptr|] eqn:Hname.
  - unfold bind at 1. unfold ret at 1.
    destruct (Hwf name ptr Hname) as (c & Hc & _ & Hpol & _).
    destruct (ClusterChild_UpdateLocked_propagating child_policy ptr cfgv addrs a
                w c Hsd Hflag Hc) as (hs & w1 & _ & Hrun).
    exists ptr, c, hs. split; [left; eauto|]. rewrite Hrun.
    rewrite (insert_id _ name ptr) by done. by destruct (lb w).
  - set (ptr := fresh (dom (heap w))).
    assert (ptr ∉ dom (heap w)) as Hfresh by apply is_fresh.
    set (w1 := mkWorld
                 (XdsClusterManagerLb.set_children_
                    (<[name := ptr]> (XdsClusterManagerLb.children_ (lb w))) (lb w))
                 (<[ptr := ClusterChild.new name]> (heap w))
                 (next_policy w) (now w) (trace w)).
    destruct (ClusterChild_UpdateLocked_propagating child_policy ptr cfgv addrs a
                w1 (ClusterChild.new name)) as (hs & w2 & _ & Hrun);
      [done|done|by apply lookup_insert_eq|].
    exists ptr, (ClusterChild.new name), hs. split; [right; eauto|].
    unfold bind at 1. unfold new_ClusterChild. unfold_monad. fold ptr.
    simpl. unfold set_lb, set_heap. simpl.
    change (mkWorld _ _ _ _ _) with w1 at 1.
    rewrite Hrun. cbn [lb heap trace now next_policy w1].
    by rewrite insert_insert_eq.
Qed.

Hypothesis sane : never_reports_shutdown child_policy.

Lemma add_or_update_detail cfg addrs a w1 seen p rest w :
  entries cfg = seen ++ p :: rest →
  updating cfg addrs a w1 seen w →
  ∃ w', add_or_update child_policy addrs a p w = Done tt w' ∧
        updating cfg addrs a w1 (seen ++ [p]) w'.
Proof.
  intros Hl (Hprop & Hnow & Hsub & Hkeys & Hfreshptr & Hsame & Hunfiled & new &
             Htrace & Htimer & Hcalls & Hcre & Hseen).
  pose proof Hprop as (Hsd & Hflag & Hcfg & Hwf & Hdom & _).
  destruct (entries_split _ _ _ _ Hl) as (Hp & Hfresh & _).
  destruct p as [name cfgv]. simpl in Hp, Hfresh.
  destruct (add_or_update_step child_policy sane cfg w1
              (XdsClusterManagerLb.children_ (lb w1)) addrs a [] (name, cfgv) w)
    as (w' & Hrun & Hprop' & Hsub' & _).
  { split; [done|]. split; [done|]. intros q Hq. by apply elem_of_nil in Hq. }
  destruct (add_or_update_exact addrs a name cfgv w Hsd Hflag Hwf)
    as (ptr & c & hs & Hcase & Hrun').
  pose proof Hrun as Hrun''. rewrite Hrun' in Hrun''. injection Hrun'' as Hw'.
  exists w'. split; [done|]. clear Hrun Hrun'.
  destruct (updated_child_lifecycle c (next_policy w) hs)
    as (Hn' & Hp' & Hpend' & Hsh').
  set (c' := updated_child c (next_policy w) hs) in *.
  set (pid := default (next_policy w) (ClusterChild.child_policy_ c)) in *.
  set (ch := XdsClusterManagerLb.children_ (lb w)) in *.
  set (ch0 := XdsClusterManagerLb.children_ (lb w1)) in *.
  assert (∀ name' q, ch !! name' = Some q → name' ≠ name → ptr ≠ q) as Hother.
  { intros name' q Hq Hne <-. destruct Hcase as [(Hptr & _)|(_ & Hnew & _)].
    - apply Hne. by apply (wf_injective w name' name ptr).
    - destruct (Hwf name' ptr Hq) as (d & Hd & _). apply Hnew.
      apply elem_of_dom. eauto. }
  assert (ch0 !! name = None → ch !! name = None) as Hnew_name.
  { intros Hnone. destruct (ch !! name) as [q|] eqn:Hq; [|done].
    destruct (Hkeys name) as [[? ?]|?]; [by eauto|congruence|done]. }
  assert (ch !! name = None → ClusterChild.child_policy_ c = None ∧
                              (ptr ∉ dom (heap w))) as Hcreated.
  { intros Hnone. destruct Hcase as [(? & _)|(_ & ? & ->)]; [congruence|done]. }
  rewrite <- Hw' in *. clear Hw' w'. unfold updating. cbn [lb heap trace now XdsClusterManagerLb.children_
    XdsClusterManagerLb.set_children_].
  fold ch ch0. cbn [lb XdsClusterManagerLb.children_
    XdsClusterManagerLb.set_children_] in Hsub'.
  split; [exact Hprop'|]. split; [done|]. split; [exact Hsub'|].
  split; [|split; [|split; [|split]]].
  - intros name'. destruct (decide (name' = name)) as [->|Hne].
    + intros _. right. rewrite fmap_app. apply elem_of_app. right. by left.
    + rewrite lookup_insert_ne by done. intros [?|?]%Hkeys; [by left|right].
      rewrite fmap_app. apply elem_of_app. by left.
  - intros name' q. destruct (decide (name' = name)) as [->|Hne].
    + rewrite lookup_insert_eq. intros [= <-] Hnone.
      destruct (Hcreated (Hnew_name Hnone)) as [_ Hnew]. set_solver.
    + rewrite lookup_insert_ne by done. apply Hfreshptr.
  - intros name' q Hq Hnotin. rewrite fmap_app in Hnotin.
    apply not_elem_of_app in Hnotin as [Hnotin Hne].
    assert (name' ≠ name) as Hne' by (intros ->; apply Hne; by left).
    rewrite lookup_insert_ne in Hq by done.
    rewrite lookup_insert_ne by (by apply (Hother name')).
    by apply (Hsame name').
  - intros q Hq.
    assert (ptr ≠ q) as Hne.
    { intros <-. apply (Hq name). by rewrite lookup_insert_eq. }
    rewrite lookup_insert_ne by done. apply Hunfiled. intros name' Hq'.
    apply (Hq name'). destruct (decide (name' = name)) as [->|Hne'].
    + destruct Hcase as [(Hptr & _)|(? & _)]; congruence.
    + by rewrite lookup_insert_ne.
  - eexists. split; [by rewrite Htrace, <- app_assoc|].
    split; [|split; [|split]].
    + intros q d [Hin|Hin]%elem_of_app; [by apply (Htimer q d)|].
      apply elem_of_app in Hin as [Hin|Hin].
      { apply elem_of_reactivation_effects in Hin as [?|[_ [?|?]]]; done. }
      apply elem_of_cons in Hin as [?|Hin]; [done|].
      by apply elem_of_forwarded in Hin.
    + intros call [Hin|Hin]%elem_of_app.
      { destruct (Hcalls call Hin)
          as (pid' & name' & cfgv' & q & d & Hin' & Hq & Hd & Hpol & ->).
        assert (name' ≠ name) as Hne.
        { intros ->. apply Hfresh. apply list_elem_of_fmap. by exists (name, cfgv'). }
        exists pid', name', cfgv', q, d. rewrite lookup_insert_ne by done.
        rewrite lookup_insert_ne by (by apply (Hother name')).
        split; [apply elem_of_app; by left|done]. }
      apply elem_of_app in Hin as [Hin|Hin].
      { apply elem_of_reactivation_effects in Hin as [?|[_ [?|?]]]; done. }
      apply elem_of_cons in Hin as [[= ->]|Hin].
      { exists pid, name, cfgv, ptr, c'. rewrite !lookup_insert_eq.
        split; [apply elem_of_app; right; by left|done]. }
      by apply elem_of_forwarded in Hin.
    + intros q pid' [Hin|Hin]%elem_of_app.
      { destruct (Hcre q pid' Hin) as (name' & d & Hnone & Hq & Hd & Hpol).
        exists name'. destruct (decide (name' = name)) as [->|Hne].
        - destruct Hcase as [(Hptr & Hc & _)|(? & _)]; [|congruence].
          assert (q = ptr) as -> by congruence.
          exists c'. rewrite !lookup_insert_eq. split; [done|]. split; [done|].
          split; [done|]. rewrite Hp'. unfold pid.
          assert (d = c) as -> by congruence. by rewrite Hpol.
        - exists d. rewrite lookup_insert_ne by done.
          rewrite lookup_insert_ne by (by apply (Hother name')).
          done. }
      apply elem_of_app in Hin as [Hin|Hin].
      { apply elem_of_reactivation_effects in Hin as [?|[Hnopol [[= -> ->]|?]]];
          [done| |done].
        destruct Hcase as [(_ & _ & [? ?])|(Hnone & _ & _)]; [congruence|].
        exists name, c'. rewrite !lookup_insert_eq. split.
        { destruct (ch0 !! name) eqn:Hch0; [|done].
          by rewrite (lookup_weaken _ _ _ _ Hch0 Hsub) in Hnone. }
        split; [done|]. split; [done|]. rewrite Hp'. unfold pid. by rewrite Hnopol. }
      apply elem_of_cons in Hin as [?|Hin]; [done|].
      by apply elem_of_forwarded in Hin.
    + intros name' cfgv' [Hin|Hin]%elem_of_app.
      { destruct (Hseen name' cfgv' Hin) as (q & d & pid' & Hq & Hd & ? & ? & ? & Hnew).
        assert (name' ≠ name) as Hne.
        { intros ->. apply Hfresh. apply list_elem_of_fmap. by exists (name, cfgv'). }
        exists q, d, pid'. rewrite lookup_insert_ne by done.
        rewrite lookup_insert_ne by (by apply (Hother name')).
        split; [done|]. split; [done|]. split; [done|]. split; [done|].
        split; [apply elem_of_app; by left|].
        intros Hnone. apply elem_of_app. left. by apply Hnew. }
      apply list_elem_of_singleton in Hin as [= -> ->].
      exists ptr, c', pid. rewrite !lookup_insert_eq.
      split; [done|]. split; [done|]. split; [done|]. split; [done|]. split.
      { apply elem_of_app. right. apply elem_of_app. right. by left. }
      intros Hnone. destruct (Hcreated (Hnew_name Hnone)) as [Hnopol _].
      apply elem_of_app. right. apply elem_of_app. left.
      unfold reactivation_effects, pid. rewrite Hnopol. simpl.
      apply elem_of_app. right. by left.
Qed.

Lemma elem_of_timers e w cfg (l : list (string * child_ptr)) :
  e ∈ omap (timer_started w cfg) l →
  ∃ name q d, e = TimerInit q d ∧ (name, q) ∈ l ∧
              timer_started w cfg (name, q) = Some (TimerInit q d).
Proof.
  intros ([name q] & Hin & He)%list_elem_of_omap. exists name, q.
  pose proof He as He'. unfold timer_started in He'. simpl in He'.
  destruct (cfg !! name); [done|]. destruct (heap w !! q) as [c|]; [|done].
  destruct (ClusterChild.delayed_removal_timer_callback_pending_ c); [done|].
  injection He' as <-. eauto.
Qed.

(** An update pass on a policy that is not shut down, in detail. *)
Lemma UpdateLocked_detail u w :
  XdsClusterManagerLb.shutting_down_ (lb w) = false → wf w →
  ∃ w' new,
    UpdateLocked child_policy u w = Done tt w' ∧
    trace w' = trace w ++ new ∧
    wf w' ∧
    XdsClusterManagerLb.children_ (lb w) ⊆ XdsClusterManagerLb.children_ (lb w') ∧
    (∀ name, is_Some (XdsClusterManagerLb.children_ (lb w') !! name) ↔
             is_Some (XdsClusterManagerLb.children_ (lb w) !! name) ∨
             is_Some (config u !! name)) ∧
    (∀ name ptr, XdsClusterManagerLb.children_ (lb w') !! name = Some ptr →
                 XdsClusterManagerLb.children_ (lb w) !! name = None →
                 ptr ∉ dom (heap w)) ∧
    (∀ name ptr c, XdsClusterManagerLb.children_ (lb w) !! name = Some ptr →
                   config u !! name = None → heap w !! ptr = Some c →
       heap w' !! ptr =
         Some (ClusterChild.set_delayed_removal_timer_callback_pending_ true c)) ∧
    (∀ name ptr c', XdsClusterManagerLb.children_ (lb w') !! name = Some ptr →
                    heap w' !! ptr = Some c' → is_Some (config u !! name) →
       ClusterChild.delayed_removal_timer_callback_pending_ c' = false) ∧
    (∀ q d, TimerInit q d ∈ new ↔
            ∃ name, XdsClusterManagerLb.children_ (lb w) !! name = Some q ∧
                    timer_started w (config u) (name, q) = Some (TimerInit q d)) ∧
    (∀ call, ChildPolicyCall call ∈ new →
       ∃ pid name cfgv ptr c',
         config u !! name = Some cfgv ∧
         XdsClusterManagerLb.children_ (lb w') !! name = Some ptr ∧
         heap w' !! ptr = Some c' ∧
         ClusterChild.child_policy_ c' = Some pid ∧
         call = CallUpdate pid cfgv (addresses u) (args u)) ∧
    (∀ name cfgv, config u !! name = Some cfgv →
       ∃ ptr c' pid,
         XdsClusterManagerLb.children_ (lb w') !! name = Some ptr ∧
         heap w' !! ptr = Some c' ∧
         ClusterChild.child_policy_ c' = Some pid ∧
         ChildPolicyCall (CallUpdate pid cfgv (addresses u) (args u)) ∈ new ∧
         (XdsClusterManagerLb.children_ (lb w) !! name = None →
          CreateChildPolicy ptr pid ∈ new)) ∧
    (∀ q pid, CreateChildPolicy q pid ∈ new →
       ∃ name c', XdsClusterManagerLb.children_ (lb w) !! name = None ∧
                  XdsClusterManagerLb.children_ (lb w') !! name = Some q ∧
                  heap w' !! q = Some c' ∧
                  ClusterChild.child_policy_ c' = Some pid) ∧
    (∀ ptr, (∀ name, XdsClusterManagerLb.children_ (lb w') !! name ≠ Some ptr) →
            heap w' !! ptr = heap w !! ptr) ∧
    XdsClusterManagerLb.shutting_down_ (lb w') = false ∧
    XdsClusterManagerLb.update_in_progress_ (lb w') = false ∧
    XdsClusterManagerLb.config_ (lb w') = Some (config u) ∧
    now w' = now w ∧
    ∃ pre st status cm,
      new = pre ++ [ChannelUpdateState st status cm] ∧
      publications pre = [] ∧
      dom cm = dom (config u).
Proof.
  intros Hsd Hwf. unfold UpdateLocked.
  unfold bind at 1. unfold gets at 1. rewrite Hsd.
  unfold bind at 1. unfold modify_lb at 1. unfold modify at 1.
  unfold bind at 1. unfold modify_lb at 1. unfold modify at 1.
  unfold bind at 1. unfold gets at 1.
  set (cfg := config u).
  set (wa := set_lb _ (set_lb _ w)).
  set (ch0 := XdsClusterManagerLb.children_ (lb wa)).
  assert (wf wa) as Hwfa by (by apply (wf_same_store w)).
  (* first loop *)
  destruct (for_each_positional (deactivating cfg wa) deactivate_if_absent
              (entries ch0)) with (w := wa) as (w1 & Hloop1 & Hdeact).
  { intros seen p rest w1 Hl HI. by apply (deactivate_if_absent_detail cfg wa seen p rest). }
  { unfold deactivating. simpl. rewrite app_nil_r.
    repeat split; try done. by intros name ptr ?%elem_of_nil. }
  rewrite (bind_Done _ _ _ _ _ Hloop1).
  destruct Hdeact as (Hlb1 & Hnow1 & Hdom1 & Hsame1 & Hset1 & Htrace1).
  assert (∀ name ptr c, ch0 !! name = Some ptr → heap wa !! ptr = Some c →
            heap w1 !! ptr =
              Some (match cfg !! name with
                    | Some _ => c
                    | None => ClusterChild.set_delayed_removal_timer_callback_pending_ true c
                    end))
    as Hheap1.
  { intros name ptr c Hptr Hc. destruct (cfg !! name) as [v|] eqn:Hname.
    - rewrite Hsame1; [done|]. intros name' Hin%elem_of_entries.
      assert (name' = name) as -> by (by apply (wf_injective wa name' name ptr)).
      eauto.
    - rewrite (Hset1 name ptr); [by rewrite Hc| |done]. by apply elem_of_entries. }
  assert (wf w1) as Hwf1.
  { intros name ptr Hptr. rewrite Hlb1 in Hptr.
    destruct (Hwfa name ptr Hptr) as (c & Hc & Hok). unfold child_ok.
    rewrite (Hheap1 name ptr c Hptr Hc).
    destruct (cfg !! name); [by exists c|]. eexists. split; [done|]. by destruct c. }
  unfold bind at 1. unfold bind at 1. unfold gets at 1. rewrite Hlb1.
  cbn [lb wa set_lb XdsClusterManagerLb.config_ XdsClusterManagerLb.set_config_
       XdsClusterManagerLb.set_update_in_progress_ deref ret].
  (* second loop *)
  destruct (for_each_positional (updating cfg (addresses u) (args u) w1)
              (add_or_update child_policy (addresses u) (args u)) (entries cfg))
    with (w := w1) as (w2 & Hloop2 & Hupd).
  { intros seen p rest w2 Hl HI. by apply (add_or_update_detail cfg _ _ w1 seen p rest). }
  { unfold updating. split.
    { unfold propagating. rewrite Hlb1. split; [done|]. split; [done|].
      split; [done|]. split; [done|]. apply grown_refl. }
    split; [done|]. split; [done|]. split; [by left|]. split; [congruence|].
    split; [done|]. split; [done|]. exists []. rewrite app_nil_r. split; [done|].
    split; [by intros q d ?%elem_of_nil|]. split; [by intros call ?%elem_of_nil|].
    split; [by intros q pid ?%elem_of_nil|]. by intros name cfgv ?%elem_of_nil. }
  rewrite (bind_Done _ _ _ _ _ Hloop2).
  destruct Hupd as (Hprop2 & Hnow2 & Hsub2 & Hkeys2 & Hfresh2 & Hsame2 & Hunfiled2 &
                    new2 & Htrace2 & Htimer2 & Hcalls2 & Hcre2 & Hseen2).
  pose proof Hprop2 as (Hsd2 & Hflag2 & Hcfg2 & Hwf2 & _ & new2' & Htrace2' & Hpubs2 & _).
  assert (new2' = new2) as -> by (rewrite Htrace2 in Htrace2'; by simplify_list_eq).
  assert (XdsClusterManagerLb.children_ (lb w1) = ch0) as Hch1 by (by rewrite Hlb1).
  rewrite Hch1 in Hsub2, Hkeys2, Hfresh2.
  setoid_rewrite Hch1 in Hcre2. setoid_rewrite Hch1 in Hseen2.
  unfold bind at 1. unfold modify_lb at 1. unfold modify at 1.
  set (w3 := set_lb _ w2).
  assert (wf w3) as Hwf3 by (by apply (wf_same_store w2)).
  assert (recomputable w3) as Hrec.
  { split; [done|]. exists cfg. split; [done|]. intros name [cfgv Hin].
    destruct (Hseen2 name cfgv) as (ptr & c' & pid & Hptr & Hc' & _);
      [by apply elem_of_entries|].
    destruct (Hwf3 name ptr Hptr) as (c & Hc & _ & _ & _ & Hst).
    exists c. split; [|done]. exists cfg, ptr. split; [done|]. eauto. }
  destruct (UpdateStateLocked_total w3 Hrec) as [w' Hw'].
  destruct (UpdateStateLocked_Done w3 w')
    as (cfg' & n & cm & Hcfg' & -> & _ & _ & _ & Hcm); [done|done|].
  assert (cfg' = cfg) as -> by (simpl in Hcfg'; congruence).
  eexists _, _. split; [exact Hw'|].
  cbn [lb heap trace now set_trace set_lb w3 XdsClusterManagerLb.children_
       XdsClusterManagerLb.shutting_down_ XdsClusterManagerLb.update_in_progress_
       XdsClusterManagerLb.config_
       XdsClusterManagerLb.set_update_in_progress_].
  split.
  { rewrite Htrace2, Htrace1. cbn [trace wa set_lb]. rewrite <- !app_assoc. reflexivity. }
  split; [by apply (wf_same_store w3)|].
  change (XdsClusterManagerLb.children_ (lb w)) with ch0.
  split; [done|].
  split; [|split; [|split; [|split; [|split; [|split; [|split; [|split]]]]]]].
  - intros name. split.
    + intros [?|Hin]%Hkeys2; [by left|right]. by apply elem_of_entries_fst.
    + intros [[ptr Hptr]|[cfgv Hin]].
      * exists ptr. by apply (lookup_weaken _ _ _ _ Hptr).
      * destruct (Hseen2 name cfgv) as (ptr & c' & pid & Hptr & _);
          [by apply elem_of_entries|eauto].
  - intros name ptr Hptr Hnone. change (dom (heap w)) with (dom (heap wa)).
    rewrite <- Hdom1. by apply (Hfresh2 name).
  - intros name ptr c Hptr Hnone Hc.
    rewrite (Hsame2 name ptr); [|by apply (lookup_weaken _ _ _ _ Hptr)|].
    + rewrite (Hheap1 name ptr c); [|done|done]. by rewrite Hnone.
    + rewrite elem_of_entries_fst. rewrite Hnone. by intros [? ?].
  - intros name ptr c' Hptr Hc' [cfgv Hin].
    destruct (Hseen2 name cfgv) as (ptr' & c'' & pid & Hptr' & Hc'' & Hpend & _);
      [by apply elem_of_entries|].
    congruence.
  - intros q d. split.
    + intros [Hin|Hin]%elem_of_app.
      { apply elem_of_timers in Hin as (name & q' & d' & [= <- <-] & Hin & Ht).
        exists name. split; [by apply elem_of_entries in Hin|]. exact Ht. }
      apply elem_of_app in Hin as [Hin|Hin]; [by destruct (Htimer2 q d)|].
      by apply list_elem_of_singleton in Hin.
    + intros (name & Hptr & Ht). apply elem_of_app. left.
      apply list_elem_of_omap. exists (name, q). split; [|exact Ht].
      by apply elem_of_entries.
  - intros call [Hin|Hin]%elem_of_app.
    { by apply elem_of_timers in Hin as (? & ? & ? & ? & _). }
    apply elem_of_app in Hin as [Hin|Hin];
      [|by apply list_elem_of_singleton in Hin].
    destruct (Hcalls2 call Hin) as (pid & name & cfgv & ptr & c' & Hin' & ? & ? & ? & ->).
    exists pid, name, cfgv, ptr, c'. split; [by apply elem_of_entries in Hin'|done].
  - intros name cfgv Hin.
    destruct (Hseen2 name cfgv) as (ptr & c' & pid & Hptr & Hc' & _ & Hpol & Hcall & Hnew);
      [by apply elem_of_entries|].
    exists ptr, c', pid. split; [done|]. split; [done|]. split; [done|]. split.
    + apply elem_of_app. right. apply elem_of_app. by left.
    + intros Hnone. apply elem_of_app. right. apply elem_of_app. left. by apply Hnew.
  - intros q pid [Hin|Hin]%elem_of_app.
    { by apply elem_of_timers in Hin as (? & ? & ? & ? & _). }
    apply elem_of_app in Hin as [Hin|Hin];
      [|by apply list_elem_of_singleton in Hin].
    by apply Hcre2.
  - split.
    { intros ptr Hptr. rewrite (Hunfiled2 ptr Hptr). apply Hsame1.
      intros name Hin%elem_of_entries. destruct (Hptr name).
      by apply (lookup_weaken _ _ _ _ Hin). }
    split; [done|]. split; [done|]. split; [done|].
    split; [by rewrite Hnow2, Hnow1|].
    eexists (_ ++ new2), _, _, cm. split; [by rewrite <- app_assoc|]. split.
    { rewrite publications_app, Hpubs2, app_nil_r.
      clear. induction (entries ch0) as [|p l IH]; [done|]. simpl.
      destruct (timer_started wa cfg p) as [e|] eqn:He; [|done].
      unfold timer_started in He. repeat case_match; simplify_eq. exact IH. }
    apply set_eq. intros name. rewrite !elem_of_dom, Hcm.
    destruct (decide (is_Some (cfg !! name))) as [Hin|Hout]; [|split; [by intros [? ?]|done]].
    split; [done|]. intros _. destruct Hin as [cfgv Hin].
    destruct (Hseen2 name cfgv) as (ptr & c' & pid & Hptr & Hc' & _);
      [by apply elem_of_entries|].
    unfold picker_entry. cbn [lb heap set_lb w3 XdsClusterManagerLb.children_
      XdsClusterManagerLb.set_update_in_progress_]. rewrite Hptr, Hc'. eauto.
Qed.

End UpdateLockedDetail.

(** ** Ownership of the child policies *)

(** The records of [w'] own the policies they owned in [w], or policies
    instantiated since, each by one record. *)
Lemma owned_apart_step w w' :
  (next_policy w ≤ next_policy w')%nat →
  (∀ p c' pid, heap w' !! p = Some c' → ClusterChild.child_policy_ c' = Some pid →
     (∃ c, heap w !! p = Some c ∧ ClusterChild.child_policy_ c = Some pid) ∨
     ((next_policy w ≤ pid < next_policy w')%nat ∧
      ∀ q d, heap w' !! q = Some d → ClusterChild.child_policy_ d = Some pid → q = p)) →
  owned_apart w → owned_apart w'.
Proof.
  intros Hnp Hrec Hown p c' pid Hc' Hpid. split.
  - destruct (Hrec p c' pid Hc' Hpid) as [(c & Hc & Hp)|[? _]]; [|lia].
    destruct (Hown p c pid Hc Hp). lia.
  - intros q d Hd Hdp.
    destruct (Hrec p c' pid Hc' Hpid) as [(c & Hc & Hp)|[_ Huniq]];
      [|by apply (Huniq q d)].
    destruct (Hrec q d pid Hd Hdp) as [(d0 & Hd0 & Hdp0)|[_ Huniq]].
    + destruct (Hown p c pid Hc Hp) as [_ Hap]. by apply (Hap q d0).
    + symmetry. by apply (Huniq p c').
Qed.

(** A step that gives out no identity and leaves every record the policy it
    had, or none. *)
Lemma owned_apart_kept w w' :
  next_policy w' = next_policy w →
  (∀ p c' pid, heap w' !! p = Some c' → ClusterChild.child_policy_ c' = Some pid →
     ∃ c, heap w !! p = Some c ∧ ClusterChild.child_policy_ c = Some pid) →
  owned_apart w → owned_apart w'.
Proof.
  intros Hnp Hrec. apply owned_apart_step; [lia|].
  intros p c' pid Hc' Hpid. left. by apply (Hrec p c' pid).
Qed.

Lemma deactivate_if_absent_owned p w w' :
  deactivate_if_absent p w = Done tt w' → owned_apart w → owned_apart w'.
Proof.
  unfold deactivate_if_absent, ClusterChild_DeactivateLocked. unfold_monad.
  intros Hrun.
  destruct (XdsClusterManagerLb.config_ (lb w)) as [cfg|]; [|done]. simpl in Hrun.
  destruct (cfg !! p.1); [by injection Hrun as <-|].
  destruct (heap w !! p.2) as [c|] eqn:Hc; [|done].
  destruct (ClusterChild.delayed_removal_timer_callback_pending_ c);
    injection Hrun as <-; [done|].
  apply owned_apart_kept; [done|]. simpl. intros q c' pid Hc' Hpid.
  destruct (decide (q = p.2)) as [->|Hne].
  - rewrite lookup_insert_eq in Hc'. injection Hc' as <-. by exists c.
  - rewrite lookup_insert_ne in Hc' by done. by exists c'.
Qed.

Section KeepsPolicies.

Lemma keeps_ret {A} (a : A) : keeps_policies (ret a).
Proof. intros w a' w' [= <- <-]. eauto. Qed.

Lemma keeps_abort {A} f : keeps_policies (abort f : M A).
Proof. by intros w a w'. Qed.

Lemma keeps_gets {A} (f : World → A) : keeps_policies (gets f).
Proof. intros w a w' [= <- <-]. eauto. Qed.

Lemma keeps_deref {A} (p : option A) : keeps_policies (deref p).
Proof. destruct p; [apply keeps_ret|apply keeps_abort]. Qed.

Lemma keeps_load p : keeps_policies (load p).
Proof.
  intros w a w'. unfold load. destruct (heap w !! p); [|done].
  intros [= <- <-]. eauto.
Qed.

Lemma keeps_emit e : keeps_policies (emit e).
Proof. intros w a w' [= <- <-]. simpl. eauto. Qed.

Lemma keeps_modify_lb f : keeps_policies (modify_lb f).
Proof. intros w a w' [= <- <-]. simpl. eauto. Qed.

Lemma keeps_bind {A B} (m : M A) (k : A → M B) :
  keeps_policies m → (∀ a, keeps_policies (k a)) → keeps_policies (bind m k).
Proof.
  intros Hm Hk w b w'. unfold bind.
  destruct (m w) as [a w1|] eqn:Hrun; [|done]. intros Hrest.
  destruct (Hm w a w1 Hrun) as [Hnp1 Hrec1].
  destruct (Hk a w1 b w' Hrest) as [Hnp2 Hrec2].
  split; [congruence|]. intros p c' pid Hc' Hpid.
  destruct (Hrec2 p c' pid Hc' Hpid) as (c1 & Hc1 & Hpid1). eauto.
Qed.

(** Storing a record that owns no child policy. *)
Lemma keeps_store_none p c :
  ClusterChild.child_policy_ c = None → keeps_policies (store p c).
Proof.
  intros Hnone w a w' [= <- <-]. simpl. split; [done|]. intros q c' pid Hc' Hpid.
  destruct (decide (q = p)) as [->|Hne].
  - rewrite lookup_insert_eq in Hc'. congruence.
  - rewrite lookup_insert_ne in Hc' by done. eauto.
Qed.

Lemma keeps_update_child p f :
  (∀ c, ClusterChild.child_policy_ (f c) = ClusterChild.child_policy_ c) →
  keeps_policies (update_child p f).
Proof.
  intros Hf w a w'. unfold update_child, load, store, modify, bind.
  destruct (heap w !! p) as [c|] eqn:Hc; [|done]. intros [= <- <-]. simpl.
  split; [done|]. intros q c' pid Hc' Hpid.
  destruct (decide (q = p)) as [->|Hne].
  - rewrite lookup_insert_eq in Hc'. injection Hc' as <-. rewrite Hf in Hpid. eauto.
  - rewrite lookup_insert_ne in Hc' by done. eauto.
Qed.

Lemma keeps_for_each {A} (f : A → M unit) (l : list A) :
  (∀ x, keeps_policies (f x)) → keeps_policies (for_each f l).
Proof.
  intros Hf. induction l as [|x l IH]; simpl; [apply keeps_ret|].
  apply keeps_bind; [apply Hf|]. intros _. exact IH.
Qed.

Lemma keeps_foldM {A S} (f : S → A → M S) (l : list A) :
  (∀ s x, keeps_policies (f s x)) → ∀ s, keeps_policies (foldM f s l).
Proof.
  intros Hf. induction l as [|x l IH]; intros s; simpl; [apply keeps_ret|].
  apply keeps_bind; [apply Hf|]. intros s'. apply IH.
Qed.

End KeepsPolicies.

Create HintDb keeps discriminated.

#[local] Hint Resolve keeps_ret keeps_abort keeps_gets keeps_deref keeps_load
  keeps_emit keeps_modify_lb : keeps.

Ltac keeps_step :=
  first
    [ solve [auto 1 with keeps nocore]
    | apply keeps_store_none; reflexivity
    | apply keeps_update_child; intros c; unfold latch_state, cache_picker;
      try case_match; by destruct c
    | apply keeps_bind; [|intros ?]
    | apply keeps_for_each; intros ?
    | apply keeps_foldM; intros ? ?
    | progress cbv zeta
    | progress case_match ].

Lemma keeps_UpdateStateLocked : keeps_policies UpdateStateLocked.
Proof.
  unfold UpdateStateLocked, count_child, add_cluster_picker. repeat keeps_step.
Qed.

#[local] Hint Resolve keeps_UpdateStateLocked : keeps.

Lemma keeps_Helper_call {channel : ChannelControlHelper} child h :
  keeps_policies (Helper_call child h).
Proof.
  destruct h; simpl;
    unfold Helper_UpdateState, Helper_CreateSubchannel,
      Helper_RequestReresolution, Helper_AddTraceEvent;
    repeat keeps_step.
Qed.

#[local] Hint Resolve keeps_Helper_call : keeps.

Lemma keeps_Orphan child : keeps_policies (ClusterChild_Orphan child).
Proof. unfold ClusterChild_Orphan. repeat keeps_step. Qed.

#[local] Hint Resolve keeps_Orphan : keeps.

Lemma keeps_exec {channel : ChannelControlHelper} {map_clear : MapClear}
    child_policy e :
  (∀ u, e ≠ EvUpdate u) → keeps_policies (exec child_policy e).
Proof.
  intros Hne. destruct e; simpl.
  - by destruct (Hne u).
  - unfold ShutdownLocked. repeat keeps_step.
  - unfold ExitIdleLocked, ClusterChild_ExitIdleLocked, call_child_policy.
    repeat keeps_step.
  - unfold ResetBackoffLocked, ClusterChild_ResetBackoffLocked, call_child_policy.
    repeat keeps_step.
  - apply keeps_Helper_call.
  - unfold ClusterChild_OnDelayedRemovalTimerLocked, children_erase.
    repeat keeps_step.
  - intros w a w' [= <- <-]. simpl. eauto.
Qed.

Section Owned.

Context {channel : ChannelControlHelper} {map_clear : MapClear}.

Variable child_policy : World → policy_call → list helper_call.
Hypothesis sane : never_reports_shutdown child_policy.

Lemma add_or_update_owned addrs a p w w' :
  XdsClusterManagerLb.shutting_down_ (lb w) = false →
  XdsClusterManagerLb.update_in_progress_ (lb w) = true →
  wf w →
  add_or_update child_policy addrs a p w = Done tt w' →
  owned_apart w → owned_apart w'.
Proof.
  intros Hsd Hflag Hwf Hrun Hown. destruct p as [name cfgv].
  destruct (add_or_update_exact child_policy addrs a name cfgv w Hsd Hflag Hwf)
    as (ptr & c & hs & Hcase & Hrun').
  rewrite Hrun' in Hrun. injection Hrun as <-.
  destruct (updated_child_lifecycle c (next_policy w) hs) as (_ & Hp' & _).
  apply (owned_apart_step w); cbn [next_policy heap]; [| |done].
  - destruct (ClusterChild.child_policy_ c); lia.
  - intros q c' pid Hc' Hpid. destruct (decide (q = ptr)) as [->|Hne].
    + rewrite lookup_insert_eq in Hc'. injection Hc' as <-.
      rewrite Hp' in Hpid. injection Hpid as <-.
      destruct Hcase as [(Hptr & Hc & [pid0 Hpid0])|(Hnone & Hnew & ->)].
      * left. exists c. by rewrite Hpid0.
      * right. simpl. split; [lia|]. intros q d Hd Hdp.
        destruct (decide (q = ptr)) as [|Hne]; [done|].
        rewrite lookup_insert_ne in Hd by done.
        destruct (Hown q d _ Hd Hdp). lia.
    + rewrite lookup_insert_ne in Hc' by done. left. by exists c'.
Qed.

(** An update pass keeps the child policies apart. *)
Lemma UpdateLocked_owned u w w' :
  XdsClusterManagerLb.shutting_down_ (lb w) = false → wf w →
  UpdateLocked child_policy u w = Done tt w' →
  owned_apart w → owned_apart w'.
Proof.
  intros Hsd Hwf Hrun Hown. unfold UpdateLocked in Hrun.
  unfold bind at 1 in Hrun. unfold gets at 1 in Hrun. rewrite Hsd in Hrun.
  unfold bind at 1 in Hrun. unfold modify_lb at 1 in Hrun. unfold modify at 1 in Hrun.
  unfold bind at 1 in Hrun. unfold modify_lb at 1 in Hrun. unfold modify at 1 in Hrun.
  unfold bind at 1 in Hrun. unfold gets at 1 in Hrun.
  set (cfg := config u) in *.
  set (wa := set_lb _ (set_lb _ w)) in *.
  set (ch0 := XdsClusterManagerLb.children_ (lb wa)) in *.
  assert (wf wa) as Hwfa by (by apply (wf_same_store w)).
  assert (propagating cfg wa wa) as Hpropa.
  { split; [done|]. split; [done|]. split; [done|]. split; [done|]. apply grown_refl. }
  unfold bind at 1 in Hrun.
  destruct (for_each deactivate_if_absent (entries ch0) wa) as [[] w1|] eqn:Hloop1;
    [|done].
  assert ((propagating cfg wa w1 ∧ XdsClusterManagerLb.children_ (lb w1) = ch0) ∧
          owned_apart w1) as [[Hprop1 Hch1] Hown1].
  { apply (for_each_preserves
             (λ w0, (propagating cfg wa w0 ∧
                     XdsClusterManagerLb.children_ (lb w0) = ch0) ∧ owned_apart w0)
             deactivate_if_absent (entries ch0) ) with (w := wa); [|done|done].
    intros p w0 w0' Hp [HI Hown0] Hstep.
    destruct (deactivate_if_absent_step child_policy sane cfg wa ch0 p w0 Hp HI)
      as (w0'' & Hstep' & HI').
    rewrite Hstep in Hstep'. injection Hstep' as <-.
    split; [done|]. by apply (deactivate_if_absent_owned p w0). }
  unfold bind at 1 in Hrun. unfold bind at 1 in Hrun. unfold gets at 1 in Hrun.
  destruct Hprop1 as (Hsd1 & Hflag1 & Hcfg1 & Hwf1 & Hgrown1).
  rewrite Hcfg1 in Hrun. cbn [deref ret] in Hrun.
  unfold bind at 1 in Hrun.
  destruct (for_each _ (entries cfg) w1) as [[] w2|] eqn:Hloop2; [|done].
  assert ((propagating cfg w1 w2 ∧
           XdsClusterManagerLb.children_ (lb w1) ⊆ XdsClusterManagerLb.children_ (lb w2) ∧
           (∀ q : string * LbConfig, q ∈ [] →
                is_Some (XdsClusterManagerLb.children_ (lb w2) !! q.1))) ∧
          owned_apart w2) as [[Hprop2 _] Hown2].
  { apply (for_each_preserves
             (λ w0, (propagating cfg w1 w0 ∧
                     XdsClusterManagerLb.children_ (lb w1)
                       ⊆ XdsClusterManagerLb.children_ (lb w0) ∧
                     (∀ q : string * LbConfig, q ∈ [] →
                        is_Some (XdsClusterManagerLb.children_ (lb w0) !! q.1))) ∧
                    owned_apart w0)
             (add_or_update child_policy (addresses u) (args u)) (entries cfg))
      with (w := w1); [| |done].
    - intros p w0 w0' Hp [HI Hown0] Hstep.
      destruct (add_or_update_step child_policy sane cfg w1
                  (XdsClusterManagerLb.children_ (lb w1)) (addresses u) (args u)
                  [] p w0 HI) as (w0'' & Hstep' & Hprop' & Hsub' & _).
      rewrite Hstep in Hstep'. injection Hstep' as <-.
      split.
      + split; [done|]. split; [done|]. by intros q ?%elem_of_nil.
      + destruct HI as ((? & ? & ? & ? & _) & _).
        by apply (add_or_update_owned (addresses u) (args u) p w0).
    - split; [|done]. split.
      + split; [done|]. split; [done|]. split; [done|]. split; [done|].
        apply grown_refl.
      + split; [done|]. by intros q ?%elem_of_nil. }
  unfold bind at 1 in Hrun. unfold modify_lb at 1 in Hrun. unfold modify at 1 in Hrun.
  destruct (keeps_UpdateStateLocked _ _ _ Hrun) as [Hnp Hrec].
  by apply (owned_apart_kept (set_lb
              (XdsClusterManagerLb.set_update_in_progress_ false (lb w2)) w2)).
Qed.

(** In every reachable state the child policies are owned apart. *)
Lemma reachable_owned w : reachable child_policy w → owned_apart w.
Proof.
  induction 1 as [t|w e w' Hreach IH Hgood Hrun].
  - intros p c pid Hc. unfold initial_world in Hc. cbn [heap] in Hc.
    by rewrite lookup_empty in Hc.
  - destruct (reachable_wf child_policy sane w Hreach) as [Hwf _].
    assert ((∃ u, e = EvUpdate u) ∨ ∀ u, e ≠ EvUpdate u) as [[u ->]|Hne]
      by (destruct e; eauto).
    + simpl in Hrun.
      destruct (XdsClusterManagerLb.shutting_down_ (lb w)) eqn:Hsd.
      * rewrite (UpdateLocked_shut _ _ _ Hsd) in Hrun. by injection Hrun as <-.
      * by apply (UpdateLocked_owned u w).
    + destruct (keeps_exec child_policy e Hne w tt w' Hrun) as [Hnp Hrec].
      by apply (owned_apart_kept w).
Qed.

End Owned.

(** X4: an update pass on a policy that is not shut down removes no record
    and files one under every name of the new configuration: afterwards
    [children_] has the names it had and the configured ones, the records
    that were filed are filed as before, a name that had no record has one
    at an address that was not in use, and no two names share a record. *)
Theorem update_keeps_and_adds_records {channel : ChannelControlHelper}
    (child_policy : World → policy_call → list helper_call)
    (u : UpdateArgs) (w : World) :
  never_reports_shutdown child_policy →
  XdsClusterManagerLb.shutting_down_ (lb w) = false →
  wf w →
  ∃ w',
    UpdateLocked child_policy u w = Done tt w' ∧
    XdsClusterManagerLb.children_ (lb w) ⊆ XdsClusterManagerLb.children_ (lb w') ∧
    (∀ name, is_Some (XdsClusterManagerLb.children_ (lb w') !! name) ↔
             is_Some (XdsClusterManagerLb.children_ (lb w) !! name) ∨
             is_Some (config u !! name)) ∧
    (∀ name ptr, XdsClusterManagerLb.children_ (lb w') !! name = Some ptr →
                 XdsClusterManagerLb.children_ (lb w) !! name = None →
                 ptr ∉ dom (heap w)) ∧
    (∀ name1 name2 ptr,
       XdsClusterManagerLb.children_ (lb w') !! name1 = Some ptr →
       XdsClusterManagerLb.children_ (lb w') !! name2 = Some ptr →
       name1 = name2).
Proof.
  intros Hsane Hsd Hwf.
  destruct (UpdateLocked_detail child_policy Hsane u w Hsd Hwf)
    as (w' & new & Hrun & _ & Hwf' & Hsub & Hkeys & Hfresh & _).
  exists w'. split; [done|]. split; [done|]. split; [done|]. split; [done|].
  intros name1 name2 ptr. by apply wf_injective.
Qed.

Lemma update_keeps_and_adds_records_witness :
  ∃ w', UpdateLocked (channel := example_channel)
      eager_policy (update_with {[ "B" := "polY"; "C" := "polZ" ]})
          world_AB = Done tt w' ∧
        XdsClusterManagerLb.children_ (lb w') !! "A" = Some 0 ∧
        is_Some (XdsClusterManagerLb.children_ (lb w') !! "C").
Proof.
  assert (wf world_AB) as Hwf.
  { apply (bool_decide_unpack _). vm_compute. exact I. }
  destruct (update_keeps_and_adds_records (channel := example_channel) eager_policy
              (update_with {[ "B" := "polY"; "C" := "polZ" ]}) world_AB
              eager_policy_sane eq_refl Hwf)
    as (w' & Hrun & Hsub & Hkeys & _).
  exists w'. split; [exact Hrun|]. split.
  - apply (lookup_weaken _ _ _ _ (eq_refl : XdsClusterManagerLb.children_
      (lb world_AB) !! "A" = Some 0) Hsub).
  - apply Hkeys. right. vm_compute. eauto.
Defined.

(** X5: after an update pass, a record filed in [children_] is pending
    removal exactly when its name is not in the new configuration.  The
    record of a name that is not configured is otherwise left as it was: it
    keeps its child policy, its picker and its state. *)
Theorem update_pending_iff_unconfigured {channel : ChannelControlHelper}
    (child_policy : World → policy_call → list helper_call)
    (u : UpdateArgs) (w : World) :
  never_reports_shutdown child_policy →
  XdsClusterManagerLb.shutting_down_ (lb w) = false →
  wf w →
  ∃ w',
    UpdateLocked child_policy u w = Done tt w' ∧
    (∀ name ptr c', XdsClusterManagerLb.children_ (lb w') !! name = Some ptr →
                    heap w' !! ptr = Some c' →
       (ClusterChild.delayed_removal_timer_callback_pending_ c' = true ↔
        config u !! name = None)) ∧
    (∀ name ptr c, XdsClusterManagerLb.children_ (lb w) !! name = Some ptr →
                   config u !! name = None → heap w !! ptr = Some c →
       heap w' !! ptr =
         Some (ClusterChild.set_delayed_removal_timer_callback_pending_ true c)).
Proof.
  intros Hsane Hsd Hwf.
  destruct (UpdateLocked_detail child_policy Hsane u w Hsd Hwf)
    as (w' & new & Hrun & _ & Hwf' & Hsub & Hkeys & _ & Hleft & Hconf & _).
  exists w'. split; [done|]. split; [|done].
  intros name ptr c' Hptr Hc'. destruct (config u !! name) as [cfgv|] eqn:Hname.
  - rewrite (Hconf name ptr c' Hptr Hc') by (rewrite Hname; eauto). done.
  - split; [done|]. intros _.
    destruct (proj1 (Hkeys name)) as [[ptr0 Hptr0]|[? ?]]; [by eauto| |congruence].
    assert (ptr0 = ptr) as ->.
    { pose proof (lookup_weaken _ _ _ _ Hptr0 Hsub). congruence. }
    destruct (Hwf name ptr Hptr0) as (c & Hc & _).
    rewrite (Hleft name ptr c Hptr0 Hname Hc) in Hc'. by injection Hc' as <-.
Qed.

Lemma update_pending_iff_unconfigured_witness :
  ∃ w', UpdateLocked (channel := example_channel)
      eager_policy (update_with config_A) world_AB = Done tt w' ∧
        heap w' !! 1 =
          Some (ClusterChild.mk "B" (Some 1) None GRPC_CHANNEL_IDLE true false).
Proof.
  assert (wf world_AB) as Hwf.
  { apply (bool_decide_unpack _). vm_compute. exact I. }
  destruct (update_pending_iff_unconfigured (channel := example_channel)
      eager_policy (update_with config_A)
              world_AB eager_policy_sane eq_refl Hwf) as (w' & Hrun & _ & Hleft).
  exists w'. split; [exact Hrun|].
  apply (Hleft "B" 1 (ClusterChild.mk "B" (Some 1) None GRPC_CHANNEL_IDLE false false));
    vm_compute; reflexivity.
Defined.

(** X6: an update pass arms a removal timer exactly for the records whose
    name is not in the new configuration and that are not pending removal
    already, one each, with the deadline fifteen minutes after the current
    time.  A record that is pending already is not armed again.  (Time is
    an unbounded integer here: [Timestamp] and its addition are declared in
    time.h, which is not among the sources.) *)
Theorem update_arms_timers {channel : ChannelControlHelper}
    (child_policy : World → policy_call → list helper_call)
    (u : UpdateArgs) (w : World) :
  never_reports_shutdown child_policy →
  XdsClusterManagerLb.shutting_down_ (lb w) = false →
  wf w →
  ∃ w' new,
    UpdateLocked child_policy u w = Done tt w' ∧
    trace w' = trace w ++ new ∧
    ∀ q d, TimerInit q d ∈ new ↔
      d = (now w + 15 * 60 * 1000)%Z ∧
      ∃ name c, XdsClusterManagerLb.children_ (lb w) !! name = Some q ∧
                config u !! name = None ∧
                heap w !! q = Some c ∧
                ClusterChild.delayed_removal_timer_callback_pending_ c = false.
Proof.
  intros Hsane Hsd Hwf.
  destruct (UpdateLocked_detail child_policy Hsane u w Hsd Hwf)
    as (w' & new & Hrun & Htrace & _ & _ & _ & _ & _ & _ & Htimers & _).
  exists w', new. split; [done|]. split; [done|].
  intros q d. rewrite Htimers. unfold timer_started. simpl. split.
  - intros (name & Hq & Ht). destruct (config u !! name) eqn:Hname; [done|].
    destruct (heap w !! q) as [c|] eqn:Hc; [|done].
    destruct (ClusterChild.delayed_removal_timer_callback_pending_ c) eqn:Hpend;
      [done|].
    injection Ht as <-. split; [done|]. by exists name, c.
  - intros (-> & name & c & Hq & Hname & Hc & Hpend). exists name.
    by rewrite Hname, Hc, Hpend.
Qed.

Lemma update_arms_timers_witness :
  ∃ w' new, UpdateLocked (channel := example_channel)
      eager_policy (update_with config_A) world_AB = Done tt w' ∧
            trace w' = trace world_AB ++ new ∧
            TimerInit 1 900000 ∈ new.
Proof.
  assert (wf world_AB) as Hwf.
  { apply (bool_decide_unpack _). vm_compute. exact I. }
  destruct (update_arms_timers (channel := example_channel)
      eager_policy (update_with config_A)
              world_AB eager_policy_sane eq_refl Hwf) as (w' & new & Hrun & Htr & Ht).
  exists w', new. split; [exact Hrun|]. split; [exact Htr|].
  apply Ht. split; [reflexivity|].
  exists "B", (ClusterChild.mk "B" (Some 1) None GRPC_CHANNEL_IDLE false false).
  repeat split; vm_compute; reflexivity.
Defined.

(** X7: an update pass updates the child policy of every configured name
    with the name's own config and with the addresses and the channel args
    of the update as they came.  It makes no other call on a child policy:
    every call it makes is such an update, of the child policy owned by the
    record filed under a configured name.  So, each child policy being
    owned by one record, as it is in every reachable state, no method is
    called on the child policy of a record whose name is not configured. *)
Theorem update_forwards_to_configured_children
    {channel : ChannelControlHelper} {map_clear : MapClear}
    (child_policy : World → policy_call → list helper_call)
    (u : UpdateArgs) (w : World) :
  never_reports_shutdown child_policy →
  XdsClusterManagerLb.shutting_down_ (lb w) = false →
  wf w →
  ∃ w' new,
    UpdateLocked child_policy u w = Done tt w' ∧
    trace w' = trace w ++ new ∧
    (∀ name cfgv, config u !! name = Some cfgv →
       ∃ ptr c' pid,
         XdsClusterManagerLb.children_ (lb w') !! name = Some ptr ∧
         heap w' !! ptr = Some c' ∧
         ClusterChild.child_policy_ c' = Some pid ∧
         ChildPolicyCall (CallUpdate pid cfgv (addresses u) (args u)) ∈ new) ∧
    (∀ call, ChildPolicyCall call ∈ new →
       ∃ pid name cfgv ptr c',
         config u !! name = Some cfgv ∧
         XdsClusterManagerLb.children_ (lb w') !! name = Some ptr ∧
         heap w' !! ptr = Some c' ∧
         ClusterChild.child_policy_ c' = Some pid ∧
         call = CallUpdate pid cfgv (addresses u) (args u)) ∧
    (reachable child_policy w → owned_apart w) ∧
    (owned_apart w →
     ∀ name ptr c pid,
       XdsClusterManagerLb.children_ (lb w') !! name = Some ptr →
       config u !! name = None →
       heap w' !! ptr = Some c → ClusterChild.child_policy_ c = Some pid →
       ∀ call, ChildPolicyCall call ∈ new → called_policy call ≠ pid).
Proof.
  intros Hsane Hsd Hwf.
  destruct (UpdateLocked_detail child_policy Hsane u w Hsd Hwf)
    as (w' & new & Hrun & Htrace & Hwf' & _ & _ & _ & _ & _ & _ & Hcalls & Hconf & _).
  exists w', new. split; [done|]. split; [done|].
  split; [|split; [done|split; [by apply reachable_owned|]]].
  - intros name cfgv Hname.
    destruct (Hconf name cfgv Hname) as (ptr & c' & pid & ? & ? & ? & ? & _).
    by exists ptr, c', pid.
  - intros Hown name ptr c pid Hptr Hnone Hc Hpid call Hin Hcalled.
    pose proof (UpdateLocked_owned child_policy Hsane u w w' Hsd Hwf Hrun Hown)
      as Hown'.
    destruct (Hcalls call Hin)
      as (pid' & name' & cfgv & ptr' & c' & Hname' & Hptr' & Hc' & Hpid' & ->).
    simpl in Hcalled. subst pid'.
    destruct (Hown' ptr c pid Hc Hpid) as [_ Hapart].
    assert (ptr' = ptr) as -> by (by apply (Hapart ptr' c')).
    assert (name' = name) as -> by (by apply (wf_injective w' name' name ptr)).
    congruence.
Qed.

Lemma update_forwards_to_configured_children_witness :
  ∃ w' new,
    UpdateLocked (channel := example_channel) eager_policy
      (mkUpdateArgs config_A (inr ["10.0.0.1:443"]) [("grpc.lb", "x")]) world_AB
      = Done tt w' ∧
    trace w' = trace world_AB ++ new ∧
    (∃ pid, ChildPolicyCall
              (CallUpdate pid "polX" (inr ["10.0.0.1:443"]) [("grpc.lb", "x")]) ∈ new) ∧
    XdsClusterManagerLb.children_ (lb w') !! "B" = Some 1 ∧
    (∀ call, ChildPolicyCall call ∈ new → called_policy call ≠ 1).
Proof.
  assert (wf world_AB) as Hwf.
  { apply (bool_decide_unpack _). vm_compute. exact I. }
  assert (owned_apart world_AB) as Hown.
  { apply (reachable_owned (channel := example_channel) (map_clear := libstdcxx_clear)
             quiet_policy (λ w c st status pk H, False_ind _ (not_elem_of_nil _ H))).
    apply (reachable_step quiet_policy (initial_world 0)
             (EvUpdate (update_with config_AB)) world_AB).
    - apply reachable_initial.
    - exact I.
    - exact world_AB_reached. }
  destruct (update_forwards_to_configured_children (channel := example_channel)
              (map_clear := libstdcxx_clear) eager_policy
              (mkUpdateArgs config_A (inr ["10.0.0.1:443"]) [("grpc.lb", "x")])
              world_AB eager_policy_sane eq_refl Hwf)
    as (w' & new & Hrun & Htr & Hconf & _ & _ & Hother).
  exists w', new. split; [exact Hrun|]. split; [exact Htr|]. split.
  { destruct (Hconf "A" "polX") as (ptr & c' & pid & _ & _ & _ & Hcall);
      [vm_compute; reflexivity|].
    by exists pid. }
  assert (XdsClusterManagerLb.children_ (lb w') !! "B" = Some 1) as HB.
  { vm_compute in Hrun. injection Hrun as <-. vm_compute. reflexivity. }
  split; [exact HB|].
  apply (Hother Hown "B" 1
           (ClusterChild.mk "B" (Some 1) None GRPC_CHANNEL_IDLE true false) 1 HB).
  - vm_compute. reflexivity.
  - vm_compute in Hrun. injection Hrun as <-. vm_compute. reflexivity.
  - reflexivity.
Defined.

(** X8: an update pass instantiates a child policy exactly for the
    configured names that had no record, one each, owned by the record
    that is created for the name.  A record that was filed already,
    configured or not, gets no new child policy. *)
Theorem update_instantiates_for_new_names {channel : ChannelControlHelper}
    (child_policy : World → policy_call → list helper_call)
    (u : UpdateArgs) (w : World) :
  never_reports_shutdown child_policy →
  XdsClusterManagerLb.shutting_down_ (lb w) = false →
  wf w →
  ∃ w' new,
    UpdateLocked child_policy u w = Done tt w' ∧
    trace w' = trace w ++ new ∧
    ∀ q pid, CreateChildPolicy q pid ∈ new ↔
      ∃ name c', is_Some (config u !! name) ∧
                 XdsClusterManagerLb.children_ (lb w) !! name = None ∧
                 XdsClusterManagerLb.children_ (lb w') !! name = Some q ∧
                 heap w' !! q = Some c' ∧
                 ClusterChild.child_policy_ c' = Some pid.
Proof.
  intros Hsane Hsd Hwf.
  destruct (UpdateLocked_detail child_policy Hsane u w Hsd Hwf)
    as (w' & new & Hrun & Htrace & _ & _ & Hkeys & _ & _ & _ & _ & _ & Hconf & Hcre & _).
  exists w', new. split; [done|]. split; [done|].
  intros q pid. split.
  - intros (name & c' & Hnone & Hq & Hc' & Hpol)%Hcre.
    exists name, c'. split; [|done].
    destruct (proj1 (Hkeys name)) as [[? ?]|?]; [by eauto|congruence|done].
  - intros (name & c' & [cfgv Hname] & Hnone & Hq & Hc' & Hpol).
    destruct (Hconf name cfgv Hname) as (ptr & c'' & pid' & ? & ? & ? & _ & Hnew).
    assert (ptr = q) as -> by congruence.
    assert (c'' = c') as -> by congruence.
    assert (pid' = pid) as -> by congruence.
    by apply Hnew.
Qed.

Lemma update_instantiates_for_new_names_witness :
  ∃ w' new,
    UpdateLocked (channel := example_channel)
        eager_policy (update_with {[ "B" := "polY"; "C" := "polZ" ]})
      world_AB = Done tt w' ∧
    trace w' = trace world_AB ++ new ∧
    CreateChildPolicy 2 2 ∈ new.
Proof.
  assert (wf world_AB) as Hwf.
  { apply (bool_decide_unpack _). vm_compute. exact I. }
  destruct (update_instantiates_for_new_names (channel := example_channel) eager_policy
              (update_with {[ "B" := "polY"; "C" := "polZ" ]})
              world_AB eager_policy_sane eq_refl Hwf) as (w' & new & Hrun & Htr & Hcre).
  exists w', new. split; [exact Hrun|]. split; [exact Htr|].
  pose proof Hrun as Hrun'. vm_compute in Hrun'. injection Hrun' as Hw'.
  apply Hcre. rewrite <- Hw'.
  eexists "C", _. repeat split; try (vm_compute; reflexivity).
  vm_compute. eauto.
Defined.

(** ** What every run keeps *)

Lemma same_records_refl w : same_records w w.
Proof.
  split; [done|]. split; [done|]. intros ptr c c' Hc Hc'. by simplify_eq.
Qed.

Lemma same_records_trans w1 w2 w3 :
  same_records w1 w2 → same_records w2 w3 → same_records w1 w3.
Proof.
  intros (Hlb & Hdom & Hrec) (Hlb' & Hdom' & Hrec').
  split; [congruence|]. split; [congruence|]. intros ptr c c'' Hc Hc''.
  assert (is_Some (heap w2 !! ptr)) as [c' Hc'].
  { apply elem_of_dom. rewrite Hdom. apply elem_of_dom. eauto. }
  destruct (Hrec ptr c c' Hc Hc') as (<- & <- & <- & <-).
  by apply (Hrec' ptr).
Qed.

Lemma same_records_trace w t : same_records w (set_trace t w).
Proof.
  split; [done|]. split; [done|]. simpl. intros ptr c c' Hc Hc'. by simplify_eq.
Qed.

Lemma Helper_call_same_records {channel : ChannelControlHelper} child h w w' :
  Helper_call child h w = Done tt w' → same_records w w'.
Proof.
  intros (Hlb & [Hheap|(c & Hc & Hheap)])%Helper_call_frame.
  - split; [done|]. rewrite Hheap. split; [done|]. intros ptr d d' Hd Hd'.
    by simplify_eq.
  - split; [done|]. rewrite Hheap. split.
    { rewrite dom_insert_L. apply elem_of_dom_2 in Hc. set_solver. }
    intros ptr d d'. destruct (decide (ptr = child)) as [->|Hne].
    + rewrite lookup_insert_eq, Hc. intros [= <-] [= <-].
      destruct (absorb_lifecycle c [h]) as (? & ? & ? & ?). done.
    + rewrite lookup_insert_ne by done. intros Hd Hd'. by simplify_eq.
Qed.

Lemma for_each_same_records {A} (f : A → M unit) (l : list A) :
  (∀ x w w', x ∈ l → f x w = Done tt w' → same_records w w') →
  ∀ w w', for_each f l w = Done tt w' → same_records w w'.
Proof.
  intros Hf w w' Hrun.
  apply (for_each_preserves (same_records w) f l) with (w := w) (w' := w');
    [|apply same_records_refl|done].
  intros x w1 w2 Hx Hsame Hstep. eapply same_records_trans; [done|]. by eapply Hf.
Qed.

Lemma call_child_policy_same_records {channel : ChannelControlHelper}
    child_policy child c w w' :
  call_child_policy child_policy child c w = Done tt w' → same_records w w'.
Proof.
  unfold call_child_policy.
  unfold bind at 1. unfold emit at 1. unfold modify at 1.
  unfold bind at 1. unfold gets at 1. intros Hrun.
  eapply same_records_trans; [apply (same_records_trace w)|].
  eapply for_each_same_records; [|exact Hrun].
  intros h w1 w2 _. apply Helper_call_same_records.
Qed.

Lemma ExitIdleLocked_same_records {channel : ChannelControlHelper} child_policy w w' :
  ExitIdleLocked child_policy w = Done tt w' → same_records w w'.
Proof.
  unfold ExitIdleLocked. unfold bind at 1. unfold gets at 1.
  apply for_each_same_records. intros p w1 w2 _.
  unfold ClusterChild_ExitIdleLocked.
  unfold bind at 1. unfold load at 1. destruct (heap w1 !! p.2) as [c|]; [|done].
  unfold bind at 1. destruct (ClusterChild.child_policy_ c) as [pid|]; [|done].
  simpl. apply call_child_policy_same_records.
Qed.

Lemma ResetBackoffLocked_same_records {channel : ChannelControlHelper} child_policy w w' :
  ResetBackoffLocked child_policy w = Done tt w' → same_records w w'.
Proof.
  unfold ResetBackoffLocked. unfold bind at 1. unfold gets at 1.
  apply for_each_same_records. intros p w1 w2 _.
  unfold ClusterChild_ResetBackoffLocked.
  unfold bind at 1. unfold load at 1. destruct (heap w1 !! p.2) as [c|]; [|done].
  unfold bind at 1. destruct (ClusterChild.child_policy_ c) as [pid|]; [|done].
  simpl. apply call_child_policy_same_records.
Qed.

Lemma same_records_live_filed w w' :
  same_records w w' → live_filed w → live_filed w'.
Proof.
  intros (Hlb & Hdom & Hrec) Hlive ptr c' Hc' Hsh.
  assert (is_Some (heap w !! ptr)) as [c Hc].
  { apply elem_of_dom. rewrite <- Hdom. apply elem_of_dom. eauto. }
  destruct (Hrec ptr c c' Hc Hc') as (Hn & _ & _ & Hs).
  rewrite Hlb, Hn. apply Hlive; [done|congruence].
Qed.

Lemma same_records_configured_first w w' :
  same_records w w' → configured_first w → configured_first w'.
Proof.
  intros (Hlb & Hdom & _) Hfirst Hnone. rewrite Hlb in Hnone.
  apply dom_empty_inv_L. by rewrite Hdom, (Hfirst Hnone), dom_empty_L.
Qed.

Lemma same_records_pending_unconfigured w w' :
  same_records w w' → pending_unconfigured w → pending_unconfigured w'.
Proof.
  intros (Hlb & Hdom & Hrec) Hpend cfg name ptr c' Hcfg Hptr Hc' Hp.
  rewrite Hlb in Hcfg, Hptr.
  assert (is_Some (heap w !! ptr)) as [c Hc].
  { apply elem_of_dom. rewrite <- Hdom. apply elem_of_dom. eauto. }
  destruct (Hrec ptr c c' Hc Hc') as (_ & _ & Hp' & _).
  apply (Hpend cfg name ptr c); [done..|congruence].
Qed.

Lemma same_records_configured_present w w' :
  same_records w w' → configured_present w → configured_present w'.
Proof. intros (Hlb & _) Hpresent cfg name. rewrite Hlb. apply Hpresent. Qed.

Lemma ClusterChild_Orphan_heap child w w' :
  ClusterChild_Orphan child w = Done tt w' →
  ∃ c, heap w !! child = Some c ∧ lb w' = lb w ∧
       heap w' = <[child := orphaned c]> (heap w).
Proof.
  intros Hrun. destruct (heap w !! child) as [c|] eqn:Hc.
  - destruct (ClusterChild.child_policy_ c) as [pid|] eqn:Hpid.
    + rewrite (ClusterChild_Orphan_eq _ _ _ _ Hc Hpid) in Hrun.
      injection Hrun as <-. by exists c.
    + unfold ClusterChild_Orphan in Hrun. unfold_monad.
      rewrite Hc in Hrun. simpl in Hrun. by rewrite Hpid in Hrun.
  - unfold ClusterChild_Orphan in Hrun. unfold_monad. by rewrite Hc in Hrun.
Qed.

(** [ShutdownLocked] touches the records that are filed only. *)
Lemma ShutdownLocked_unfiled {map_clear : MapClear} w w' ptr :
  ShutdownLocked w = Done tt w' →
  (∀ name, XdsClusterManagerLb.children_ (lb w) !! name ≠ Some ptr) →
  heap w' !! ptr = heap w !! ptr.
Proof.
  unfold ShutdownLocked.
  unfold bind at 1. unfold modify_lb at 1. unfold modify at 1.
  unfold bind at 1. unfold gets at 1.
  set (w0 := set_lb _ w). intros Hrun Hunfiled. unfold bind in Hrun.
  destruct (for_each _ _ w0) as [[] w1|] eqn:Hloop; [|done].
  unfold modify_lb, modify in Hrun. injection Hrun as <-. cbn [heap set_lb].
  apply (for_each_preserves (λ w2, heap w2 !! ptr = heap w !! ptr) _ _)
    with (w := w0) (w' := w1) in Hloop; [done| |done].
  intros [name q] w2 w3 Hin%elem_of_clear_order Hsame
    (c & Hc & _ & Hheap)%ClusterChild_Orphan_heap.
  rewrite Hheap. simpl. rewrite lookup_insert_ne; [done|].
  intros <-. by apply (Hunfiled name).
Qed.

(** What the removal timer's callback does, by cases. *)
Lemma OnDelayedRemovalTimerLocked_cases child error w w' :
  wf w → live_filed w →
  ClusterChild_OnDelayedRemovalTimerLocked child error w = Done tt w' →
  ∃ c, heap w !! child = Some c ∧
    ((GRPC_ERROR_IS_NONE error = false ∨ ClusterChild.shutdown_ c = true) ∧
     lb w' = lb w ∧
     heap w' = <[child := ClusterChild.set_delayed_removal_timer_callback_pending_
                            false c]> (heap w)
     ∨
     GRPC_ERROR_IS_NONE error = true ∧ ClusterChild.shutdown_ c = false ∧
     XdsClusterManagerLb.children_ (lb w) !! ClusterChild.name_ c = Some child ∧
     lb w' = XdsClusterManagerLb.set_children_
               (delete (ClusterChild.name_ c) (XdsClusterManagerLb.children_ (lb w)))
               (lb w) ∧
     heap w' = <[child := orphaned
                   (ClusterChild.set_delayed_removal_timer_callback_pending_ false c)]>
                 (heap w)).
Proof.
  intros Hwf Hlive Hrun. destruct (heap w !! child) as [c|] eqn:Hc.
  2:{ unfold ClusterChild_OnDelayedRemovalTimerLocked in Hrun. unfold_monad.
      by rewrite Hc in Hrun. }
  exists c. split; [done|].
  destruct (GRPC_ERROR_IS_NONE error) eqn:Herr;
    [destruct (ClusterChild.shutdown_ c) eqn:Hsh|].
  - rewrite (OnDelayedRemovalTimerLocked_noop child error w c Hc) in Hrun by (by right).
    injection Hrun as <-. left. by split; [right|].
  - assert (error = GRPC_ERROR_NONE) as -> by (by destruct error).
    pose proof (Hlive child c Hc Hsh) as Hfiled.
    destruct (Hwf _ _ Hfiled) as (c' & Hc' & _ & [pid Hpid] & _).
    assert (c' = c) as -> by congruence.
    rewrite (OnDelayedRemovalTimerLocked_erases child w c pid Hc Hsh Hpid Hfiled) in Hrun.
    injection Hrun as <-. right. done.
  - rewrite (OnDelayedRemovalTimerLocked_noop child error w c Hc) in Hrun by (by left).
    injection Hrun as <-. left. by split; [left|].
Qed.

Section RunInvariants.

Context {channel : ChannelControlHelper} {map_clear : MapClear}.

Variable child_policy : World → policy_call → list helper_call.
Hypothesis sane : never_reports_shutdown child_policy.

Lemma UpdateLocked_live_filed u w w' :
  XdsClusterManagerLb.shutting_down_ (lb w) = false → wf w → live_filed w →
  UpdateLocked child_policy u w = Done tt w' → live_filed w'.
Proof.
  intros Hsd Hwf Hlive Hrun.
  destruct (UpdateLocked_detail child_policy sane u w Hsd Hwf)
    as (w'' & new & Hrun' & _ & Hwf' & Hsub & _ & _ & _ & _ & _ & _ & _ & _ &
        Hunfiled & _).
  rewrite Hrun in Hrun'. injection Hrun' as <-.
  intros ptr c' Hc' Hsh.
  destruct (decide (map_Exists (λ _ q, q = ptr)
                      (XdsClusterManagerLb.children_ (lb w'))))
    as [(name & q & Hq & Heq)|Hnone].
  - subst q. destruct (Hwf' name ptr Hq) as (d & Hd & Hname & _).
    assert (d = c') as -> by congruence. by rewrite Hname.
  - assert (∀ name, XdsClusterManagerLb.children_ (lb w') !! name ≠ Some ptr)
      as Hnot.
    { intros name Hq. apply Hnone. by exists name, ptr. }
    rewrite (Hunfiled ptr Hnot) in Hc'.
    pose proof (Hlive ptr c' Hc' Hsh) as Hfiled.
    by apply (lookup_weaken _ _ _ _ Hfiled).
Qed.

(** What every call keeps: the records that are not orphaned are filed, and
    there is no record before there is a configuration. *)
Lemma exec_filed e w w' :
  wf w → well_behaved e →
  exec child_policy e w = Done tt w' →
  live_filed w ∧ configured_first w →
  live_filed w' ∧ configured_first w'.
Proof.
  intros Hwf Hgood Hrun [Hlive Hfirst].
  assert (∀ w'', same_records w w'' → live_filed w'' ∧ configured_first w'')
    as Hsame.
  { intros w'' Hs. split;
      [by eapply same_records_live_filed|by eapply same_records_configured_first]. }
  destruct e as [u| | | |child h|child error|t]; simpl in Hrun.
  - destruct (XdsClusterManagerLb.shutting_down_ (lb w)) eqn:Hsd.
    { rewrite (UpdateLocked_shut _ _ _ Hsd) in Hrun. by injection Hrun as <-. }
    split; [by eapply UpdateLocked_live_filed|].
    destruct (UpdateLocked_spec child_policy sane u w Hsd Hwf)
      as (w'' & pub & Hrun' & _ & _ & _ & Hcfg & _).
    rewrite Hrun in Hrun'. injection Hrun' as <-. intros Hnone. congruence.
  - destruct (ShutdownLocked_spec w Hwf) as (w'' & Hrun' & Hlb & _ & Hall).
    rewrite Hrun in Hrun'. injection Hrun' as <-. split.
    + intros ptr c' Hc' Hsh. exfalso.
      destruct (decide (map_Exists (λ _ q, q = ptr)
                          (XdsClusterManagerLb.children_ (lb w))))
        as [(name & q & Hq & Heq)|Hnone].
      * subst q. destruct (Hall name ptr Hq) as (c & pid & _ & _ & Hc'' & _).
        rewrite Hc'' in Hc'. injection Hc' as <-. done.
      * assert (∀ name, XdsClusterManagerLb.children_ (lb w) !! name ≠ Some ptr)
          as Hnot.
        { intros name Hq. apply Hnone. by exists name, ptr. }
        rewrite (ShutdownLocked_unfiled w w' ptr Hrun Hnot) in Hc'.
        apply (Hnot (ClusterChild.name_ c')). by apply Hlive.
    + intros Hnone. rewrite Hlb in Hnone. simpl in Hnone.
      apply map_eq. intros ptr. rewrite lookup_empty.
      rewrite (ShutdownLocked_unfiled w w' ptr Hrun).
      * by rewrite (Hfirst Hnone), lookup_empty.
      * intros name Hq. destruct (Hwf name ptr Hq) as (c & Hc & _).
        by rewrite (Hfirst Hnone), lookup_empty in Hc.
  - by apply Hsame, (ExitIdleLocked_same_records child_policy).
  - by apply Hsame, (ResetBackoffLocked_same_records child_policy).
  - by apply Hsame, (Helper_call_same_records child h).
  - destruct (OnDelayedRemovalTimerLocked_cases child error w w' Hwf Hlive Hrun)
      as (c & Hc & [(_ & Hlb & Hheap)|(_ & Hsh & Hfiled & Hlb & Hheap)]).
    + split.
      * intros ptr c'. rewrite Hlb, Hheap.
        destruct (decide (ptr = child)) as [->|Hne].
        -- rewrite lookup_insert_eq. intros [= <-]. simpl. by apply Hlive.
        -- rewrite lookup_insert_ne by done. apply Hlive.
      * intros Hnone. rewrite Hlb in Hnone.
        by rewrite (Hfirst Hnone), lookup_empty in Hc.
    + split.
      * intros ptr c'. rewrite Hlb, Hheap. simpl.
        destruct (decide (ptr = child)) as [->|Hne].
        -- rewrite lookup_insert_eq. by intros [= <-].
        -- rewrite lookup_insert_ne by done. intros Hc' Hsh'.
           pose proof (Hlive ptr c' Hc' Hsh') as Hq.
           rewrite lookup_delete_ne; [done|]. intros Heq. rewrite Heq in Hfiled.
           congruence.
      * intros Hnone. rewrite Hlb in Hnone. simpl in Hnone.
        by rewrite (Hfirst Hnone), lookup_empty in Hc.
  - unfold modify in Hrun. injection Hrun as <-. done.
Qed.

Lemma reachable_filed w :
  reachable child_policy w → live_filed w ∧ configured_first w.
Proof.
  induction 1 as [t|w e w' Hreach IH Hgood Hrun].
  - split; [by intros ptr c ?|done].
  - destruct (reachable_wf child_policy sane w Hreach) as [Hwf _].
    by apply (exec_filed e w w').
Qed.

Lemma raceless_reachable w : raceless child_policy w → reachable child_policy w.
Proof.
  induction 1 as [t|w e w' _ IH Hgood _ Hrun]; [apply reachable_initial|].
  by apply (reachable_step child_policy w e w').
Qed.

(** With the timer callbacks run in time, every configured name keeps its
    record while the policy is not shut down. *)
Lemma raceless_present w :
  raceless child_policy w →
  XdsClusterManagerLb.shutting_down_ (lb w) = false →
  configured_present w ∧ pending_unconfigured w.
Proof.
  induction 1 as [t|w e w' Hrace IH Hgood Htimely Hrun].
  { intros _. split; [by intros cfg name ?|by intros cfg name ptr c ?]. }
  pose proof (raceless_reachable w Hrace) as Hreach.
  destruct (reachable_wf child_policy sane w Hreach) as [Hwf Hflag].
  destruct (reachable_filed w Hreach) as [Hlive Hfirst].
  assert (∀ w'', same_records w w'' →
            XdsClusterManagerLb.shutting_down_ (lb w'') = false →
            configured_present w'' ∧ pending_unconfigured w'') as Hsame.
  { intros w'' Hs Hsd. destruct IH as [Hpres Hpend].
    { destruct Hs as [Hlb _]. by rewrite Hlb in Hsd. }
    split; [by eapply same_records_configured_present
           |by eapply same_records_pending_unconfigured]. }
  destruct e as [u| | | |child h|child error|t]; simpl in Hrun.
  - destruct (XdsClusterManagerLb.shutting_down_ (lb w)) eqn:Hsd.
    { rewrite (UpdateLocked_shut _ _ _ Hsd) in Hrun. injection Hrun as <-.
      congruence. }
    intros _.
    destruct (UpdateLocked_detail child_policy sane u w Hsd Hwf)
      as (w'' & new & Hrun' & _ & Hwf' & _ & Hkeys & _ & _ & Hconf & _ & _ & _ & _ &
          _ & _ & _ & Hcfg & _).
    rewrite Hrun in Hrun'. injection Hrun' as <-. split.
    + intros cfg name Hcfg' Hin. rewrite Hcfg in Hcfg'. injection Hcfg' as <-.
      apply Hkeys. by right.
    + intros cfg name ptr c' Hcfg' Hptr Hc' Hpend.
      rewrite Hcfg in Hcfg'. injection Hcfg' as <-.
      destruct (config u !! name) as [cfgv|] eqn:Hname; [|done].
      rewrite (Hconf name ptr c' Hptr Hc') in Hpend by eauto. done.
  - destruct (ShutdownLocked_spec w Hwf) as (w'' & Hrun' & Hlb & _).
    rewrite Hrun in Hrun'. injection Hrun' as <-. by rewrite Hlb.
  - by apply Hsame, (ExitIdleLocked_same_records child_policy).
  - by apply Hsame, (ResetBackoffLocked_same_records child_policy).
  - by apply Hsame, (Helper_call_same_records child h).
  - destruct (OnDelayedRemovalTimerLocked_cases child error w w' Hwf Hlive Hrun)
      as (c & Hc & [(_ & Hlb & Hheap)|(Herr & Hsh & Hfiled & Hlb & Hheap)]).
    + intros Hsd. rewrite Hlb in Hsd. destruct (IH Hsd) as [Hpres Hpend]. split.
      * intros cfg name. rewrite Hlb. apply Hpres.
      * intros cfg name ptr c'. rewrite Hlb, Hheap.
        destruct (decide (ptr = child)) as [->|Hne].
        -- rewrite lookup_insert_eq. by intros ? ? [= <-].
        -- rewrite lookup_insert_ne by done. apply Hpend.
    + intros Hsd. rewrite Hlb in Hsd. simpl in Hsd.
      destruct (IH Hsd) as [Hpres Hpend].
      pose proof (Htimely Herr c Hc) as Hwas.
      split.
      * intros cfg name Hcfg Hin. rewrite Hlb in Hcfg |- *.
        cbn [XdsClusterManagerLb.children_ XdsClusterManagerLb.config_
             XdsClusterManagerLb.set_children_] in Hcfg |- *.
        rewrite lookup_delete_ne; [by apply (Hpres cfg)|].
        intros <-. rewrite (Hpend cfg _ child c Hcfg Hfiled Hc Hwas) in Hin.
        by destruct Hin.
      * intros cfg name ptr c' Hcfg. rewrite Hlb in Hcfg |- *. rewrite Hheap.
        cbn [XdsClusterManagerLb.children_ XdsClusterManagerLb.config_
             XdsClusterManagerLb.set_children_] in Hcfg |- *.
        destruct (decide (name = ClusterChild.name_ c)) as [->|Hne].
        { by rewrite lookup_delete_eq. }
        rewrite lookup_delete_ne by done. intros Hptr.
        rewrite lookup_insert_ne; [by apply Hpend|].
        intros <-. destruct (Hwf _ _ Hptr) as (d & Hd & Hname & _).
        congruence.
  - unfold modify in Hrun. injection Hrun as <-. done.
Qed.

End RunInvariants.

(** X9: between serialized calls no update is in progress, every entry of
    [children_] points to a record that carries the entry's name, owns a
    child policy and has not been orphaned, and every record that has not
    been orphaned is the one filed under its name.  So the child policy
    that [ExitIdleLocked], [ResetBackoffLocked] and [Orphan] dereference
    without a check is never null. *)
Theorem filed_records_are_live {channel : ChannelControlHelper} {map_clear : MapClear}
    (child_policy : World → policy_call → list helper_call) (w : World) :
  never_reports_shutdown child_policy →
  reachable child_policy w →
  XdsClusterManagerLb.update_in_progress_ (lb w) = false ∧
  (∀ name ptr, XdsClusterManagerLb.children_ (lb w) !! name = Some ptr →
     ∃ c, heap w !! ptr = Some c ∧ ClusterChild.name_ c = name ∧
          is_Some (ClusterChild.child_policy_ c) ∧
          ClusterChild.shutdown_ c = false) ∧
  (∀ ptr c, heap w !! ptr = Some c → ClusterChild.shutdown_ c = false →
     XdsClusterManagerLb.children_ (lb w) !! ClusterChild.name_ c = Some ptr).
Proof.
  intros Hsane Hreach.
  destruct (reachable_wf child_policy Hsane w Hreach) as [Hwf Hflag].
  destruct (reachable_filed child_policy Hsane w Hreach) as [Hlive _].
  split; [done|]. split; [|done].
  intros name ptr Hptr. destruct (Hwf name ptr Hptr) as (c & ? & ? & ? & ? & _).
  by exists c.
Qed.

Lemma filed_records_are_live_witness :
  ∃ w, for_each (exec (channel := example_channel) (map_clear := libstdcxx_clear)
      eager_policy)
         [EvUpdate (update_with config_AB); EvUpdate (update_with config_A);
          EvTimer 1 GRPC_ERROR_NONE] (initial_world 0) = Done tt w ∧
       XdsClusterManagerLb.children_ (lb w) !! "B" = None ∧
       ∀ ptr c, heap w !! ptr = Some c → ClusterChild.shutdown_ c = false →
                XdsClusterManagerLb.children_ (lb w) !! ClusterChild.name_ c = Some ptr.
Proof.
  destruct (for_each _ _ _) as [[] w|f] eqn:Hrun;
    [|vm_compute in Hrun; discriminate Hrun].
  exists w. split; [reflexivity|]. split.
  - vm_compute in Hrun. injection Hrun as <-. vm_compute. reflexivity.
  - apply (filed_records_are_live
      (channel := example_channel) (map_clear := libstdcxx_clear)
      eager_policy w eager_policy_sane).
    eapply reachable_run; [apply (reachable_initial _ 0)| |exact Hrun].
    repeat constructor.
Defined.

(** X10: a record exists only once the policy has a configuration: as long
    as [config_] is null there is no [ClusterChild], hence no helper that
    could make [UpdateStateLocked] dereference [config_]. *)
Theorem no_record_before_configuration {channel : ChannelControlHelper} {map_clear : MapClear}
    (child_policy : World → policy_call → list helper_call)
    (w : World) (child : child_ptr) (c : ClusterChild.t) :
  never_reports_shutdown child_policy →
  reachable child_policy w →
  heap w !! child = Some c →
  is_Some (XdsClusterManagerLb.config_ (lb w)).
Proof.
  intros Hsane Hreach Hc.
  destruct (reachable_filed child_policy Hsane w Hreach) as [_ Hfirst].
  destruct (XdsClusterManagerLb.config_ (lb w)) eqn:Hcfg; [by eauto|].
  by rewrite (Hfirst Hcfg), lookup_empty in Hc.
Qed.

Lemma no_record_before_configuration_witness :
  is_Some (XdsClusterManagerLb.config_ (lb world_AB)).
Proof.
  apply (no_record_before_configuration
      (channel := example_channel) (map_clear := libstdcxx_clear)
      quiet_policy world_AB 0
           (ClusterChild.mk "A" (Some 0) None GRPC_CHANNEL_IDLE false false)).
  - by intros w c st status pk ?%elem_of_nil.
  - apply (reachable_step quiet_policy (initial_world 0)
             (EvUpdate (update_with config_AB)) world_AB).
    + apply reachable_initial.
    + exact I.
    + exact world_AB_reached.
  - vm_compute. reflexivity.
Defined.

(** X11: if every run of the removal timer's callback with no error finds
    its record still pending removal, then, as long as the policy is not
    shut down, every configured name has a record, the records pending
    removal are those of names that are not configured, and a state change
    reported by the child policy of any record, with a state other than
    SHUTDOWN, is processed to the end: the recomputation of the aggregate
    dereferences no missing entry. *)
Theorem state_change_processed_without_race {channel : ChannelControlHelper} {map_clear : MapClear}
    (child_policy : World → policy_call → list helper_call) (w : World) :
  never_reports_shutdown child_policy →
  raceless child_policy w →
  (XdsClusterManagerLb.shutting_down_ (lb w) = false →
   configured_present w ∧ pending_unconfigured w) ∧
  ∀ child c st status pk,
    heap w !! child = Some c → st ≠ GRPC_CHANNEL_SHUTDOWN →
    ∃ w', Helper_UpdateState child st status pk w = Done tt w'.
Proof.
  intros Hsane Hrace. split; [by apply (raceless_present child_policy)|].
  intros child c st status pk Hc Hst.
  pose proof (raceless_reachable child_policy w Hrace) as Hreach.
  destruct (reachable_wf child_policy Hsane w Hreach) as [Hwf Hflag].
  destruct (reachable_filed child_policy Hsane w Hreach) as [_ Hfirst].
  destruct (XdsClusterManagerLb.shutting_down_ (lb w)) eqn:Hsd.
  { exists w. unfold Helper_UpdateState. unfold_monad. by rewrite Hsd. }
  destruct (raceless_present child_policy Hsane w Hrace Hsd) as [Hpres _].
  rewrite (Helper_UpdateState_live _ _ _ _ _ _ Hsd Hc).
  apply UpdateStateLocked_total. split; [done|].
  destruct (XdsClusterManagerLb.config_ (lb w)) as [cfg|] eqn:Hcfg.
  2:{ by rewrite (Hfirst Hcfg), lookup_empty in Hc. }
  exists cfg. split; [done|]. intros name Hin.
  destruct (Hpres cfg name Hcfg Hin) as [ptr Hptr].
  destruct (Hwf name ptr Hptr) as (d & Hd & _ & _ & _ & Hdst).
  destruct (decide (ptr = child)) as [->|Hne].
  - exists (latch_state st (cache_picker pk c)). split.
    + exists cfg, child. simpl. by rewrite lookup_insert_eq.
    + rewrite latch_state_state. by case_decide.
  - exists d. split; [|done]. exists cfg, ptr. simpl.
    by rewrite lookup_insert_ne.
Qed.

Lemma state_change_processed_without_race_witness :
  ∃ w', Helper_UpdateState 1 GRPC_CHANNEL_READY OkStatus (ChildPolicyPicker 7)
          world_AB = Done tt w'.
Proof.
  assert (raceless (channel := example_channel) (map_clear := libstdcxx_clear)
      quiet_policy world_AB) as Hrace.
  { apply (raceless_step quiet_policy (initial_world 0)
             (EvUpdate (update_with config_AB)) world_AB).
    - apply raceless_initial.
    - exact I.
    - exact I.
    - exact world_AB_reached. }
  apply (proj2 (state_change_processed_without_race quiet_policy world_AB
                  (λ w c st status pk H, False_ind _ (not_elem_of_nil _ H)) Hrace)
           1 (ClusterChild.mk "B" (Some 1) None GRPC_CHANNEL_IDLE false false)).
  - vm_compute. reflexivity.
  - discriminate.
Defined.

(** ** ExitIdleLocked and ResetBackoffLocked *)

Lemma to_channel_UpdateStateLocked : appends to_channel UpdateStateLocked.
Proof.
  unfold UpdateStateLocked, count_child, add_cluster_picker.
  repeat appends_step.
Qed.

#[local] Hint Resolve to_channel_UpdateStateLocked : appends.





Section Forwarding.

Context {channel : ChannelControlHelper} {map_clear : MapClear}.

Variable child_policy : World → policy_call → list helper_call.
Hypothesis sane : never_reports_shutdown child_policy.



End Forwarding.





(** ** Publishing and picking *)

Lemma count_fold_empty_config (l : list (string * child_ptr)) n w :
  XdsClusterManagerLb.config_ (lb w) = Some ∅ →
  foldM count_child n l w = Done n w.
Proof.
  intros Hcfg. induction l as [|p l IH]; simpl; [done|].
  unfold bind at 1. unfold count_child at 1.
  unfold bind at 1. unfold bind at 1. unfold gets at 1. rewrite Hcfg. simpl.
  by rewrite lookup_empty.
Qed.

(** X14: with an empty configuration the recomputation counts no record,
    whatever records there are and whatever their state is: it publishes
    TRANSIENT_FAILURE with an Unavailable status and a picker without
    entries, on which every pick fails. *)
Theorem empty_configuration_fails (w : World) :
  XdsClusterManagerLb.config_ (lb w) = Some ∅ →
  XdsClusterManagerLb.update_in_progress_ (lb w) = false →
  UpdateStateLocked w =
    Done tt (set_trace
               (trace w ++
                [ChannelUpdateState GRPC_CHANNEL_TRANSIENT_FAILURE
                   (mkStatus kUnavailable "TRANSIENT_FAILURE from XdsClusterManagerLb")
                   ∅]) w) ∧
  ∀ child_picker attribute a w0,
    ClusterPicker_Pick child_picker attribute ∅ a w0 =
      (Fail (InternalError
               (unknown_cluster_message
                  (GetCallAttribute (call_state a) attribute))), w0).
Proof.
  intros Hcfg Hflag. split.
  - unfold UpdateStateLocked. unfold bind at 1. unfold gets at 1. rewrite Hflag.
    unfold bind at 1. unfold gets at 1. unfold bind at 1.
    rewrite (count_fold_empty_config _ _ _ Hcfg).
    unfold bind at 1. unfold bind at 1. unfold gets at 1. rewrite Hcfg. simpl.
    by rewrite entries_empty.
  - intros child_picker attribute a w0. unfold ClusterPicker_Pick.
    by rewrite lookup_empty.
Qed.

Lemma empty_configuration_fails_witness :
  UpdateStateLocked
    (set_lb (XdsClusterManagerLb.mk (Some ∅) false false {[ "A" := 0; "B" := 1 ]})
       world_B_deactivated) =
    Done tt
      (mkWorld (XdsClusterManagerLb.mk (Some ∅) false false {[ "A" := 0; "B" := 1 ]})
         (heap world_B_deactivated) 2 0%Z
         [ChannelUpdateState GRPC_CHANNEL_TRANSIENT_FAILURE
            (mkStatus kUnavailable "TRANSIENT_FAILURE from XdsClusterManagerLb") ∅]).
Proof.
  exact (proj1 (empty_configuration_fails
                  (set_lb (XdsClusterManagerLb.mk (Some ∅) false false
                             {[ "A" := 0; "B" := 1 ]}) world_B_deactivated)
                  eq_refl eq_refl)).
Defined.

(** X15: a pick on the picker that a recomputation publishes is routed by
    the configuration of that moment.  For a cluster that is configured it
    is the pick of the picker that the cluster's child policy reported
    last; for a cluster that is not configured it fails as an unknown
    cluster, even if a record of that name, pending removal, still holds a
    picker. *)
Theorem published_picker_routes (w w' : World) :
  XdsClusterManagerLb.update_in_progress_ (lb w) = false →
  UpdateStateLocked w = Done tt w' →
  ∃ cfg st status cm,
    XdsClusterManagerLb.config_ (lb w) = Some cfg ∧
    trace w' = trace w ++ [ChannelUpdateState st status cm] ∧
    ∀ child_picker attribute a w0,
      let name := GetCallAttribute (call_state a) attribute in
      (cfg !! name = None →
       ClusterPicker_Pick child_picker attribute cm a w0 =
         (Fail (InternalError (unknown_cluster_message name)), w0)) ∧
      (∀ c pw, configured_child w name c →
               ClusterChild.picker_wrapper_ c = Some pw →
       ClusterPicker_Pick child_picker attribute cm a w0 =
         SubchannelPicker_Pick child_picker (ChildPickerWrapper.picker_ pw) a w0).
Proof.
  intros Hflag Hrun.
  destruct (UpdateStateLocked_Done w w' Hflag Hrun)
    as (cfg & n & cm & Hcfg & -> & _ & _ & _ & Hcm).
  exists cfg, (aggregated_state n), (aggregated_status (aggregated_state n)), cm.
  split; [done|]. split; [done|].
  intros child_picker attribute a w0 name. unfold ClusterPicker_Pick. fold name.
  rewrite Hcm. split.
  - intros Hnone. rewrite decide_False; [done|]. rewrite Hnone. by intros [? ?].
  - intros c pw (cfg' & ptr & Hcfg' & Hin & Hptr & Hc) Hpw.
    assert (cfg' = cfg) as -> by congruence.
    rewrite decide_True by done. unfold picker_entry. by rewrite Hptr, Hc, Hpw.
Qed.

Lemma published_picker_routes_witness :
  ∃ w' st status cm,
    UpdateStateLocked world_B_deactivated = Done tt w' ∧
    trace w' = trace world_B_deactivated ++ [ChannelUpdateState st status cm] ∧
    ClusterPicker_Pick plain_picker cluster_type cm (call_for "B") world_AB =
      (Fail (InternalError (unknown_cluster_message "B")), world_AB) ∧
    ClusterPicker_Pick plain_picker cluster_type cm (call_for "A") world_AB =
      (Complete 10, world_AB).
Proof.
  destruct (UpdateStateLocked world_B_deactivated) as [[] w'|] eqn:Hrun;
    [|vm_compute in Hrun; discriminate Hrun].
  destruct (published_picker_routes world_B_deactivated w' eq_refl Hrun)
    as (cfg & st & status & cm & Hcfg & Htrace & Hpick).
  injection Hcfg as <-.
  exists w', st, status, cm. split; [reflexivity|]. split; [exact Htrace|]. split.
  - apply (proj1 (Hpick plain_picker cluster_type (call_for "B") world_AB)).
    vm_compute. reflexivity.
  - apply (proj2 (Hpick plain_picker cluster_type (call_for "A") world_AB)
             (ClusterChild.mk "A" (Some 0)
                (Some (ChildPickerWrapper.mk "A" (ChildPolicyPicker 10)))
                GRPC_CHANNEL_CONNECTING false false)
             (ChildPickerWrapper.mk "A" (ChildPolicyPicker 10))).
    + exists config_A, 0. repeat split; try (vm_compute; reflexivity).
      vm_compute. eauto.
    + reflexivity.
Defined.

(** X16: a value that [ParseLoadBalancingConfig] accepts can be applied: the
    first [UpdateLocked] of a new policy with the parsed config returns,
    files a record for each member of [children] and for nothing else, at
    least one, and ends with the only publication, whose picker has these
    members as its clusters. *)
Theorem accepted_config_applies {channel : ChannelControlHelper}
    {Json : Type} `{JsonOps Json}
    (registry : Json → Status + LbConfig) (null_config : LbConfig)
    (child_policy : World → policy_call → list helper_call)
    (json : Json) (m : gmap string LbConfig)
    (addrs : Status + ServerAddressList) (a : ChannelArgs) (t : Z) :
  never_reports_shutdown child_policy →
  ParseLoadBalancingConfig registry null_config json = inr m →
  ∃ it w' pre st status cm,
    object_value json !! "children" = Some it ∧
    UpdateLocked child_policy (mkUpdateArgs m addrs a) (initial_world t) = Done tt w' ∧
    dom (XdsClusterManagerLb.children_ (lb w')) = dom (object_value it) ∧
    XdsClusterManagerLb.children_ (lb w') ≠ ∅ ∧
    trace w' = pre ++ [ChannelUpdateState st status cm] ∧
    publications pre = [] ∧
    dom cm = dom (object_value it).
Proof.
  intros Hsane Hparse.
  destruct (ParseLoadBalancingConfig_accepted registry null_config json m Hparse)
    as (_ & it & Hit & _ & Hne & Hdom & _).
  destruct (UpdateLocked_detail child_policy Hsane (mkUpdateArgs m addrs a)
              (initial_world t) eq_refl (wf_initial t))
    as (w' & new & Hrun & Htrace & _ & _ & Hkeys & _ & _ & _ & _ & _ & _ & _ & _ &
        _ & _ & _ & _ & pre & st & status & cm & -> & Hpre & Hcm).
  simpl in Hkeys, Hcm, Htrace.
  assert (dom (XdsClusterManagerLb.children_ (lb w')) = dom m) as Hch.
  { apply set_eq. intros name. rewrite !elem_of_dom, Hkeys, lookup_empty.
    split; [by intros [[? ?]|?]|by right]. }
  exists it, w', pre, st, status, cm. split; [done|]. split; [done|].
  split; [by rewrite Hch|]. split.
  { intros Hempty. apply Hne. apply dom_empty_inv_L.
    by rewrite <- Hdom, <- Hch, Hempty, dom_empty_L. }
  split; [done|]. split; [done|]. by rewrite Hcm.
Qed.

Lemma accepted_config_applies_witness :
  ∃ w', UpdateLocked (channel := example_channel) eager_policy
          (mkUpdateArgs {[ "A" := "round_robin"; "B" := "round_robin" ]} (inr []) [])
          (initial_world 0) = Done tt w' ∧
        dom (XdsClusterManagerLb.children_ (lb w')) = {[ "A"; "B" ]}.
Proof.
  destruct (accepted_config_applies (channel := example_channel)
      example_registry EmptyString eager_policy
              json_AB {[ "A" := "round_robin"; "B" := "round_robin" ]}
              (inr []) [] 0 eager_policy_sane)
    as (it & w' & pre & st & status & cm & Hit & Hrun & Hdom & _).
  { vm_compute. reflexivity. }
  exists w'. split; [exact Hrun|]. rewrite Hdom.
  vm_compute in Hit. injection Hit as <-. vm_compute. reflexivity.
Defined.

Lemma Helper_call_record {channel : ChannelControlHelper} child h w w' c :
  XdsClusterManagerLb.shutting_down_ (lb w) = false →
  heap w !! child = Some c →
  Helper_call child h w = Done tt w' →
  lb w' = lb w ∧ heap w' !! child = Some (absorb c h).
Proof.
  intros Hsd Hc Hrun. split; [by eapply Helper_call_lb|].
  destruct h as [st status pk| | |]; simpl in *.
  - rewrite (Helper_UpdateState_live _ _ _ _ _ _ Hsd Hc) in Hrun.
    apply UpdateStateLocked_frame in Hrun as [_ ->]. simpl.
    by rewrite lookup_insert_eq.
  - unfold Helper_CreateSubchannel in Hrun. unfold_monad. rewrite Hsd in Hrun.
    by injection Hrun as <-.
  - unfold Helper_RequestReresolution in Hrun. unfold_monad. rewrite Hsd in Hrun.
    by injection Hrun as <-.
  - unfold Helper_AddTraceEvent in Hrun. unfold_monad. rewrite Hsd in Hrun.
    by injection Hrun as <-.
Qed.

Lemma Helper_calls_record {channel : ChannelControlHelper} child hs : ∀ w w' c,
  XdsClusterManagerLb.shutting_down_ (lb w) = false →
  heap w !! child = Some c →
  for_each (Helper_call child) hs w = Done tt w' →
  heap w' !! child = Some (foldl absorb c hs).
Proof.
  induction hs as [|h hs IH]; intros w w' c Hsd Hc; simpl.
  { by intros [= <-]. }
  unfold bind. destruct (Helper_call child h w) as [[] w1|] eqn:Hstep; [|done].
  destruct (Helper_call_record child h w w1 c Hsd Hc Hstep) as [Hlb Hc1].
  apply IH; [by rewrite Hlb|done].
Qed.

Lemma absorb_failure_sticks hs : ∀ c,
  ClusterChild.connectivity_state_ c = GRPC_CHANNEL_TRANSIENT_FAILURE →
  (∀ status pk, HelperUpdateState GRPC_CHANNEL_READY status pk ∉ hs) →
  ClusterChild.connectivity_state_ (foldl absorb c hs) = GRPC_CHANNEL_TRANSIENT_FAILURE.
Proof.
  induction hs as [|h hs IH]; intros c Hc Hhs; simpl; [done|].
  apply IH.
  - destruct h as [st status pk| | |]; simpl; try done.
    rewrite latch_state_state. simpl. rewrite decide_True; [done|].
    split; [done|]. intros ->. apply (Hhs status pk). by left.
  - intros status pk Hin. apply (Hhs status pk). by right.
Qed.

(** X17: the reports of a child policy, taken in sequence while the policy
    is not shut down.  Once the record is in TRANSIENT_FAILURE it stays
    there through every report that is not READY, while the picker cached
    is always that of the last report; a READY report is always taken
    over. *)
Theorem failure_sticks_until_ready {channel : ChannelControlHelper}
    (child : child_ptr) (hs : list helper_call)
    (w w' : World) (c : ClusterChild.t) :
  XdsClusterManagerLb.shutting_down_ (lb w) = false →
  heap w !! child = Some c →
  for_each (Helper_call child) hs w = Done tt w' →
  ∃ c',
    heap w' !! child = Some c' ∧
    (ClusterChild.connectivity_state_ c = GRPC_CHANNEL_TRANSIENT_FAILURE →
     (∀ status pk, HelperUpdateState GRPC_CHANNEL_READY status pk ∉ hs) →
     ClusterChild.connectivity_state_ c' = GRPC_CHANNEL_TRANSIENT_FAILURE) ∧
    (∀ hs0 st status pk, hs = hs0 ++ [HelperUpdateState st status pk] →
       ClusterChild.picker_wrapper_ c' =
         Some (ChildPickerWrapper.mk (ClusterChild.name_ c) pk) ∧
       (st = GRPC_CHANNEL_READY →
        ClusterChild.connectivity_state_ c' = GRPC_CHANNEL_READY)).
Proof.
  intros Hsd Hc Hrun. exists (foldl absorb c hs).
  split; [by apply (Helper_calls_record child hs w w')|].
  split; [by apply absorb_failure_sticks|].
  intros hs0 st status pk ->. rewrite foldl_app. simpl.
  destruct (absorb_lifecycle c hs0) as (Hname & _).
  split.
  - unfold latch_state, cache_picker. case_match; simpl; by rewrite Hname.
  - intros ->. rewrite latch_state_state. rewrite decide_False; [done|].
    by intros [_ ?].
Qed.

Lemma failure_sticks_until_ready_witness :
  ∃ w' c',
    for_each (Helper_call (channel := example_channel) 0)
      [HelperUpdateState GRPC_CHANNEL_CONNECTING OkStatus (ChildPolicyPicker 20);
       HelperAddTraceEvent 0 "retrying";
       HelperUpdateState GRPC_CHANNEL_IDLE OkStatus (ChildPolicyPicker 21)]
      world_A_failed = Done tt w' ∧
    heap w' !! 0 = Some c' ∧
    ClusterChild.connectivity_state_ c' = GRPC_CHANNEL_TRANSIENT_FAILURE ∧
    ClusterChild.picker_wrapper_ c' =
      Some (ChildPickerWrapper.mk "A" (ChildPolicyPicker 21)).
Proof.
  destruct (for_each _ _ _) as [[] w'|f] eqn:Hrun;
    [|vm_compute in Hrun; discriminate Hrun].
  destruct (failure_sticks_until_ready 0 _ world_A_failed w'
              (ClusterChild.mk "A" (Some 0)
                 (Some (ChildPickerWrapper.mk "A" (ChildPolicyPicker 10)))
                 GRPC_CHANNEL_TRANSIENT_FAILURE false false)
              eq_refl eq_refl Hrun) as (c' & Hc' & Hstick & Hlast).
  exists w', c'. split; [reflexivity|]. split; [exact Hc'|]. split.
  - apply Hstick; [reflexivity|]. intros status pk Hin.
    repeat (apply elem_of_cons in Hin as [Hin|Hin]; [discriminate Hin|]).
    by apply elem_of_nil in Hin.
  - apply (Hlast [HelperUpdateState GRPC_CHANNEL_CONNECTING OkStatus (ChildPolicyPicker 20);
                  HelperAddTraceEvent 0 "retrying"]
             GRPC_CHANNEL_IDLE OkStatus (ChildPolicyPicker 21)).
    reflexivity.
Defined.

(** ** Helper requests and shutdown *)

(** X18: what a child policy asks of its helper, state changes apart,
    reaches the channel as it is and in the order of the calls, whether or
    not an update is in progress, and changes neither the policy nor any
    record; once the policy is shut down nothing reaches the channel.
    [CreateSubchannel] asks the channel once, with the address and the args
    it was given, and returns what the channel returns, be it a subchannel
    or a null pointer; once the policy is shut down it returns a null
    pointer and the channel is not asked. *)
Theorem helper_requests_pass_through {channel : ChannelControlHelper}
    (child : child_ptr) (hs : list helper_call) (w : World) :
  (∀ st status pk, HelperUpdateState st status pk ∉ hs) →
  for_each (Helper_call child) hs w =
    Done tt (if XdsClusterManagerLb.shutting_down_ (lb w) then w
             else set_trace (trace w ++ omap forwarded hs) w) ∧
  ∀ address a,
    Helper_CreateSubchannel child address a w =
      if XdsClusterManagerLb.shutting_down_ (lb w) then Done None w
      else Done (channel_CreateSubchannel w address a)
                (set_trace (trace w ++ [ChannelCreateSubchannel address a]) w).
Proof.
  intros Hhs. split.
  - revert w. induction hs as [|h hs IH]; intros w; simpl.
    { destruct (XdsClusterManagerLb.shutting_down_ (lb w)); [done|].
      rewrite app_nil_r. by destruct w. }
    assert (Helper_call child h w =
              Done tt (if XdsClusterManagerLb.shutting_down_ (lb w) then w
                       else set_trace (trace w ++ option_list (forwarded h)) w))
      as Hstep.
    { destruct h as [st status pk| | |]; simpl.
      - destruct (Hhs st status pk). by left.
      - unfold Helper_CreateSubchannel. unfold_monad.
        by destruct (XdsClusterManagerLb.shutting_down_ (lb w)).
      - unfold Helper_RequestReresolution. unfold_monad.
        by destruct (XdsClusterManagerLb.shutting_down_ (lb w)).
      - unfold Helper_AddTraceEvent. unfold_monad.
        by destruct (XdsClusterManagerLb.shutting_down_ (lb w)). }
    rewrite (bind_Done _ _ _ _ _ Hstep).
    rewrite IH by (intros st status pk Hin; apply (Hhs st status pk); by right).
    destruct (XdsClusterManagerLb.shutting_down_ (lb w)) eqn:Hsd; [by rewrite Hsd|].
    simpl. rewrite Hsd. unfold set_trace. simpl. f_equal. f_equal.
    rewrite <- app_assoc. f_equal. by destruct (forwarded h).
  - intros address a. unfold Helper_CreateSubchannel. unfold_monad.
    by destruct (XdsClusterManagerLb.shutting_down_ (lb w)).
Qed.

Lemma helper_requests_pass_through_witness :
  for_each (Helper_call (channel := example_channel) 0)
    [HelperRequestReresolution; HelperCreateSubchannel "10.0.0.1:443" [];
     HelperAddTraceEvent 1 "resolved"] world_B_returning =
    Done tt (set_trace
               (trace world_B_returning ++
                [ChannelRequestReresolution; ChannelCreateSubchannel "10.0.0.1:443" [];
                 ChannelAddTraceEvent 1 "resolved"]) world_B_returning) ∧
  Helper_CreateSubchannel (channel := example_channel) 0 "10.0.0.1:443" [] world_AB =
    Done (Some 7)
         (set_trace (trace world_AB ++ [ChannelCreateSubchannel "10.0.0.1:443" []])
            world_AB) ∧
  Helper_CreateSubchannel (channel := example_channel) 0 EmptyString [] world_AB =
    Done None
         (set_trace (trace world_AB ++ [ChannelCreateSubchannel EmptyString []])
            world_AB) ∧
  Helper_CreateSubchannel (channel := example_channel) 0 "10.0.0.1:443" []
    world_AB_shut = Done None world_AB_shut.
Proof.
  split; [|split; [|split]].
  - refine (proj1 (helper_requests_pass_through (channel := example_channel) 0
              [HelperRequestReresolution; HelperCreateSubchannel "10.0.0.1:443" [];
               HelperAddTraceEvent 1 "resolved"] world_B_returning _)).
    intros st status pk Hin.
    repeat (apply elem_of_cons in Hin as [Hin|Hin]; [discriminate Hin|]).
    by apply elem_of_nil in Hin.
  - exact (proj2 (helper_requests_pass_through (channel := example_channel) 0 []
                    world_AB (λ st status pk, not_elem_of_nil _))
             "10.0.0.1:443" []).
  - exact (proj2 (helper_requests_pass_through (channel := example_channel) 0 []
                    world_AB (λ st status pk, not_elem_of_nil _))
             EmptyString []).
  - exact (proj2 (helper_requests_pass_through (channel := example_channel) 0 []
                    world_AB_shut (λ st status pk, not_elem_of_nil _))
             "10.0.0.1:443" []).
Defined.

Lemma clear_order_split {map_clear : MapClear} (w : World) seen p rest :
  clear_order w = seen ++ p :: rest →
  XdsClusterManagerLb.children_ (lb w) !! p.1 = Some p.2 ∧ (p.1 ∉ seen.*1) ∧
  ∀ q, q ∈ seen → XdsClusterManagerLb.children_ (lb w) !! q.1 = Some q.2.
Proof.
  intros Hl. pose proof (NoDup_clear_order w) as Hnd. rewrite Hl in Hnd.
  rewrite fmap_app, fmap_cons in Hnd.
  apply NoDup_app in Hnd as (_ & Hdis & _).
  split; [|split].
  - apply elem_of_clear_order. rewrite <- surjective_pairing, Hl.
    apply elem_of_app. right. by left.
  - intros Hin. apply (Hdis _ Hin). by left.
  - intros q Hq. apply elem_of_clear_order. rewrite <- surjective_pairing, Hl.
    apply elem_of_app. by left.
Qed.

(** [ShutdownLocked] with its calls, in the order in which [children_] is
    cleared. *)
Lemma ShutdownLocked_trace {map_clear : MapClear} w :
  wf w →
  ∃ w', ShutdownLocked w = Done tt w' ∧
        trace w' = trace w ++
                   flat_map (teardown w)
                     (clear_order
                        (set_lb (XdsClusterManagerLb.set_shutting_down_ true (lb w)) w)).
Proof.
  intros Hwf. unfold ShutdownLocked.
  unfold bind at 1. unfold modify_lb at 1. unfold modify at 1.
  unfold bind at 1. unfold gets at 1.
  set (w0 := set_lb _ w).
  set (ch0 := XdsClusterManagerLb.children_ (lb w0)).
  assert (ch0 = XdsClusterManagerLb.children_ (lb w)) as Hch0 by done.
  destruct (for_each_positional
    (λ seen w1,
       trace w1 = trace w ++ flat_map (teardown w) seen ∧
       ∀ name ptr, ch0 !! name = Some ptr → name ∉ seen.*1 →
                   heap w1 !! ptr = heap w !! ptr)
    (λ p : string * child_ptr, ClusterChild_Orphan p.2) (clear_order w0))
    with (w := w0) as (w1 & Hloop & Htrace & _).
  - intros seen [name ptr] rest w1 Hl (Htrace & Hsame). simpl.
    destruct (clear_order_split _ _ _ _ Hl) as (Hptr & Hnew & _).
    change (XdsClusterManagerLb.children_ (lb w) !! name = Some ptr) in Hptr.
    simpl in Hnew.
    destruct (Hwf name ptr Hptr) as (c & Hc & _ & [pid Hpid] & _).
    assert (heap w1 !! ptr = Some c) as Hc1.
    { rewrite (Hsame name ptr); [done|by rewrite Hch0|done]. }
    rewrite (ClusterChild_Orphan_eq _ _ _ _ Hc1 Hpid).
    eexists. split; [reflexivity|]. cbn [heap trace]. split.
    + rewrite flat_map_app. simpl. unfold teardown at 2. simpl.
      by rewrite Hc, Hpid, Htrace, app_nil_r, <- app_assoc.
    + intros name' ptr' Hptr' Hnotin. rewrite fmap_app in Hnotin.
      apply not_elem_of_app in Hnotin as [Hnotin Hne].
      rewrite lookup_insert_ne; [by apply (Hsame name')|].
      intros <-. apply Hne. simpl. rewrite Hch0 in Hptr'.
      rewrite (wf_injective w name' name ptr Hwf Hptr' Hptr). by left.
  - split; [by rewrite app_nil_r|done].
  - rewrite (bind_Done _ _ _ _ _ Hloop). unfold modify_lb, modify.
    eexists. split; [reflexivity|]. exact Htrace.
Qed.

Lemma publications_teardown w (l : list (string * child_ptr)) :
  publications (flat_map (teardown w) l) = [].
Proof.
  induction l as [|p l IH]; [done|]. simpl.
  rewrite publications_app, IH, app_nil_r. unfold teardown.
  destruct (heap w !! p.2) as [c|]; [|done].
  destruct (ClusterChild.child_policy_ c) as [pid|]; [|done].
  apply publications_orphan.
Qed.

(** X19: [ShutdownLocked] on well-formed records returns, and what it calls
    is the teardown of the records of [children_], one record after the
    other, each record once: the child policy is taken out of the pollset
    set and reset, and the removal timer is cancelled if it is pending.  The
    records are taken in the order in which the map is cleared, which the
    program does not fix.  No timer is cancelled that is not pending, and
    nothing is published to the channel. *)
Theorem shutdown_tears_down_each_child_once {map_clear : MapClear} (w : World) :
  wf w →
  ∃ w' new,
    ShutdownLocked w = Done tt w' ∧
    trace w' = trace w ++ new ∧
    (∃ order, order ≡ₚ entries (XdsClusterManagerLb.children_ (lb w)) ∧
              new = flat_map (teardown w) order) ∧
    publications new = [] ∧
    (∀ pid, ChildPolicyReset pid ∈ new ↔
       ∃ name ptr c, XdsClusterManagerLb.children_ (lb w) !! name = Some ptr ∧
                     heap w !! ptr = Some c ∧
                     ClusterChild.child_policy_ c = Some pid) ∧
    (∀ ptr, TimerCancel ptr ∈ new ↔
       ∃ name c, XdsClusterManagerLb.children_ (lb w) !! name = Some ptr ∧
                 heap w !! ptr = Some c ∧
                 ClusterChild.delayed_removal_timer_callback_pending_ c = true).
Proof.
  intros Hwf. destruct (ShutdownLocked_trace w Hwf) as (w' & Hrun & Htrace).
  set (order := clear_order _) in *.
  exists w', (flat_map (teardown w) order).
  split; [done|]. split; [done|].
  split; [exists order; split; [exact (clear_order_entries _)|done]|].
  assert (∀ e, e ∈ flat_map (teardown w) order ↔
            ∃ name ptr c pid,
              XdsClusterManagerLb.children_ (lb w) !! name = Some ptr ∧
              heap w !! ptr = Some c ∧ ClusterChild.child_policy_ c = Some pid ∧
              e ∈ orphan_effects ptr c pid) as Hin.
  { intros e. rewrite list_elem_of_In, in_flat_map. split.
    - intros ([name ptr] & Hp%list_elem_of_In%elem_of_clear_order
              & He%list_elem_of_In).
      unfold teardown in He. simpl in He.
      destruct (heap w !! ptr) as [c|] eqn:Hc; [|by apply elem_of_nil in He].
      destruct (ClusterChild.child_policy_ c) as [pid|] eqn:Hpid;
        [|by apply elem_of_nil in He].
      by exists name, ptr, c, pid.
    - intros (name & ptr & c & pid & Hptr & Hc & Hpid & He).
      exists (name, ptr). split.
      + by apply list_elem_of_In, elem_of_clear_order.
      + apply list_elem_of_In. unfold teardown. simpl. by rewrite Hc, Hpid. }
  split; [|split].
  - apply publications_teardown.
  - intros pid. rewrite Hin. split.
    + intros (name & ptr & c & pid' & Hptr & Hc & Hpid & He).
      exists name, ptr, c. split; [done|]. split; [done|].
      unfold orphan_effects in He. apply elem_of_app in He as [He|He].
      * apply elem_of_cons in He as [He|He]; [done|].
        apply list_elem_of_singleton in He. congruence.
      * destruct (ClusterChild.delayed_removal_timer_callback_pending_ c);
          [by apply list_elem_of_singleton in He|by apply elem_of_nil in He].
    + intros (name & ptr & c & Hptr & Hc & Hpid). exists name, ptr, c, pid.
      split; [done|]. split; [done|]. split; [done|].
      unfold orphan_effects. apply elem_of_app. left. right. by left.
  - intros ptr. rewrite Hin. split.
    + intros (name & ptr' & c & pid & Hptr & Hc & Hpid & He).
      unfold orphan_effects in He. apply elem_of_app in He as [He|He].
      * apply elem_of_cons in He as [He|He]; [done|].
        by apply list_elem_of_singleton in He.
      * destruct (ClusterChild.delayed_removal_timer_callback_pending_ c) eqn:Hp;
          [|by apply elem_of_nil in He].
        apply list_elem_of_singleton in He as [= ->]. by exists name, c.
    + intros (name & c & Hptr & Hc & Hp).
      destruct (Hwf name ptr Hptr) as (c' & Hc' & _ & [pid Hpid] & _).
      assert (c' = c) as -> by congruence.
      exists name, ptr, c, pid. split; [done|]. split; [done|]. split; [done|].
      unfold orphan_effects. rewrite Hp. apply elem_of_app. right. by left.
Qed.

Lemma shutdown_tears_down_each_child_once_witness :
  (∃ w', ShutdownLocked (map_clear := libstdcxx_clear) world_B_deactivated
           = Done tt w' ∧
         trace w' = [PollsetSetDel 1; ChildPolicyReset 1; TimerCancel 1;
                     PollsetSetDel 0; ChildPolicyReset 0]) ∧
  (∃ w', ShutdownLocked (map_clear := key_order_clear) world_B_deactivated
           = Done tt w' ∧
         trace w' = [PollsetSetDel 0; ChildPolicyReset 0;
                     PollsetSetDel 1; ChildPolicyReset 1; TimerCancel 1]).
Proof.
  assert (wf world_B_deactivated) as Hwf.
  { apply (bool_decide_unpack _). vm_compute. exact I. }
  split.
  - destruct (shutdown_tears_down_each_child_once (map_clear := libstdcxx_clear)
                world_B_deactivated Hwf) as (w' & new & Hrun & Htrace & _).
    exists w'. split; [exact Hrun|].
    vm_compute in Hrun. injection Hrun as <-. vm_compute. reflexivity.
  - destruct (shutdown_tears_down_each_child_once (map_clear := key_order_clear)
                world_B_deactivated Hwf) as (w' & new & Hrun & Htrace & _).
    exists w'. split; [exact Hrun|].
    vm_compute in Hrun. injection Hrun as <-. vm_compute. reflexivity.
Defined.
